(** * Segment-timeline reconstruction of the Enhanced Speech Tool

    A shallow embedding of the Python sources

    - [src/src/text_processor.py]    ([TextProcessor.process]),
    - [src/src/speech_synthesizer.py] ([PiperTTSSynthesizer.synthesize]),
    - [src/src/audio_mixer.py]        ([AudioMixer.mix]),
    - [src/enhanced_speech_tool.py]   ([EnhancedSpeechTool.process]),
    - [src/speech_clarity_enhancer_local.py] ([combine_audio]),

    and the properties of the pipeline stated about them.

    Conventions of the embedding.
    - Python [str] values are [string]s of code points below 256, classified
      the way [str.isspace], [str.isalnum] and the [re] classes [\s], [\w]
      classify them.
    - Timestamps (Python floats, in seconds) are exact rationals [Q]; rounding
      of binary floating point is outside the model.
    - pydub's [AudioSegment] is the external audio algebra: an asset is the
      sequence of pieces it was built from by [+=]; [AudioSegment.silent]
      of a non-positive duration has no frames and is the empty asset.
    - Exceptions are values of [exn]; code that can raise lives in a state
      and exception monad, and a Python [try]/[except Exception] is
      [try_except].  The failures modelled are those of the calls the
      pipeline guards or hands on: loading an audio file, synthesizing a
      text, and a stage of the orchestrator.  Writing results ([mkdir],
      [export], [copy2], [open]) is taken to succeed, and logging is not
      modelled. *)

From Stdlib Require Import Ascii String NArith QArith Qminmax Lqa Sorted.
From stdpp Require Import base option list strings gmap.

Local Open Scope string_scope.

(* ===================================================================== *)
(** ** Python strings *)
(* ===================================================================== *)

Module PyStr.

Definition code (c : ascii) : N := N_of_ascii c.

Definition between (lo hi : N) (c : ascii) : bool :=
  ((lo <=? code c) && (code c <=? hi))%N.

(** [str.isspace] on one code point; also the class [\s] of [re]. *)
Definition isspace (c : ascii) : bool :=
  between 9 13 c || between 28 32 c || (code c =? 133)%N || (code c =? 160)%N.

(** [str.isalnum] on one code point below 256. *)
Definition isalnum (c : ascii) : bool :=
  between 48 57 c || between 65 90 c || between 97 122 c
  || (code c =? 170)%N || between 178 179 c || (code c =? 181)%N
  || between 185 186 c || between 188 190 c
  || between 192 214 c || between 216 246 c || between 248 255 c.

(** The class [\w] of [re]: alphanumeric or underscore. *)
Definition isword (c : ascii) : bool := isalnum c || (code c =? 95)%N.

Definition is_empty (s : string) : bool :=
  match s with EmptyString => true | String _ _ => false end.

(** Truthiness of a [str]: non-empty. *)
Definition truthy (s : string) : bool := negb (is_empty s).

Fixpoint lstrip (s : string) : string :=
  match s with
  | EmptyString => EmptyString
  | String c s' => if isspace c then lstrip s' else s
  end.

Fixpoint rstrip (s : string) : string :=
  match s with
  | EmptyString => EmptyString
  | String c s' =>
      let r := rstrip s' in
      if isspace c && is_empty r then EmptyString else String c r
  end.

(** [s.strip()]. *)
Definition strip (s : string) : string := lstrip (rstrip s).

(** [s.split()]: the maximal runs of non-whitespace, left to right.
    [cur] is the word being read, in reverse. *)
Fixpoint split_aux (cur : list ascii) (s : string) : list string :=
  match s with
  | EmptyString =>
      match cur with
      | [] => []
      | _ => [string_of_list_ascii (rev cur)]
      end
  | String c s' =>
      if isspace c then
        match cur with
        | [] => split_aux [] s'
        | _ => string_of_list_ascii (rev cur) :: split_aux [] s'
        end
      else split_aux (c :: cur) s'
  end.

Definition split (s : string) : list string := split_aux [] s.

(** [re.sub(r'[^...]', '', s)] for a character class given by [keep]:
    every character outside the class is deleted. *)
Fixpoint re_sub_delete (keep : ascii -> bool) (s : string) : string :=
  match s with
  | EmptyString => EmptyString
  | String c s' =>
      if keep c then String c (re_sub_delete keep s') else re_sub_delete keep s'
  end.

(** [s.replace(old, new)] for one-character [old] and [new]. *)
Fixpoint replace (old new : ascii) (s : string) : string :=
  match s with
  | EmptyString => EmptyString
  | String c s' =>
      String (if Ascii.eqb c old then new else c) (replace old new s')
  end.

(** Decimal digits of a natural number, most significant first. *)
Definition digit (n : nat) : ascii := ascii_of_nat (48 + n mod 10).

Fixpoint digits_fuel (fuel n : nat) (acc : string) : string :=
  match fuel with
  | O => acc
  | S fuel' =>
      let acc' := String (digit n) acc in
      if (n <? 10)%nat then acc' else digits_fuel fuel' (n / 10) acc'
  end.

Definition str_of_nat (n : nat) : string := digits_fuel (S n) n EmptyString.

Fixpoint zeros (k : nat) : string :=
  match k with O => EmptyString | S k' => String "0" (zeros k') end.

(** [f"{i:04d}"]: zero padding to width four, never truncating. *)
Definition format_04d (i : nat) : string :=
  let d := str_of_nat i in zeros (4 - String.length d) +:+ d.

End PyStr.

(* ===================================================================== *)
(** ** Numbers *)
(* ===================================================================== *)

Module PyNum.

Local Open Scope Q_scope.

(** [a < b] on numbers. *)
Definition ltb (a b : Q) : bool := negb (Qle_bool b a).

(** Python's [max(a, b)] on two arguments: the first one unless the
    second is strictly larger. *)
Definition max (a b : Q) : Q := if ltb a b then b else a.

End PyNum.

(* ===================================================================== *)
(** ** Exceptions and the state-and-exception monad *)
(* ===================================================================== *)

Inductive exn : Type :=
| FileNotFoundError (path : string)
| CouldntDecodeError (path : string)
| RuntimeError (msg : string)
| ValueError (msg : string)
| OtherError (msg : string).

(** A computation over a mutable state [S] that returns an [A] or raises.
    The state reached when an exception is raised is kept: assignments made
    in a [try] body before the [raise] stay visible in the handler. *)
Definition SE (S A : Type) : Type := S -> S * (exn + A).

Module SEMonad.
Section WithState.
Context {S : Type}.

Definition ret {A} (a : A) : SE S A := fun s => (s, inr a).

Definition bind {A B} (f : A -> SE S B) (m : SE S A) : SE S B :=
  fun s =>
    match m s with
    | (s', inr a) => f a s'
    | (s', inl e) => (s', inl e)
    end.

Definition raise {A} (e : exn) : SE S A := fun s => (s, inl e).

Definition get : SE S S := fun s => (s, inr s).

Definition modify (f : S -> S) : SE S unit := fun s => (f s, inr tt).

(** [try: body  except Exception as e: handler e]. *)
Definition try_except {A} (body : SE S A) (handler : exn -> SE S A) : SE S A :=
  fun s =>
    match body s with
    | (s', inr a) => (s', inr a)
    | (s', inl e) => handler e s'
    end.

(** Lifting of a call that returns or raises without touching the state. *)
Definition lift {A} (r : exn + A) : SE S A := fun s => (s, r).

(** [for x in xs: body x]. *)
Fixpoint for_each {A} (body : A -> SE S unit) (xs : list A) : SE S unit :=
  match xs with
  | [] => ret tt
  | x :: xs' => bind (fun _ => for_each body xs') (body x)
  end.

(** [for i, x in enumerate(xs): body i x], counting from [i]. *)
Fixpoint for_enumerate {A} (body : nat -> A -> SE S unit) (i : nat) (xs : list A)
  : SE S unit :=
  match xs with
  | [] => ret tt
  | x :: xs' => bind (fun _ => for_enumerate body (Datatypes.S i) xs') (body i x)
  end.

End WithState.
End SEMonad.

#[export] Instance SE_ret {S} : MRet (SE S) := @SEMonad.ret S.
#[export] Instance SE_bind {S} : MBind (SE S) := @SEMonad.bind S.

(* ===================================================================== *)
(** ** Audio assets (pydub) *)
(* ===================================================================== *)

Module Audio.

Local Open Scope Q_scope.

(** What an asset is made of: silence generated by the tool, or sound
    decoded from a file.  Durations are in milliseconds. *)
Inductive piece : Type :=
| Silence (ms : Q)
| Sound (label : string) (ms : Q).

Definition AudioSegment : Type := list piece.

(** [AudioSegment.empty()]. *)
Definition empty : AudioSegment := [].

(** [AudioSegment.silent(duration=d)]. *)
Definition silent (duration : Q) : AudioSegment :=
  if PyNum.ltb 0 duration then [Silence duration] else [].

Definition piece_ms (p : piece) : Q :=
  match p with Silence ms => ms | Sound _ ms => ms end.

(** [len(audio)], in milliseconds. *)
Definition len (a : AudioSegment) : Q :=
  foldr (fun p acc => piece_ms p + acc) 0 a.

Definition is_silence (p : piece) : bool :=
  match p with Silence _ => true | Sound _ _ => false end.

(** Files on disk: decodable audio, or something pydub cannot decode. *)
Inductive file_content : Type :=
| Decodable (a : AudioSegment)
| Garbage.

(** [AudioSegment.from_file(path)]. *)
Definition from_file (fs : gmap string file_content) (path : string)
  : exn + AudioSegment :=
  match fs !! path with
  | None => inl (FileNotFoundError path)
  | Some Garbage => inl (CouldntDecodeError path)
  | Some (Decodable a) => inr a
  end.

End Audio.

(* ===================================================================== *)
(** ** [AudioMixer.mix]  (src/src/audio_mixer.py) *)
(* ===================================================================== *)

Module AudioMixer.

Import Audio.
Local Open Scope Q_scope.
Local Open Scope list_scope.

(** A segment as the mixer reads it: a dict queried with [.get], so each
    of the three keys may be absent. *)
Record Segment : Type := mkSegment {
  audio_file : option string;
  start : option Q;
  end_ : option Q
}.

(** The two locals the loop assigns. *)
Record MixState : Type := mkMixState {
  combined : AudioSegment;
  last_end_time : Q
}.

Definition add_combined (a : AudioSegment) (st : MixState) : MixState :=
  {| combined := combined st ++ a; last_end_time := last_end_time st |}.

Definition set_last_end_time (t : Q) (st : MixState) : MixState :=
  {| combined := combined st; last_end_time := t |}.

(** The body of the [try] of one iteration. *)
Definition mix_body (fs : gmap string file_content) (maintain_timing : bool)
    (segment : Segment) : SE MixState unit :=
  match audio_file segment with
  | None => mret tt
  | Some path =>
      if PyStr.is_empty path then mret tt
      else
        audio ← SEMonad.lift (from_file fs path);
        (if maintain_timing then
           st ← SEMonad.get;
           let start_time := default (last_end_time st) (start segment) in
           let silence_duration :=
             PyNum.max 0 ((start_time - last_end_time st) * 1000) in
           (if PyNum.ltb 0 silence_duration
            then SEMonad.modify (add_combined (silent silence_duration))
            else mret tt);;
           SEMonad.modify
             (set_last_end_time
                (default (start_time + len audio / 1000) (end_ segment)))
         else mret tt);;
        SEMonad.modify (add_combined audio)
  end.

(** One iteration: the body under [except Exception], whose handler only
    logs. *)
Definition mix_iter (fs : gmap string file_content) (maintain_timing : bool)
    (segment : Segment) : SE MixState unit :=
  SEMonad.try_except (mix_body fs maintain_timing segment) (fun _ => mret tt).

Definition mix_loop (fs : gmap string file_content) (maintain_timing : bool)
    (segments : list Segment) : SE MixState unit :=
  SEMonad.for_each (mix_iter fs maintain_timing) segments.

Definition init : MixState :=
  {| combined := silent 0; last_end_time := 0 |}.

(** What [combined.export] writes, and where. *)
Record Exported : Type := mkExported {
  output_file : string;
  audio : AudioSegment
}.

(** [mix(segments, output_path, maintain_timing)]: returns the output
    path; the exported asset is kept beside it. *)
Definition mix (fs : gmap string file_content) (segments : list Segment)
    (output_path : string) (maintain_timing : bool) : exn + Exported :=
  match mix_loop fs maintain_timing segments init with
  | (st, inr _) => inr {| output_file := output_path; audio := combined st |}
  | (_, inl e) => inl e
  end.

(** The call without the keyword argument: [maintain_timing=True]. *)
Definition mix_default (fs : gmap string file_content) (segments : list Segment)
    (output_path : string) : exn + Exported :=
  mix fs segments output_path true.

End AudioMixer.

(* ===================================================================== *)
(** ** Output names  (enhanced_speech_tool.py:106, speech_clarity_enhancer_local.py:278) *)
(* ===================================================================== *)

Module OutputName.

(** The class [[\w\s-]] of the pattern [r'[^\w\s-]']. *)
Definition keep (c : ascii) : bool :=
  PyStr.isword c || PyStr.isspace c || Ascii.eqb c "-".

(** [re.sub(r'[^\w\s-]', '', title).strip().replace(' ', '_')]. *)
Definition safe_title (title : string) : string :=
  PyStr.replace " " "_" (PyStr.strip (PyStr.re_sub_delete keep title)).

(** [os.path.join(directory, name)] and [directory / name]. *)
Definition path_join (directory name : string) : string :=
  directory +:+ "/" +:+ name.

End OutputName.

(* ===================================================================== *)
(** ** [combine_audio]  (src/speech_clarity_enhancer_local.py) *)
(* ===================================================================== *)

Module SpeechClarityEnhancer.

Import Audio.
Local Open Scope Q_scope.
Local Open Scope list_scope.

(** An entry of [synthesized_files], as [synthesize_speech] builds it;
    the keys are read with [segment[...]]. *)
Record Synthesized : Type := mkSynthesized {
  file : string;
  text : string;
  start : Q;
  end_ : Q
}.

Record CombineState : Type := mkCombineState {
  combined : AudioSegment;
  last_end : Q
}.

Definition add_combined (a : AudioSegment) (st : CombineState) : CombineState :=
  {| combined := combined st ++ a; last_end := last_end st |}.

Definition set_last_end (t : Q) (st : CombineState) : CombineState :=
  {| combined := combined st; last_end := t |}.

Definition combine_body (fs : gmap string file_content) (segment : Synthesized)
  : SE CombineState unit :=
  audio ← SEMonad.lift (from_file fs (file segment));
  st ← SEMonad.get;
  let start_time := start segment in
  let silence_duration := PyNum.max 0 ((start_time - last_end st) * 1000) in
  (if PyNum.ltb 0 silence_duration
   then SEMonad.modify (add_combined (silent silence_duration))
   else mret tt);;
  SEMonad.modify (add_combined audio);;
  SEMonad.modify (set_last_end (end_ segment)).

Definition combine_iter (fs : gmap string file_content) (segment : Synthesized)
  : SE CombineState unit :=
  SEMonad.try_except (combine_body fs segment) (fun _ => mret tt).

Definition combine_loop (fs : gmap string file_content)
    (synthesized_files : list Synthesized) : SE CombineState unit :=
  SEMonad.for_each (combine_iter fs) synthesized_files.

Definition init : CombineState := {| combined := empty; last_end := 0 |}.

(** [combine_audio(synthesized_files, output_name)] for an enhancer
    writing to [output_dir]: the output file and the exported asset. *)
Definition combine_audio (output_dir : string) (fs : gmap string file_content)
    (synthesized_files : list Synthesized) (output_name : string)
  : exn + (string * AudioSegment) :=
  match combine_loop fs synthesized_files init with
  | (st, inr _) =>
      let safe_name := OutputName.safe_title output_name in
      let output_file :=
        OutputName.path_join output_dir (safe_name +:+ "_enhanced.mp3") in
      inr (output_file, combined st)
  | (_, inl e) => inl e
  end.

End SpeechClarityEnhancer.

(* ===================================================================== *)
(** ** Transcript segments *)
(* ===================================================================== *)

Module Transcript.

(** A segment of a transcription: the keys ["text"], ["start"], ["end"]
    that the pipeline reads. *)
Record Segment : Type := mkSegment {
  text : string;
  start : Q;
  end_ : Q
}.

(** A transcription result; ["segments"] is read with [.get]. *)
Record Transcription : Type := mkTranscription {
  full_text : string;
  segments : option (list Segment)
}.

End Transcript.

(* ===================================================================== *)
(** ** [TextProcessor.process]  (src/src/text_processor.py) *)
(* ===================================================================== *)

Module TextProcessor.

Import Transcript.
Local Open Scope list_scope.

(** The constructor's two flags. *)
Record t : Type := mkTextProcessor {
  remove_disfluencies : bool;
  simplify_language : bool
}.

(** What the method logs and what it returns. *)
Record Outcome : Type := mkOutcome {
  processed_segments : list Segment;
  original_word_count : Z;
  processed_word_count : Z;
  reduction_percent : Q
}.

(** [sum(len(s["text"].split()) for s in segs)]. *)
Definition word_count (segs : list Segment) : Z :=
  foldr (fun s acc => (Z.of_nat (length (PyStr.split (text s))) + acc)%Z) 0%Z segs.

Section WithCleaners.

(** The two text-to-text methods [_remove_disfluencies] and
    [_simplify_language]: the text cleaner applied to each segment. *)
Variable _remove_disfluencies : string -> string.
Variable _simplify_language : string -> string.

(** The text one iteration ends up with. *)
Definition clean_text (self : t) (text0 : string) : string :=
  let processed_text := text0 in
  let processed_text :=
    if remove_disfluencies self then _remove_disfluencies processed_text
    else processed_text in
  let processed_text :=
    if simplify_language self then _simplify_language processed_text
    else processed_text in
  processed_text.

(** One iteration of the loop over [segments]. *)
Definition process_iter (self : t) (processed : list Segment) (segment : Segment)
  : list Segment :=
  let processed_text := clean_text self (text segment) in
  if PyStr.truthy (PyStr.strip processed_text)
  then processed ++ [ {| text := processed_text;
                         start := start segment;
                         end_ := end_ segment |} ]
  else processed.

Definition process (self : t) (transcription : Transcription) : Outcome :=
  let segs := default [] (segments transcription) in
  let processed := foldl (process_iter self) [] segs in
  let original := word_count segs in
  let result := word_count processed in
  {| processed_segments := processed;
     original_word_count := original;
     processed_word_count := result;
     reduction_percent :=
       if (0 <? original)%Z
       then (inject_Z (100 * (original - result)) / inject_Z original)%Q
       else 0%Q |}.

End WithCleaners.

End TextProcessor.

(* ===================================================================== *)
(** ** [PiperTTSSynthesizer.synthesize]  (src/src/speech_synthesizer.py) *)
(* ===================================================================== *)

Module SpeechSynthesizer.

Local Open Scope list_scope.

(** An entry of the result: the stripped text, the timing of the segment
    it came from, and the file holding its audio. *)
Record Synthesized : Type := mkSynthesized {
  text : string;
  start : Q;
  end_ : Q;
  audio_file : string
}.

(** [Path(p).name]: what follows the last ["/"]. *)
Fixpoint name_of (p : string) : string :=
  match p with
  | EmptyString => EmptyString
  | String c p' => if Ascii.eqb c "/" then name_of p'
                   else if existsb (Ascii.eqb "/") (list_ascii_of_string p')
                        then name_of p' else p
  end.

Section WithPiper.

(** [_synthesize_text(text, output_file)]: the call to the external
    synthesizer, which returns or raises. *)
Variable _synthesize_text : string -> string -> exn + unit.
(** The directory made by [tempfile.TemporaryDirectory()] and the one
    given by [tempfile.gettempdir()]. *)
Variable temp_dir : string.
Variable gettempdir : string.

Definition output_file_of (i : nat) : string :=
  OutputName.path_join temp_dir ("segment_" +:+ PyStr.format_04d i +:+ ".wav").

(** The body of the first loop; the state is [synthesized_segments]. *)
Definition synthesize_iter (i : nat) (segment : Transcript.Segment)
  : SE (list Synthesized) unit :=
  let text0 := PyStr.strip (Transcript.text segment) in
  let start_time := Transcript.start segment in
  let end_time := Transcript.end_ segment in
  if negb (PyStr.truthy text0) then mret tt
  else
    let output_file := output_file_of i in
    SEMonad.try_except
      (SEMonad.lift (_synthesize_text text0 output_file);;
       SEMonad.modify (fun synthesized_segments =>
         synthesized_segments ++
           [ {| text := text0; start := start_time; end_ := end_time;
                audio_file := output_file |} ]))
      (fun _ => mret tt).

(** The second loop: each file is copied out of the temporary
    directory and the copy of the entry points at the new place. *)
Definition relocate (segment : Synthesized) : Synthesized :=
  let source_file := audio_file segment in
  let target_file := OutputName.path_join gettempdir (name_of source_file) in
  {| text := text segment; start := start segment; end_ := end_ segment;
     audio_file := target_file |}.

Definition synthesize (segments : list Transcript.Segment)
  : exn + list Synthesized :=
  match SEMonad.for_enumerate synthesize_iter 0 segments [] with
  | (synthesized_segments, inr _) => inr (map relocate synthesized_segments)
  | (_, inl e) => inl e
  end.

End WithPiper.

(** The entry as the mixer's [.get] calls see it: all keys present. *)
Definition to_mixer (s : Synthesized) : AudioMixer.Segment :=
  {| AudioMixer.audio_file := Some (audio_file s);
     AudioMixer.start := Some (start s);
     AudioMixer.end_ := Some (end_ s) |}.

End SpeechSynthesizer.

(* ===================================================================== *)
(** ** [EnhancedSpeechTool.process]  (src/enhanced_speech_tool.py) *)
(* ===================================================================== *)

Module EnhancedSpeechTool.

Local Open Scope list_scope.

(** Where the run writes: its scratch directory or the output directory. *)
Inductive location : Type := TempDir | OutputDir.

(** The files written so far, oldest first, by file name. *)
Abbreviation World := (list (location * string)).

Definition is_output (w : location * string) : bool :=
  match fst w with OutputDir => true | TempDir => false end.

(** The artifacts persisted in the output directory. *)
Definition artifacts (w : World) : list string :=
  map snd (base.filter (fun x => is_output x = true) w).

Definition write (loc : location) (name : string) : SE World unit :=
  SEMonad.modify (fun w => w ++ [(loc, name)]).

(** The five stages, in pipeline order. *)
Inductive stage : Type :=
| Extraction | Transcription | Cleaning | Synthesis | Mixing.

(** How a call of the mixer ends.  It returns the path, its export having
    written the output file; or it raises, and then the file may be there
    already: [export] is the last statement of [mix] and stands outside
    any [try], so an export that fails leaves behind the file it had
    opened. *)
Inductive mix_outcome : Type :=
| Mixed (output_file : string)
| MixRaised (e : exn) (file_created : bool).

(** The components the tool is built from.  Each call returns or raises;
    the mixer is the one that writes into the output directory. *)
Record Components : Type := mkComponents {
  extractor_extract : string -> string -> exn + (string * string);
  transcriber_transcribe : string -> exn + Transcript.Transcription;
  text_processor_process :
    Transcript.Transcription -> exn + list Transcript.Segment;
  synthesizer_synthesize :
    list Transcript.Segment -> exn + list SpeechSynthesizer.Synthesized;
  mixer_mix : list SpeechSynthesizer.Synthesized -> string -> mix_outcome
}.

(** The call [self.mixer.mix(synthesized_segments, output_path)] seen from
    [process]: what it leaves in the output directory, and how it ends. *)
Definition call_mixer (outcome : mix_outcome) (output_path : string)
  : SE World unit :=
  match outcome with
  | Mixed _ => write OutputDir output_path
  | MixRaised e file_created =>
      (if file_created then write OutputDir output_path else mret tt);;
      SEMonad.raise e
  end.

Section WithComponents.

Variable self : Components.

(** The body of the [try] of [process]. *)
Definition process_body (source source_type : string) : SE World string :=
  (* Step 1: extract audio *)
  extracted ← SEMonad.lift (extractor_extract self source source_type);
  let audio_path := fst extracted in
  let title := snd extracted in
  (* Step 2: transcribe, and save the raw transcription *)
  transcription ← SEMonad.lift (transcriber_transcribe self audio_path);
  write TempDir "raw_transcript.json";;
  (* Step 3: process the transcription, and save it *)
  processed_segments ← SEMonad.lift (text_processor_process self transcription);
  write TempDir "processed_transcript.json";;
  (* Step 4: synthesize speech *)
  synthesized_segments ←
    SEMonad.lift (synthesizer_synthesize self processed_segments);
  (* Step 5: mix *)
  let safe_title := OutputName.safe_title title in
  let output_path := safe_title +:+ "_enhanced.mp3" in
  call_mixer (mixer_mix self synthesized_segments output_path) output_path;;
  (* the text version of the transcript *)
  let text_transcript_path := safe_title +:+ "_transcript.txt" in
  write OutputDir text_transcript_path;;
  mret output_path.

(** [process(source, source_type)]: the handler logs and re-raises the
    exception it caught. *)
Definition process (source source_type : string) : SE World string :=
  SEMonad.try_except (process_body source source_type)
    (fun e => SEMonad.raise e).

(** The run in which [s] is the first stage to raise, and raises [e]. *)
Definition fails_at (source source_type : string) (s : stage) (e : exn) : Prop :=
  match s with
  | Extraction => extractor_extract self source source_type = inl e
  | Transcription =>
      exists audio_path title,
        extractor_extract self source source_type = inr (audio_path, title)
        /\ transcriber_transcribe self audio_path = inl e
  | Cleaning =>
      exists audio_path title transcription,
        extractor_extract self source source_type = inr (audio_path, title)
        /\ transcriber_transcribe self audio_path = inr transcription
        /\ text_processor_process self transcription = inl e
  | Synthesis =>
      exists audio_path title transcription processed,
        extractor_extract self source source_type = inr (audio_path, title)
        /\ transcriber_transcribe self audio_path = inr transcription
        /\ text_processor_process self transcription = inr processed
        /\ synthesizer_synthesize self processed = inl e
  | Mixing =>
      exists audio_path title transcription processed synthesized,
        extractor_extract self source source_type = inr (audio_path, title)
        /\ transcriber_transcribe self audio_path = inr transcription
        /\ text_processor_process self transcription = inr processed
        /\ synthesizer_synthesize self processed = inr synthesized
        /\ exists file_created,
             mixer_mix self synthesized
               (OutputName.safe_title title +:+ "_enhanced.mp3")
             = MixRaised e file_created
  end.

End WithComponents.

End EnhancedSpeechTool.

(* ===================================================================== *)
(** ** The specification's reference definitions *)
(* ===================================================================== *)

Module Reference.

Import Audio.
Local Open Scope Q_scope.
Local Open Scope list_scope.

(** A synthesized segment of the specification: an audio asset with the
    start and end of the segment it came from. *)
Record SynthesizedSegment : Type := mkSynthesizedSegment {
  audio : AudioSegment;
  start : Q;
  end_ : Q
}.

(** [silence(duration = gap)], the gap being in seconds. *)
Definition silence (gap : Q) : AudioSegment := silent (gap * 1000).

(** The assembly loop of the specification, from a given [combined] and
    [last_end_time]. *)
Fixpoint assemble_from (combined : AudioSegment) (last_end_time : Q)
    (segments : list SynthesizedSegment) : AudioSegment * Q :=
  match segments with
  | [] => (combined, last_end_time)
  | segment :: rest =>
      let gap := start segment - last_end_time in
      let combined1 :=
        if PyNum.ltb 0 gap then combined ++ silence gap else combined in
      let combined2 := combined1 ++ audio segment in
      assemble_from combined2 (end_ segment) rest
  end.

Definition assemble (segments : list SynthesizedSegment) : AudioSegment :=
  fst (assemble_from [] 0 segments).

(** The title sanitization as the specification words it: delete what is
    not alphanumeric, whitespace or hyphen; strip; replace each run of
    whitespace by one underscore. *)
Definition keep (c : ascii) : bool :=
  PyStr.isalnum c || PyStr.isspace c || Ascii.eqb c "-".

Fixpoint collapse_runs (in_run : bool) (s : string) : string :=
  match s with
  | EmptyString => EmptyString
  | String c s' =>
      if PyStr.isspace c
      then if in_run then collapse_runs true s'
           else String "_" (collapse_runs true s')
      else String c (collapse_runs false s')
  end.

Definition sanitize (title : string) : string :=
  collapse_runs false (PyStr.strip (PyStr.re_sub_delete keep title)).

(** Whitespace trimmed from both ends of a list of characters. *)
Fixpoint drop_while (p : ascii -> bool) (l : list ascii) : list ascii :=
  match l with
  | [] => []
  | c :: l' => if p c then drop_while p l' else l
  end.

Definition trim (l : list ascii) : list ascii :=
  drop_while PyStr.isspace (rev (drop_while PyStr.isspace (rev l))).

Definition space_to_underscore (c : ascii) : ascii :=
  if Ascii.eqb c " " then "_"%char else c.

(** The segment cleaner as the specification words it, for a text
    cleaner [cleaner].  A text is empty after stripping whitespace when it
    holds nothing but whitespace. *)
Definition blank (text : string) : bool :=
  forallb PyStr.isspace (list_ascii_of_string text).

Fixpoint clean (cleaner : string -> string) (segments : list Transcript.Segment)
  : list Transcript.Segment :=
  match segments with
  | [] => []
  | segment :: rest =>
      let cleaned_text := cleaner (Transcript.text segment) in
      if blank cleaned_text
      then clean cleaner rest
      else {| Transcript.text := cleaned_text;
              Transcript.start := Transcript.start segment;
              Transcript.end_ := Transcript.end_ segment |}
           :: clean cleaner rest
  end.

(** The words of a text: its maximal runs of characters that are not
    whitespace.  [in_word] tells whether the character before the list
    belongs to a word. *)
Fixpoint count_words_from (in_word : bool) (l : list ascii) : Z :=
  match l with
  | [] => 0%Z
  | c :: l' =>
      if PyStr.isspace c then count_words_from false l'
      else ((if in_word then 0 else 1) + count_words_from true l')%Z
  end.

Definition count_words (text : string) : Z :=
  count_words_from false (list_ascii_of_string text).

Fixpoint total_words (segments : list Transcript.Segment) : Z :=
  match segments with
  | [] => 0%Z
  | segment :: rest =>
      (count_words (Transcript.text segment) + total_words rest)%Z
  end.

(** [100 * (original - result) / original], and [0] when the original
    count is 0. *)
Definition reduction (original result : Z) : Q :=
  if (original =? 0)%Z then 0
  else 100 * (inject_Z original - inject_Z result) / inject_Z original.

End Reference.

(* ===================================================================== *)
(** ** Auxiliary definitions used in the statements *)
(* ===================================================================== *)

Module Statements.

Import Audio.
Local Open Scope Q_scope.
Local Open Scope list_scope.

(** The state the mixer's loop reaches from [st] over [segments]. *)
Definition mix_run (fs : gmap string file_content) (maintain_timing : bool)
    (segments : list AudioMixer.Segment) (st : AudioMixer.MixState)
  : AudioMixer.MixState :=
  fst (AudioMixer.mix_loop fs maintain_timing segments st).

(** The mixer's segment carries the asset and the times of [r]. *)
Definition carries (fs : gmap string file_content)
    (segment : AudioMixer.Segment) (r : Reference.SynthesizedSegment) : Prop :=
  exists path,
    AudioMixer.audio_file segment = Some path
    /\ PyStr.is_empty path = false
    /\ from_file fs path = inr (Reference.audio r)
    /\ AudioMixer.start segment = Some (Reference.start r)
    /\ AudioMixer.end_ segment = Some (Reference.end_ r).

(** The same for an entry of [combine_audio]'s input. *)
Definition carries_file (fs : gmap string file_content)
    (segment : SpeechClarityEnhancer.Synthesized)
    (r : Reference.SynthesizedSegment) : Prop :=
  from_file fs (SpeechClarityEnhancer.file segment) = inr (Reference.audio r)
  /\ SpeechClarityEnhancer.start segment = Reference.start r
  /\ SpeechClarityEnhancer.end_ segment = Reference.end_ r.

(** The segment names no audio file, or its file does not load. *)
Definition unloadable (fs : gmap string file_content)
    (segment : AudioMixer.Segment) : Prop :=
  match AudioMixer.audio_file segment with
  | None => True
  | Some path =>
      PyStr.is_empty path = true \/ exists e, from_file fs path = inl e
  end.

(** The audio a segment contributes: what its file decodes to, nothing
    when it has no file or the file does not load. *)
Definition loaded (fs : gmap string file_content)
    (segment : AudioMixer.Segment) : AudioSegment :=
  match AudioMixer.audio_file segment with
  | None => []
  | Some path =>
      if PyStr.is_empty path then []
      else match from_file fs path with
           | inr a => a
           | inl _ => []
           end
  end.

(** A segment with the same audio file and other timestamps. *)
Definition retime (f : AudioMixer.Segment -> option Q * option Q)
    (segment : AudioMixer.Segment) : AudioMixer.Segment :=
  {| AudioMixer.audio_file := AudioMixer.audio_file segment;
     AudioMixer.start := fst (f segment);
     AudioMixer.end_ := snd (f segment) |}.

(** [enumerate(xs)], counting from [i]. *)
Fixpoint enumerate_from {A} (i : nat) (xs : list A) : list (nat * A) :=
  match xs with
  | [] => []
  | x :: xs' => (i, x) :: enumerate_from (S i) xs'
  end.

Definition is_inr {A B} (r : A + B) : bool :=
  match r with inr _ => true | inl _ => false end.

(** Scenario A: two synthesized files of two seconds and one second, for
    segments at 0..2 and 3..4. *)
Definition scenario_fs : gmap string file_content :=
  <["segment_0000.wav" := Decodable [Sound "hello" 2000]]>
    (<["segment_0001.wav" := Decodable [Sound "world" 1000]]> ∅).

Definition scenario_segments : list AudioMixer.Segment :=
  [ AudioMixer.mkSegment (Some "segment_0000.wav") (Some 0) (Some 2);
    AudioMixer.mkSegment (Some "segment_0001.wav") (Some 3) (Some 4) ].

Definition scenario_files : list SpeechClarityEnhancer.Synthesized :=
  [ SpeechClarityEnhancer.mkSynthesized "segment_0000.wav" "hello" 0 2;
    SpeechClarityEnhancer.mkSynthesized "segment_0001.wav" "world" 3 4 ].

Definition scenario_reference : list Reference.SynthesizedSegment :=
  [ Reference.mkSynthesizedSegment [Sound "hello" 2000] 0 2;
    Reference.mkSynthesizedSegment [Sound "world" 1000] 3 4 ].

(** A tool assembled from the components above, around an extractor and
    a transcriber that return or raise as given. *)
Definition assembled_tool (extracted : exn + (string * string))
    (transcribed : exn + Transcript.Transcription)
    (piper : string -> string -> exn + unit)
    (fs : gmap string file_content) : EnhancedSpeechTool.Components :=
  {| EnhancedSpeechTool.extractor_extract := fun _ _ => extracted;
     EnhancedSpeechTool.transcriber_transcribe := fun _ => transcribed;
     EnhancedSpeechTool.text_processor_process := fun transcription =>
       inr (TextProcessor.processed_segments
              (TextProcessor.process (fun x => x) (fun x => x)
                 {| TextProcessor.remove_disfluencies := true;
                    TextProcessor.simplify_language := false |}
                 transcription));
     EnhancedSpeechTool.synthesizer_synthesize :=
       SpeechSynthesizer.synthesize piper "/tmp/tmpdir" "/tmp";
     EnhancedSpeechTool.mixer_mix := fun synthesized output_path =>
       match AudioMixer.mix fs (map SpeechSynthesizer.to_mixer synthesized)
               output_path true with
       | inr exported =>
           EnhancedSpeechTool.Mixed (AudioMixer.output_file exported)
       | inl e => EnhancedSpeechTool.MixRaised e false
       end |}.

(** What a run in which the mixer raises leaves in the output directory:
    the file of the export if it was created, and nothing else. *)
Definition left_by_mixer (self : EnhancedSpeechTool.Components)
    (source source_type : string) : list string :=
  match EnhancedSpeechTool.extractor_extract self source source_type with
  | inr (audio_path, title) =>
      match EnhancedSpeechTool.transcriber_transcribe self audio_path with
      | inr transcription =>
          match EnhancedSpeechTool.text_processor_process self transcription with
          | inr processed =>
              match EnhancedSpeechTool.synthesizer_synthesize self processed with
              | inr synthesized =>
                  let output_path :=
                    OutputName.safe_title title +:+ "_enhanced.mp3" in
                  match EnhancedSpeechTool.mixer_mix self synthesized output_path with
                  | EnhancedSpeechTool.MixRaised _ true => [output_path]
                  | _ => []
                  end
              | inl _ => []
              end
          | inl _ => []
          end
      | inl _ => []
      end
  | inl _ => []
  end.

(** One whose extractor raises, and one whose transcriber raises the same
    exception after a successful extraction. *)
Definition tool_failing_extraction : EnhancedSpeechTool.Components :=
  assembled_tool (inl (RuntimeError "failed"))
    (inr {| Transcript.full_text := ""; Transcript.segments := Some [] |})
    (fun _ _ => inr tt) ∅.

Definition tool_failing_transcription : EnhancedSpeechTool.Components :=
  assembled_tool (inr ("audio.mp3", "Talk")) (inl (RuntimeError "failed"))
    (fun _ _ => inr tt) ∅.

(** One whose run reaches the mixer, where the export fails after it has
    opened the output file. *)
Definition tool_failing_export : EnhancedSpeechTool.Components :=
  let tool :=
    assembled_tool (inr ("audio.mp3", "My talk!"))
      (inr {| Transcript.full_text := "hello";
              Transcript.segments := Some [Transcript.mkSegment "hello" 0 2] |})
      (fun _ _ => inr tt) ∅ in
  {| EnhancedSpeechTool.extractor_extract :=
       EnhancedSpeechTool.extractor_extract tool;
     EnhancedSpeechTool.transcriber_transcribe :=
       EnhancedSpeechTool.transcriber_transcribe tool;
     EnhancedSpeechTool.text_processor_process :=
       EnhancedSpeechTool.text_processor_process tool;
     EnhancedSpeechTool.synthesizer_synthesize :=
       EnhancedSpeechTool.synthesizer_synthesize tool;
     EnhancedSpeechTool.mixer_mix := fun _ _ =>
       EnhancedSpeechTool.MixRaised (RuntimeError "Encoding failed") true |}.

(** A synthesizer that raises on the text [bad], and three segments. *)
Definition piper_failing_on (bad : string) (text output_file : string)
  : exn + unit :=
  if String.eqb text bad then inl (RuntimeError "Speech synthesis failed")
  else inr tt.

Definition three_segments : list Transcript.Segment :=
  [ Transcript.mkSegment "hello" 0 2;
    Transcript.mkSegment " there " 2 3;
    Transcript.mkSegment "world" 5 6 ].

End Statements.

(* ===================================================================== *)
(** ** Further definitions used in the statements *)
(* ===================================================================== *)

Module Timing.

Import Audio.
Local Open Scope Q_scope.
Local Open Scope list_scope.

(** The segments come in chronological order without overlap, starting
    not before [cursor], and each audio lasts as long as its window. *)
Fixpoint well_timed (cursor : Q) (l : list Reference.SynthesizedSegment) : Prop :=
  match l with
  | [] => True
  | r :: rest =>
      cursor <= Reference.start r
      /\ len (Reference.audio r)
         == (Reference.end_ r - Reference.start r) * 1000
      /\ well_timed (Reference.end_ r) rest
  end.

(** An entry of [combine_audio]'s input as the mixer would read it. *)
Definition of_file (s : SpeechClarityEnhancer.Synthesized) : AudioMixer.Segment :=
  {| AudioMixer.audio_file := Some (SpeechClarityEnhancer.file s);
     AudioMixer.start := Some (SpeechClarityEnhancer.start s);
     AudioMixer.end_ := Some (SpeechClarityEnhancer.end_ s) |}.

(** The asset and times an entry of the synthesizer's result stands for. *)
Definition triple_of (fs : gmap string file_content)
    (o : SpeechSynthesizer.Synthesized) : Reference.SynthesizedSegment :=
  {| Reference.audio := Statements.loaded fs (SpeechSynthesizer.to_mixer o);
     Reference.start := SpeechSynthesizer.start o;
     Reference.end_ := SpeechSynthesizer.end_ o |}.

End Timing.

(** Reading decimal numerals. *)
Module Decimal.

Definition digit_value (c : ascii) : nat := nat_of_ascii c - 48.

Fixpoint value_from (acc : nat) (s : string) : nat :=
  match s with
  | EmptyString => acc
  | String c s' => value_from (acc * 10 + digit_value c) s'
  end.

(** [int(s)] for a string of ASCII digits. *)
Definition int (s : string) : nat := value_from 0 s.

Definition is_ascii_digit (c : ascii) : bool := PyStr.between 48 57 c.

End Decimal.

(** The file name the synthesizer gives to the segment at index [i]. *)
Module Naming.

Definition segment_name (i : nat) : string :=
  "segment_" +:+ PyStr.format_04d i +:+ ".wav".

End Naming.

(* ===================================================================== *)
(** ** More of Python's string methods *)
(* ===================================================================== *)

Module PyText.

(** [s.split(sep)] for a one-character [sep]: the pieces between the
    separators, empty ones included; never the empty list. *)
Fixpoint split_on (sep : ascii) (s : string) : list string :=
  match s with
  | EmptyString => [EmptyString]
  | String c s' =>
      if Ascii.eqb c sep then EmptyString :: split_on sep s'
      else match split_on sep s' with
           | piece :: rest => String c piece :: rest
           | [] => [String c EmptyString]
           end
  end.

(** [l[-1]] and [l[0]] for a list of strings that is not empty. *)
Definition last_item (l : list string) : string := List.last l EmptyString.
Definition first_item (l : list string) : string := List.hd EmptyString l.

(** [a or b] on strings. *)
Definition or_else (a b : string) : string := if PyStr.truthy a then a else b.

(** [sep.join(words)]. *)
Fixpoint join (sep : string) (words : list string) : string :=
  match words with
  | [] => EmptyString
  | [w] => w
  | w :: rest => w +:+ sep +:+ join sep rest
  end.

(** [s.startswith(prefix)]. *)
Fixpoint startswith (prefix s : string) : bool :=
  match prefix, s with
  | EmptyString, _ => true
  | String p prefix', String c s' => Ascii.eqb p c && startswith prefix' s'
  | String _ _, EmptyString => false
  end.

(** [s.replace(old, new)] for a non-empty [old]: the occurrences are
    taken from the left and do not overlap.  [skip] counts the characters
    of an occurrence still to be passed over. *)
Fixpoint replace_from (old new : string) (skip : nat) (s : string) : string :=
  match s with
  | EmptyString => EmptyString
  | String c s' =>
      match skip with
      | S k => replace_from old new k s'
      | O =>
          if startswith old s
          then new +:+ replace_from old new (String.length old - 1) s'
          else String c (replace_from old new 0 s')
      end
  end.

Definition replace (old new s : string) : string := replace_from old new 0 s.

End PyText.

(* ===================================================================== *)
(** ** [AudioExtractor]  (src/src/audio_extractor.py) *)
(* ===================================================================== *)

Module AudioExtractor.

(** The file name [_extract_from_url] takes from the URL:
    [audio_url.split("/")[-1].split("?")[0] or "audio_from_url"]. *)
Definition url_file_name (audio_url : string) : string :=
  PyText.or_else
    (PyText.first_item
       (PyText.split_on "?" (PyText.last_item (PyText.split_on "/" audio_url))))
    "audio_from_url".

Section WithTools.

(** The extractor's directory, and the outer world it calls into. *)
Variable temp_dir : string.
(** [yt_dlp]: download, returning the info dict's title if it has one. *)
Variable youtube_dl : string -> string -> exn + option string.
(** [Path.exists], pydub's load-and-export, and [curl]. *)
Variable path_exists : string -> bool.
Variable convert_to_mp3 : string -> string -> exn + unit.
Variable curl : string -> string -> exn + unit.

Definition output_file : string := OutputName.path_join temp_dir "audio.mp3".

(** Dropping a trailing [".mp3"], as [str(output_file).replace(".mp3", "")]
    does to the template handed to the downloader. *)
Definition _extract_from_youtube (youtube_url : string)
  : exn + (string * string) :=
  match youtube_dl youtube_url (PyText.replace ".mp3" "" output_file) with
  | inr title => inr (output_file, default "youtube_video" title)
  | inl e => inl e
  end.

Definition _extract_from_file (file_path : string) : exn + (string * string) :=
  if negb (path_exists file_path)
  then inl (FileNotFoundError file_path)
  else match convert_to_mp3 file_path output_file with
       | inr _ => inr (output_file, SpeechSynthesizer.name_of file_path)
       | inl e => inl e
       end.

Definition _extract_from_url (audio_url : string) : exn + (string * string) :=
  match curl audio_url output_file with
  | inr _ => inr (output_file, url_file_name audio_url)
  | inl e => inl e
  end.

Definition extract (source source_type : string) : exn + (string * string) :=
  if String.eqb source_type "youtube" then _extract_from_youtube source
  else if String.eqb source_type "file" then _extract_from_file source
  else if String.eqb source_type "url" then _extract_from_url source
  else inl (ValueError ("Unsupported source type: " +:+ source_type)).

End WithTools.

End AudioExtractor.

(* ===================================================================== *)
(** ** [synthesize_speech]  (src/speech_clarity_enhancer_local.py) *)
(* ===================================================================== *)

Module LocalSynthesis.

Local Open Scope list_scope.

(** How one [subprocess.run(..., check=True)] ends: it returns, it raises
    [CalledProcessError] (whose [stderr] decodes as UTF-8 or does not), or
    it raises something else. *)
Inductive run_outcome : Type :=
| Completed
| CalledProcessError (stderr_decodes : bool)
| Raised (e : exn).

(** The voice for a voice type. *)
Definition voice_of (voice_type : string) : string :=
  if String.eqb voice_type "american" then "Samantha"
  else if String.eqb voice_type "british" then "Daniel"
  else if String.eqb voice_type "australian" then "Karen"
  else "Alex".

(** The class [[\w\s.,?!-]] of the pattern that cleans the text. *)
Definition say_keep (c : ascii) : bool :=
  PyStr.isword c || PyStr.isspace c
  || Ascii.eqb c "." || Ascii.eqb c "," || Ascii.eqb c "?" || Ascii.eqb c "!"
  || Ascii.eqb c "-".

Section WithSay.

(** [say -v voice -o output_file text]. *)
Variable say : string -> string -> string -> run_outcome.
Variable synth_dir : string.

Definition output_file_of (i : nat) : string :=
  OutputName.path_join synth_dir ("synth_" +:+ PyStr.format_04d i +:+ ".aiff").

Definition cleaned_text (segment : SpeechClarityEnhancer.Synthesized) : string :=
  PyStr.re_sub_delete say_keep (SpeechClarityEnhancer.text segment).

(** The loop over [enumerate(segments)], from index [i], with
    [synthesized_files] so far.  Only [CalledProcessError] is handled; the
    handler decodes the error output in order to print it. *)
Fixpoint synthesize_loop (voice : string) (i : nat)
    (segments : list SpeechClarityEnhancer.Synthesized)
    (synthesized_files : list SpeechClarityEnhancer.Synthesized)
  : exn + list SpeechClarityEnhancer.Synthesized :=
  match segments with
  | [] => inr synthesized_files
  | segment :: rest =>
      let text := cleaned_text segment in
      let output_file := output_file_of i in
      match say voice output_file text with
      | Completed =>
          synthesize_loop voice (S i) rest
            (synthesized_files ++
               [ {| SpeechClarityEnhancer.file := output_file;
                    SpeechClarityEnhancer.text := text;
                    SpeechClarityEnhancer.start :=
                      SpeechClarityEnhancer.start segment;
                    SpeechClarityEnhancer.end_ :=
                      SpeechClarityEnhancer.end_ segment |} ])
      | CalledProcessError true => synthesize_loop voice (S i) rest synthesized_files
      | CalledProcessError false => inl (ValueError "UnicodeDecodeError")
      | Raised e => inl e
      end
  end.

Definition synthesize_speech (segments : list SpeechClarityEnhancer.Synthesized)
    (voice_type : string) : exn + list SpeechClarityEnhancer.Synthesized :=
  synthesize_loop (voice_of voice_type) 0 segments [].

(** The outcome of the call made for the segment at index [i]. *)
Definition call (voice_type : string) (i : nat)
    (segment : SpeechClarityEnhancer.Synthesized) : run_outcome :=
  say (voice_of voice_type) (output_file_of i) (cleaned_text segment).

(** An outcome the loop survives. *)
Definition survivable (o : run_outcome) : bool :=
  match o with
  | Completed | CalledProcessError true => true
  | _ => false
  end.

Definition completed (o : run_outcome) : bool :=
  match o with Completed => true | _ => false end.

(** The entry appended for the segment at index [i]. *)
Definition entry (p : nat * SpeechClarityEnhancer.Synthesized)
  : SpeechClarityEnhancer.Synthesized :=
  {| SpeechClarityEnhancer.file := output_file_of (fst p);
     SpeechClarityEnhancer.text := cleaned_text (snd p);
     SpeechClarityEnhancer.start := SpeechClarityEnhancer.start (snd p);
     SpeechClarityEnhancer.end_ := SpeechClarityEnhancer.end_ (snd p) |}.

End WithSay.

End LocalSynthesis.

(* ===================================================================== *)
(** ** [TextProcessor._capitalize_sentences]  (src/src/text_processor.py) *)
(* ===================================================================== *)

Module Sentences.

Local Open Scope list_scope.

(** The class [[.!?]]. *)
Definition is_mark (c : ascii) : bool :=
  Ascii.eqb c "." || Ascii.eqb c "!" || Ascii.eqb c "?".

Definition head_is_space (s : string) : bool :=
  match s with
  | EmptyString => false
  | String c _ => PyStr.isspace c
  end.

(** [re.split(r'([.!?])\s+', s)]: the text between the matches and, for
    each match, the mark it captured; the whitespace of a match belongs to
    neither.  [skipping] is set while the whitespace of a match is being
    passed over. *)
Fixpoint re_split (skipping : bool) (s : string) : list string :=
  match s with
  | EmptyString => [EmptyString]
  | String c s' =>
      if skipping && PyStr.isspace c then re_split true s'
      else if is_mark c && head_is_space s'
      then EmptyString :: String c EmptyString :: re_split true s'
      else match re_split false s' with
           | piece :: rest => String c piece :: rest
           | [] => [String c EmptyString]
           end
  end.

Section WithUpper.

(** [str.upper] on one character. *)
Variable upper : ascii -> string.

(** [sentence[0].upper() + sentence[1:]], for a sentence that is not
    empty; an empty one is left alone. *)
Definition capitalize (sentence : string) : string :=
  match sentence with
  | EmptyString => EmptyString
  | String c rest => upper c +:+ rest
  end.

(** The loop over [range(0, len(sentences), 2)]. *)
Fixpoint capitalize_even (even : bool) (sentences : list string) : list string :=
  match sentences with
  | [] => []
  | s :: rest =>
      (if even then capitalize s else s) :: capitalize_even (negb even) rest
  end.

Definition _capitalize_sentences (text : string) : string :=
  PyText.join "" (capitalize_even true (re_split false text)).

End WithUpper.

(** [str.upper] on the code points whose upper case is again a string of
    code points below 256; the micro sign and [y] with diaeresis, whose
    upper case lies beyond, are given back unchanged. *)
Definition upper_latin1 (c : ascii) : string :=
  if Ascii.eqb c (ascii_of_nat 223) then "SS"
  else if PyStr.between 97 122 c
          || (PyStr.between 224 254 c && negb (PyStr.code c =? 247)%N)
       then String (ascii_of_nat (nat_of_ascii c - 32)) EmptyString
       else String c EmptyString.

(** No mark is followed by whitespace; [prev_mark] tells whether the
    character before the list is a mark. *)
Fixpoint glued (prev_mark : bool) (l : list ascii) : bool :=
  match l with
  | [] => true
  | c :: l' => negb (prev_mark && PyStr.isspace c) && glued (is_mark c) l'
  end.

(** What [upper] must not do for marks to stay where they are: give
    nothing, or turn a character into marks or whitespace. *)
Definition keeps_marks (upper : ascii -> string) : Prop :=
  forall c,
    upper c <> EmptyString
    /\ (upper c = String c EmptyString
        \/ Forall (fun d => is_mark d = false /\ PyStr.isspace d = false)
             (list_ascii_of_string (upper c))).

(** A piece found by the split: glued in itself, and not beginning with
    whitespace when it follows a mark. *)
Definition piece_ok (after_mark : bool) (p : string) : Prop :=
  glued false (list_ascii_of_string p) = true
  /\ (after_mark = true -> head_is_space p = false).

(** Pieces and single marks in turn, beginning and ending with a piece. *)
Fixpoint well_split (after_mark : bool) (ps : list string) : Prop :=
  match ps with
  | [] => False
  | [p] => piece_ok after_mark p
  | p :: d :: rest =>
      piece_ok after_mark p
      /\ (exists m, d = String m EmptyString /\ is_mark m = true)
      /\ well_split true rest
  end.

End Sentences.

(* ===================================================================== *)
(** ** [TranscriptionEnhancer]  (src/src/transcriber.py) *)
(* ===================================================================== *)

Module TranscriptionEnhancer.

Local Open Scope list_scope.

(** A word of a segment; ["confidence"] is read with [.get]. *)
Record Word : Type := mkWord {
  word : string;
  confidence : option Q
}.

(** A segment as the enhancer reads it; ["words"] may be absent. *)
Record Segment : Type := mkSegment {
  text : string;
  start : Q;
  end_ : Q;
  words : option (list Word)
}.

Record Transcription : Type := mkTranscription {
  full_text : string;
  segments : option (list Segment)
}.

(** The constructor's arguments: whether a language model was given, and
    the confidence threshold. *)
Record t : Type := mkEnhancer {
  language_model : bool;
  confidence_threshold : Q
}.

Definition with_text (segment : Segment) (text' : string) : Segment :=
  {| text := text'; start := start segment; end_ := end_ segment;
     words := words segment |}.

Definition with_words (segment : Segment) (words' : list Word) : Segment :=
  {| text := text segment; start := start segment; end_ := end_ segment;
     words := Some words' |}.

(** [word.get("confidence", 1.0) >= self.confidence_threshold]. *)
Definition confident (self : t) (w : Word) : bool :=
  Qle_bool (confidence_threshold self) (default 1%Q (confidence w)).

(** The first step of [enhance]: low-confidence words are filtered out
    of the segments that have words. *)
Definition filter_words (self : t) (transcription : Transcription) : Transcription :=
  match segments transcription with
  | None => transcription
  | Some segs =>
      {| full_text := full_text transcription;
         segments :=
           Some (map (fun segment =>
                        match words segment with
                        | None => segment
                        | Some ws => with_words segment (List.filter (confident self) ws)
                        end) segs) |}
  end.

(** A placeholder in the source: the transcription is returned as it is. *)
Definition _apply_language_model (transcription : Transcription) : Transcription :=
  transcription.

(** The spacing fixed around punctuation, then before it, then the
    whitespace collapsed: the twelve [replace] calls and
    [" ".join(text.split())]. *)
Definition space_after (text : string) : string :=
  let text := PyText.replace "," ", " text in
  let text := PyText.replace "." ". " text in
  let text := PyText.replace "!" "! " text in
  let text := PyText.replace "?" "? " text in
  let text := PyText.replace ":" ": " text in
  let text := PyText.replace ";" "; " text in
  text.

Definition no_space_before (text : string) : string :=
  let text := PyText.replace " ," "," text in
  let text := PyText.replace " ." "." text in
  let text := PyText.replace " !" "!" text in
  let text := PyText.replace " ?" "?" text in
  let text := PyText.replace " :" ":" text in
  let text := PyText.replace " ;" ";" text in
  text.

Definition normalize_text (text : string) : string :=
  let text := no_space_before text in
  let text := space_after text in
  PyText.join " " (PyStr.split text).

Definition _normalize_punctuation (transcription : Transcription) : Transcription :=
  match segments transcription with
  | None => transcription
  | Some segs =>
      let segs' :=
        map (fun segment => with_text segment (normalize_text (text segment))) segs in
      {| full_text := PyText.join " " (map text segs');
         segments := Some segs' |}
  end.

Definition enhance (self : t) (transcription : Transcription) : Transcription :=
  let transcription := filter_words self transcription in
  let transcription :=
    if language_model self
       && match segments transcription with Some _ => true | None => false end
    then _apply_language_model transcription
    else transcription in
  _normalize_punctuation transcription.

(** The six punctuation marks the method spaces. *)
Definition is_punctuation (c : ascii) : bool :=
  Ascii.eqb c "," || Ascii.eqb c "." || Ascii.eqb c "!" || Ascii.eqb c "?"
  || Ascii.eqb c ":" || Ascii.eqb c ";".

(** Every character of the class [marks] is followed by whitespace, or
    ends the list. *)
Fixpoint spaced (marks : ascii -> bool) (l : list ascii) : bool :=
  match l with
  | [] => true
  | c :: l' =>
      (if marks c
       then match l' with [] => true | d :: _ => PyStr.isspace d end
       else true)
      && spaced marks l'
  end.

(** Every character of the class is followed by one space, or ends the
    list; [prev] tells whether the character before the list is of the
    class. *)
Fixpoint single_space_after (marks : ascii -> bool) (prev : bool) (l : list ascii)
  : bool :=
  match l with
  | [] => true
  | c :: l' =>
      (if prev then Ascii.eqb c " " else true)
      && single_space_after marks (marks c) l'
  end.

(** No character of the class but the last. *)
Fixpoint inner_plain (marks : ascii -> bool) (w : list ascii) : bool :=
  match w with
  | [] => true
  | c :: w' =>
      match w' with
      | [] => true
      | _ :: _ => negb (marks c) && inner_plain marks w'
      end
  end.

(** The only whitespace is single spaces between words; [prev_space]
    tells whether the list stands at the beginning or after a space. *)
Fixpoint single_spaced (prev_space : bool) (l : list ascii) : bool :=
  match l with
  | [] => negb prev_space
  | c :: l' =>
      if PyStr.isspace c
      then Ascii.eqb c " " && negb prev_space && single_spaced true l'
      else single_spaced false l'
  end.

End TranscriptionEnhancer.

(* ===================================================================== *)
(** ** [Config]  (src/src/config.py) *)
(* ===================================================================== *)

Module Config.

Local Open Scope list_scope.

(** The values a configuration holds: what JSON and the environment can
    give. *)
#[warnings="-register-all"]
Inductive value : Type :=
| VNone
| VBool (b : bool)
| VInt (z : Z)
| VFloat (q : Q)
| VStr (s : string)
| VDict (items : list (string * value))
| VList (elements : list value).

(** What a key of [_config] is bound to: a value, or the one dictionary
    object bound to ["experimental"] in [DEFAULT_CONFIG].  [dict.copy] is
    shallow, so every configuration starts out sharing that object with
    the class. *)
Inductive slot : Type :=
| Own (v : value)
| SharedExperimental.

(** [d[k] = x] on a dictionary given by its items. *)
Fixpoint dict_set (k : string) (x : value) (d : list (string * value))
  : list (string * value) :=
  match d with
  | [] => [(k, x)]
  | (k', x') :: d' =>
      if String.eqb k' k then (k, x) :: d' else (k', x') :: dict_set k x d'
  end.

(** [d.update(new)]. *)
Definition dict_update (d new : list (string * value)) : list (string * value) :=
  foldl (fun acc kv => dict_set (fst kv) (snd kv) acc) d new.

(** [d.get(k)]. *)
Fixpoint dict_get (k : string) (d : list (string * value)) : option value :=
  match d with
  | [] => None
  | (k', x) :: d' => if String.eqb k' k then Some x else dict_get k d'
  end.

(** The dictionary [json.load] builds from the members of an object: of
    two members with the same name the later one stays. *)
Definition dict_of_members (members : list (string * value))
  : list (string * value) :=
  dict_update [] members.

(** What the instance attribute [_config] is bound to: the dictionary the
    constructor made, a value assigned to it later ([c._config = v]), or
    nothing, once the instance dictionary has been replaced by one without
    that key. *)
Inductive binding : Type :=
| Settings (config : gmap string slot)
| Rebound (v : value)
| Unbound.

(** A configuration object, that is, its instance dictionary: the entry
    [_config], and the other attributes set on the instance. *)
Record t : Type := mkConfig {
  _config : binding;
  attributes : gmap string value
}.

(** The dictionary of settings, while [_config] is the one the
    constructor made. *)
Definition settings (self : t) : gmap string slot :=
  match _config self with
  | Settings config => config
  | _ => ∅
  end.

Definition DEFAULT_CONFIG : gmap string slot :=
  list_to_map
    [ ("output_dir", Own (VStr "enhanced_audio"));
      ("whisper_model", Own (VStr "base"));
      ("device", Own VNone);
      ("remove_disfluencies", Own (VBool true));
      ("simplify_language", Own (VBool false));
      ("tts_engine", Own (VStr "piper"));
      ("voice", Own (VStr "en_US-lessac-medium"));
      ("speaker", Own (VInt 0));
      ("tts_models_dir", Own VNone);
      ("maintain_timing", Own (VBool true));
      ("output_format", Own (VStr "mp3"));
      ("output_bitrate", Own (VStr "192k"));
      ("experimental", SharedExperimental) ].

(** What the shared dictionary holds when the module is loaded. *)
Definition experimental_at_load : list (string * value) :=
  [ ("enable_speaker_diarization", VBool false);
    ("enable_language_model_rescoring", VBool false) ].

(** One iteration of [_update_config]; [shared] is what the shared
    dictionary holds. *)
Definition update_one (state : list (string * value) * gmap string slot)
    (kv : string * value) : list (string * value) * gmap string slot :=
  let shared := fst state in
  let config := snd state in
  let key := fst kv in
  match snd kv, config !! key with
  | VDict d, Some SharedExperimental => (dict_update shared d, config)
  | VDict d, Some (Own (VDict d0)) =>
      (shared, <[key := Own (VDict (dict_update d0 d))]> config)
  | v, _ => (shared, <[key := Own v]> config)
  end.

Definition _update_config (shared : list (string * value))
    (config : gmap string slot) (new_config : list (string * value))
  : list (string * value) * gmap string slot :=
  foldl update_one (shared, config) new_config.

(** [_load_from_file]: [loaded] is what [open] and [json.load] gave.  A
    failure, or a document that is not an object, leaves everything as it
    was. *)
Definition _load_from_file (shared : list (string * value))
    (config : gmap string slot) (loaded : exn + value)
  : list (string * value) * gmap string slot :=
  match loaded with
  | inr (VDict members) => _update_config shared config (dict_of_members members)
  | _ => (shared, config)
  end.

(** [str.lower] and [str.isdigit] on code points below 256. *)
Definition lower_char (c : ascii) : ascii :=
  if PyStr.between 65 90 c
     || (PyStr.between 192 222 c && negb (PyStr.code c =? 215)%N)
  then ascii_of_nat (nat_of_ascii c + 32)
  else c.

Fixpoint lower (s : string) : string :=
  match s with
  | EmptyString => EmptyString
  | String c s' => String (lower_char c) (lower s')
  end.

Definition isdigit_char (c : ascii) : bool :=
  PyStr.between 48 57 c || PyStr.between 178 179 c || (PyStr.code c =? 185)%N.

Definition isdigit (s : string) : bool :=
  PyStr.truthy s && forallb isdigit_char (list_ascii_of_string s).

(** The digits [int] and [float] accept. *)
Definition all_ascii_digits (s : string) : bool :=
  forallb Decimal.is_ascii_digit (list_ascii_of_string s).

(** [s.replace(".", "", 1)]. *)
Fixpoint drop_first_dot (s : string) : string :=
  match s with
  | EmptyString => EmptyString
  | String c s' => if Ascii.eqb c "." then s' else String c (drop_first_dot s')
  end.

(** The number of characters after the first dot. *)
Fixpoint places_after_dot (s : string) : nat :=
  match s with
  | EmptyString => 0
  | String c s' => if Ascii.eqb c "." then String.length s' else places_after_dot s'
  end.

(** [float(s)] for digits around one dot: the decimal it is rounded
    from.  [VFloat q] stands for the double nearest to [q]. *)
Definition float_of (s : string) : Q :=
  (inject_Z (Z.of_nat (Decimal.int (drop_first_dot s)))
   / inject_Z (10 ^ Z.of_nat (places_after_dot s)))%Q.

Definition one_of (s : string) (l : list string) : bool :=
  existsb (String.eqb s) l.

(** The longest digit string [int] converts (CPython's default limit);
    a longer one raises [ValueError]. *)
Definition int_max_str_digits : nat := 4300.

(** What [_load_from_env] makes of the text of an environment variable.
    Once the text has become a boolean, [value.isdigit()] raises
    [AttributeError], which is caught; [int] and [float] raise
    [ValueError] on digits that are not ASCII, and [int] on too many
    digits, which is caught too. *)
Definition env_convert (text : string) : value :=
  if one_of (lower text) ["true"; "yes"; "1"] then VBool true
  else if one_of (lower text) ["false"; "no"; "0"] then VBool false
  else if isdigit text
  then if all_ascii_digits text
          && (String.length text <=? int_max_str_digits)%nat
       then VInt (Z.of_nat (Decimal.int text))
       else VStr text
  else if isdigit (drop_first_dot text)
  then if all_ascii_digits (drop_first_dot text)
       then VFloat (float_of text)
       else VStr text
  else VStr text.

Definition env_mapping : list (string * string) :=
  [ ("ESH_OUTPUT_DIR", "output_dir");
    ("ESH_WHISPER_MODEL", "whisper_model");
    ("ESH_DEVICE", "device");
    ("ESH_REMOVE_DISFLUENCIES", "remove_disfluencies");
    ("ESH_SIMPLIFY_LANGUAGE", "simplify_language");
    ("ESH_TTS_ENGINE", "tts_engine");
    ("ESH_VOICE", "voice");
    ("ESH_SPEAKER", "speaker");
    ("ESH_TTS_MODELS_DIR", "tts_models_dir");
    ("ESH_MAINTAIN_TIMING", "maintain_timing");
    ("ESH_OUTPUT_FORMAT", "output_format");
    ("ESH_OUTPUT_BITRATE", "output_bitrate") ].

Definition load_one (environ : gmap string string) (config : gmap string slot)
    (m : string * string) : gmap string slot :=
  match environ !! fst m with
  | Some text => <[snd m := Own (env_convert text)]> config
  | None => config
  end.

Definition _load_from_env (environ : gmap string string)
    (config : gmap string slot) : gmap string slot :=
  foldl (load_one environ) config env_mapping.

(** [Config(config_path)]: [loaded] is [None] when no path is given.  The
    result is the new content of the shared dictionary and the object. *)
Definition init (shared : list (string * value)) (loaded : option (exn + value))
    (environ : gmap string string) : list (string * value) * t :=
  let config := DEFAULT_CONFIG in
  let state :=
    match loaded with
    | Some l => _load_from_file shared config l
    | None => (shared, config)
    end in
  (fst state,
   {| _config := Settings (_load_from_env environ (snd state));
      attributes := ∅ |}).

(** The exceptions of attribute access. *)
Definition AttributeError (name : string) : exn :=
  OtherError ("AttributeError: " +:+ name).
Definition TypeError : exn := OtherError "TypeError".
Definition KeyError (name : string) : exn := OtherError ("KeyError: " +:+ name).
Definition RecursionError : exn := OtherError "RecursionError".

(** What reading an attribute gives: a value, or an object that is none
    (a method, a class, the dictionary of settings, the instance
    dictionary), named by the attribute it was read from. *)
Inductive found : Type :=
| Data (v : value)
| Object (name : string) (truth : bool).

(** The names Python finds on the type before it looks at the instance:
    the data descriptors [__class__], [__dict__] and [__weakref__] (the
    last one reads [None] as long as nothing refers to the object
    weakly). *)
Definition data_descriptor (name : string) : bool :=
  one_of name ["__class__"; "__dict__"; "__weakref__"].

(** The other names the class [Config] or [object] defines (CPython 3.11):
    an attribute of the instance hides them, and they hide
    [__getattr__]. *)
Definition class_members : list string :=
  [ "DEFAULT_CONFIG"; "__init__"; "_load_from_file"; "_load_from_env";
    "_update_config"; "save"; "__getattr__"; "__setattr__";
    "__module__"; "__doc__";
    "__delattr__"; "__dir__"; "__eq__"; "__format__"; "__ge__";
    "__getattribute__"; "__getstate__"; "__gt__"; "__hash__";
    "__init_subclass__"; "__le__"; "__lt__"; "__ne__"; "__new__";
    "__reduce__"; "__reduce_ex__"; "__repr__"; "__sizeof__"; "__str__";
    "__subclasshook__" ].

Definition class_member (name : string) : bool := one_of name class_members.

(** What the class binds to one of its names: the documentation string
    and the module name are strings, the rest are methods and the
    dictionary of defaults, which is not empty. *)
Definition class_attribute (name : string) : found :=
  if String.eqb name "__doc__"
  then Data (VStr "Class for managing configuration settings.")
  else if String.eqb name "__module__" then Data (VStr "src.config")
  else Object name true.

(** A name that reaches [__getattr__] unless the instance has an
    attribute of that name. *)
Definition plain (name : string) : bool :=
  negb (String.eqb name "_config") && negb (data_descriptor name)
  && negb (class_member name).

(** [sub in s] on strings. *)
Fixpoint occurs (sub s : string) : bool :=
  PyText.startswith sub s
  || match s with
     | EmptyString => false
     | String _ s' => occurs sub s'
     end.

(** [name in c], for what [_config] has been rebound to. *)
Definition contains (c : value) (name : string) : exn + bool :=
  match c with
  | VStr s => inr (occurs name s)
  | VList elements =>
      inr (existsb (fun x => match x with
                             | VStr s => String.eqb s name
                             | _ => false
                             end) elements)
  | VDict items =>
      inr (match dict_get name items with Some _ => true | None => false end)
  | VNone | VBool _ | VInt _ | VFloat _ => inl TypeError
  end.

(** [c[name]]. *)
Definition item (c : value) (name : string) : exn + value :=
  match c with
  | VDict items =>
      match dict_get name items with
      | Some x => inr x
      | None => inl (KeyError name)
      end
  | _ => inl TypeError
  end.

(** [c[name] = v]. *)
Definition set_item (c : value) (name : string) (v : value) : exn + value :=
  match c with
  | VDict items => inr (VDict (dict_set name v items))
  | _ => inl TypeError
  end.

(** The method [__getattr__]: the setting of that name, or
    [AttributeError].  Reading [self._config] in it calls the method again
    when the instance has no [_config]. *)
Definition __getattr__ (shared : list (string * value)) (self : t)
    (name : string) : exn + value :=
  match _config self with
  | Settings config =>
      match config !! name with
      | Some (Own v) => inr v
      | Some SharedExperimental => inr (VDict shared)
      | None => inl (AttributeError name)
      end
  | Rebound c =>
      match contains c name with
      | inl e => inl e
      | inr true => item c name
      | inr false => inl (AttributeError name)
      end
  | Unbound => inl RecursionError
  end.

(** [self.name]: the data descriptors of the type, then the instance
    dictionary, then the class, then [__getattr__]. *)
Definition getattr (shared : list (string * value)) (self : t) (name : string)
  : exn + found :=
  if String.eqb name "__weakref__" then inr (Data VNone)
  else if String.eqb name "__class__" then inr (Object name true)
  else if String.eqb name "__dict__"
  then inr (Object name
              (match _config self with
               | Unbound => negb (size (attributes self) =? 0)%nat
               | _ => true
               end))
  else if String.eqb name "_config"
  then match _config self with
       | Settings config => inr (Object name (negb (size config =? 0)%nat))
       | Rebound v => inr (Data v)
       | Unbound => inl RecursionError
       end
  else match attributes self !! name with
       | Some v => inr (Data v)
       | None =>
           if class_member name then inr (class_attribute name)
           else match __getattr__ shared self name with
                | inr v => inr (Data v)
                | inl e => inl e
                end
       end.

(** The instance dictionary made of the items of a dictionary. *)
Definition attributes_of (items : list (string * value)) : gmap string value :=
  foldl (fun m kv => if String.eqb (fst kv) "_config" then m
                     else <[fst kv := snd kv]> m) ∅ items.

(** [object.__setattr__(self, name, v)] for a name other than
    [_config]. *)
Definition object_setattr (self : t) (name : string) (v : value) : exn + t :=
  if String.eqb name "__class__" then inl TypeError
  else if String.eqb name "__weakref__" then inl (AttributeError name)
  else if String.eqb name "__dict__"
  then match v with
       | VDict items =>
           inr {| _config := match dict_get "_config" items with
                             | Some c => Rebound c
                             | None => Unbound
                             end;
                  attributes := attributes_of items |}
       | _ => inl TypeError
       end
  else inr {| _config := _config self;
              attributes := <[name := v]> (attributes self) |}.

(** The method [__setattr__], that is [self.name = v]. *)
Definition setattr (self : t) (name : string) (v : value) : exn + t :=
  if String.eqb name "_config"
  then inr {| _config := Rebound v; attributes := attributes self |}
  else match _config self with
       | Settings config =>
           match config !! name with
           | Some _ =>
               inr {| _config := Settings (<[name := Own v]> config);
                      attributes := attributes self |}
           | None => object_setattr self name v
           end
       | Rebound c =>
           match contains c name with
           | inl e => inl e
           | inr true =>
               match set_item c name v with
               | inr c' => inr {| _config := Rebound c';
                                  attributes := attributes self |}
               | inl e => inl e
               end
           | inr false => object_setattr self name v
           end
       | Unbound => inl RecursionError
       end.

(** The state the constructor makes and assignments to plain names keep:
    [_config] is the dictionary of settings, and a name that is a key of
    it is not also an attribute of the instance. *)
Definition consistent (self : t) : Prop :=
  (exists config, _config self = Settings config)
  /\ forall name, is_Some (settings self !! name) ->
                  attributes self !! name = None.

(** Truth value of a configuration value.  The double nearest to a
    decimal is zero up to half the least positive double. *)
Definition truthy (v : value) : bool :=
  match v with
  | VNone => false
  | VBool b => b
  | VInt z => negb (z =? 0)%Z
  | VFloat q =>
      negb (Qle_bool q (1 # (2 ^ 1075)) && Qle_bool (- q) (1 # (2 ^ 1075)))
  | VStr s => PyStr.truthy s
  | VDict items => match items with [] => false | _ => true end
  | VList elements => match elements with [] => false | _ => true end
  end.

(** Truth value of what an attribute access gave. *)
Definition truthy_found (f : found) : bool :=
  match f with
  | Data v => truthy v
  | Object _ truth => truth
  end.

End Config.

(* ===================================================================== *)
(** ** The tool's constructor and [main]  (src/enhanced_speech_tool.py) *)
(* ===================================================================== *)

Module CommandLine.

Local Open Scope list_scope.

(** What the constructor keeps: the configuration object, the output
    directory, and the components with what they were given when they
    were made. *)
Record Tool : Type := mkTool {
  config : Config.t;
  output_dir : string;
  whisper_model : Config.found;
  device : Config.found;
  text_processor : TextProcessor.t;
  voice : Config.found;
  speaker : Config.found;
  tts_models_dir : Config.found
}.

(** The arguments [main] reads after the source. *)
Record Args : Type := mkArgs {
  arg_voice : option string;
  arg_no_disfluencies : bool;
  arg_simplify : bool;
  arg_output_dir : option string
}.

(** [Path(v)]: a string, or [TypeError]. *)
Definition as_path (v : Config.found) : exn + string :=
  match v with
  | Config.Data (Config.VStr s) => inr s
  | _ => inl Config.TypeError
  end.

(** The directory check of [PiperTTSSynthesizer.__init__]: [None] stands
    for the default place, anything else goes through [Path]. *)
Definition models_dir_ok (v : Config.found) : exn + unit :=
  match v with
  | Config.Data Config.VNone | Config.Data (Config.VStr _) => inr tt
  | _ => inl Config.TypeError
  end.

Section WithPiperCheck.

(** [_check_piper_installation] for a voice and a models directory. *)
Variable check_piper : Config.found -> Config.found -> exn + unit.

(** [EnhancedSpeechTool(config_path)], from what the shared dictionary
    holds, what the configuration file gave and the environment. *)
Definition init_tool (shared : list (string * Config.value))
    (loaded : option (exn + Config.value)) (environ : gmap string string)
  : list (string * Config.value) * (exn + Tool) :=
  let made := Config.init shared loaded environ in
  let shared' := fst made in
  let cfg := snd made in
  (shared',
   match Config.getattr shared' cfg "output_dir" with
   | inl e => inl e
   | inr dir =>
   match as_path dir with
   | inl e => inl e
   | inr output_dir0 =>
   match Config.getattr shared' cfg "whisper_model" with
   | inl e => inl e
   | inr whisper_model0 =>
   match Config.getattr shared' cfg "device" with
   | inl e => inl e
   | inr device0 =>
   match Config.getattr shared' cfg "remove_disfluencies" with
   | inl e => inl e
   | inr remove0 =>
   match Config.getattr shared' cfg "simplify_language" with
   | inl e => inl e
   | inr simplify0 =>
   match Config.getattr shared' cfg "voice" with
   | inl e => inl e
   | inr voice0 =>
   match Config.getattr shared' cfg "speaker" with
   | inl e => inl e
   | inr speaker0 =>
   match Config.getattr shared' cfg "tts_models_dir" with
   | inl e => inl e
   | inr models0 =>
   match models_dir_ok models0 with
   | inl e => inl e
   | inr _ =>
   match check_piper voice0 models0 with
   | inl e => inl e
   | inr _ =>
       inr {| config := cfg;
              output_dir := output_dir0;
              whisper_model := whisper_model0;
              device := device0;
              text_processor :=
                {| TextProcessor.remove_disfluencies :=
                     Config.truthy_found remove0;
                   TextProcessor.simplify_language :=
                     Config.truthy_found simplify0 |};
              voice := voice0;
              speaker := speaker0;
              tts_models_dir := models0 |}
   end end end end end end end end end end end).

End WithPiperCheck.

(** [tool.config.name = v]. *)
Definition set_config (tool : Tool) (name : string) (v : Config.value)
  : exn + Tool :=
  match Config.setattr (config tool) name v with
  | inr config' =>
      inr {| config := config';
             output_dir := output_dir tool;
             whisper_model := whisper_model tool;
             device := device tool;
             text_processor := text_processor tool;
             voice := voice tool;
             speaker := speaker tool;
             tts_models_dir := tts_models_dir tool |}
  | inl e => inl e
  end.

Definition set_output_dir (tool : Tool) (dir : string) : Tool :=
  {| config := config tool;
     output_dir := dir;
     whisper_model := whisper_model tool;
     device := device tool;
     text_processor := text_processor tool;
     voice := voice tool;
     speaker := speaker tool;
     tts_models_dir := tts_models_dir tool |}.

(** An argument that was given and is not the empty string. *)
Definition given (a : option string) : option string :=
  match a with
  | Some s => if PyStr.truthy s then Some s else None
  | None => None
  end.

(** The part of [main] between the construction of the tool and the call
    of [process]: the configuration is overridden from the command line.
    An assignment that raises ends [main]. *)
Definition apply_overrides (tool : Tool) (args : Args) : exn + Tool :=
  match
    match given (arg_voice args) with
    | Some v => set_config tool "voice" (Config.VStr v)
    | None => inr tool
    end
  with
  | inl e => inl e
  | inr tool =>
  match
    if arg_no_disfluencies args
    then set_config tool "remove_disfluencies" (Config.VBool true)
    else inr tool
  with
  | inl e => inl e
  | inr tool =>
  match
    if arg_simplify args
    then set_config tool "simplify_language" (Config.VBool true)
    else inr tool
  with
  | inl e => inl e
  | inr tool =>
    match given (arg_output_dir args) with
    | Some d =>
        match set_config tool "output_dir" (Config.VStr d) with
        | inr tool => inr (set_output_dir tool d)
        | inl e => inl e
        end
    | None => inr tool
    end
  end end end.

(** The tool made from the defaults alone, and a command line with
    [--simplify]. *)
Definition tool_from_defaults : Tool :=
  {| config := snd (Config.init Config.experimental_at_load None ∅);
     output_dir := "enhanced_audio";
     whisper_model := Config.Data (Config.VStr "base");
     device := Config.Data Config.VNone;
     text_processor :=
       {| TextProcessor.remove_disfluencies := true;
          TextProcessor.simplify_language := false |};
     voice := Config.Data (Config.VStr "en_US-lessac-medium");
     speaker := Config.Data (Config.VInt 0);
     tts_models_dir := Config.Data Config.VNone |}.

Definition args_simplify : Args :=
  {| arg_voice := None;
     arg_no_disfluencies := false;
     arg_simplify := true;
     arg_output_dir := None |}.

End CommandLine.

(* ===================================================================== *)
(** ** Numbers and the monad: basic facts *)
(* ===================================================================== *)

Section NumberFacts.
Local Open Scope Q_scope.

Lemma ltb_true (a b : Q) : PyNum.ltb a b = true <-> a < b.
Proof.
  unfold PyNum.ltb. rewrite negb_true_iff.
  split.
  - intros H. apply Qnot_le_lt. intros Hle.
    apply Qle_bool_iff in Hle. congruence.
  - intros H. destruct (Qle_bool b a) eqn:E; [|reflexivity].
    apply Qle_bool_iff in E. exfalso. eapply Qlt_not_le; eauto.
Qed.

Lemma ltb_false (a b : Q) : PyNum.ltb a b = false <-> b <= a.
Proof.
  split.
  - intros H. apply Qnot_lt_le. intros Hlt. apply ltb_true in Hlt. congruence.
  - intros H. destruct (PyNum.ltb a b) eqn:E; [|reflexivity].
    apply ltb_true in E. exfalso. eapply Qlt_not_le; eauto.
Qed.

Lemma ltb_scale (g : Q) : PyNum.ltb 0 (g * 1000) = PyNum.ltb 0 g.
Proof.
  destruct (PyNum.ltb 0 g) eqn:E.
  - apply ltb_true in E. apply ltb_true. lra.
  - apply ltb_false in E. apply ltb_false. lra.
Qed.

Lemma max_zero_pos (x : Q) : PyNum.ltb 0 x = true -> PyNum.max 0 x = x.
Proof. unfold PyNum.max. intros ->. reflexivity. Qed.

Lemma max_zero_nonpos (x : Q) : PyNum.ltb 0 x = false -> PyNum.max 0 x = 0.
Proof. unfold PyNum.max. intros ->. reflexivity. Qed.

(** Python's [max(0, x)] is the mathematical maximum. *)
Lemma max_zero_Qmax (x : Q) : PyNum.max 0 x == Qmax 0 x.
Proof.
  destruct (PyNum.ltb 0 x) eqn:E.
  - rewrite max_zero_pos by assumption. apply ltb_true in E.
    symmetry. apply Q.max_r. lra.
  - rewrite max_zero_nonpos by assumption. apply ltb_false in E.
    symmetry. apply Q.max_l. assumption.
Qed.

(** Asking for the silence of [max(0, x)] is asking for that of [x]. *)
Lemma silent_max (x : Q) : Audio.silent (PyNum.max 0 x) = Audio.silent x.
Proof.
  destruct (PyNum.ltb 0 x) eqn:E.
  - now rewrite max_zero_pos.
  - rewrite max_zero_nonpos by assumption. unfold Audio.silent.
    rewrite E. reflexivity.
Qed.

Lemma silent_all_silence (d : Q) :
  Forall (fun p => Audio.is_silence p = true) (Audio.silent d).
Proof.
  unfold Audio.silent. destruct (PyNum.ltb 0 d); repeat constructor.
Qed.

Lemma len_silent (d : Q) : Audio.len (Audio.silent d) == Qmax 0 d.
Proof.
  unfold Audio.silent. destruct (PyNum.ltb 0 d) eqn:E; simpl.
  - apply ltb_true in E. rewrite Q.max_r by lra. lra.
  - apply ltb_false in E. rewrite Q.max_l by assumption. reflexivity.
Qed.

End NumberFacts.

Section MonadFacts.
Context {S A : Type}.

(** A loop whose iterations never raise runs over a concatenation as
    over its two halves in turn. *)
Lemma for_each_app (body : A -> SE S unit) (xs ys : list A) (s : S) :
  (forall x s0, snd (body x s0) = inr tt) ->
  SEMonad.for_each body (xs ++ ys) s
  = SEMonad.for_each body ys (fst (SEMonad.for_each body xs s)).
Proof.
  intros Hok. revert s.
  induction xs as [|x xs IH]; intros s; simpl; [reflexivity|].
  unfold SEMonad.bind.
  specialize (Hok x s). destruct (body x s) as [s1 [e|[]]]; simpl in *.
  - discriminate.
  - apply IH.
Qed.

Lemma for_each_returns (body : A -> SE S unit) (xs : list A) (s : S) :
  (forall x s0, snd (body x s0) = inr tt) ->
  snd (SEMonad.for_each body xs s) = inr tt.
Proof.
  intros Hok. revert s.
  induction xs as [|x xs IH]; intros s; simpl; [reflexivity|].
  unfold SEMonad.bind.
  specialize (Hok x s). destruct (body x s) as [s1 [e|[]]]; simpl in *.
  - discriminate.
  - apply IH.
Qed.

End MonadFacts.

(* ===================================================================== *)
(** ** The mixer's loop, one iteration at a time *)
(* ===================================================================== *)

Section MixerIterations.
Import Audio.
Import Statements.
Local Open Scope Q_scope.
Local Open Scope list_scope.

Variable fs : gmap string file_content.

(** An iteration never lets an exception out. *)
Lemma mix_iter_returns (maintain_timing : bool) (segment : AudioMixer.Segment)
    (st : AudioMixer.MixState) :
  snd (AudioMixer.mix_iter fs maintain_timing segment st) = inr tt.
Proof.
  unfold AudioMixer.mix_iter, SEMonad.try_except.
  destruct (AudioMixer.mix_body fs maintain_timing segment st) as [s1 [e|[]]];
    reflexivity.
Qed.

Lemma mix_loop_returns (maintain_timing : bool) (segments : list AudioMixer.Segment)
    (st : AudioMixer.MixState) :
  AudioMixer.mix_loop fs maintain_timing segments st
  = (mix_run fs maintain_timing segments st, inr tt).
Proof.
  unfold mix_run.
  pose proof (for_each_returns (AudioMixer.mix_iter fs maintain_timing) segments st
                (mix_iter_returns maintain_timing)) as H.
  unfold AudioMixer.mix_loop in *.
  destruct (SEMonad.for_each _ segments st) as [s1 r]. simpl in *. now subst.
Qed.

Lemma mix_run_app (maintain_timing : bool) (xs ys : list AudioMixer.Segment)
    (st : AudioMixer.MixState) :
  mix_run fs maintain_timing (xs ++ ys) st
  = mix_run fs maintain_timing ys (mix_run fs maintain_timing xs st).
Proof.
  unfold mix_run, AudioMixer.mix_loop.
  rewrite for_each_app by apply mix_iter_returns. reflexivity.
Qed.

Lemma mix_run_cons (maintain_timing : bool) (x : AudioMixer.Segment)
    (xs : list AudioMixer.Segment) (st : AudioMixer.MixState) :
  mix_run fs maintain_timing (x :: xs) st
  = mix_run fs maintain_timing xs
      (fst (AudioMixer.mix_iter fs maintain_timing x st)).
Proof.
  unfold mix_run, AudioMixer.mix_loop. simpl. unfold SEMonad.bind.
  pose proof (mix_iter_returns maintain_timing x st) as H.
  destruct (AudioMixer.mix_iter fs maintain_timing x st) as [s1 [e|[]]];
    simpl in *; [discriminate|reflexivity].
Qed.

Lemma mix_of_run (segments : list AudioMixer.Segment) (output_path : string)
    (maintain_timing : bool) :
  AudioMixer.mix fs segments output_path maintain_timing
  = inr {| AudioMixer.output_file := output_path;
           AudioMixer.audio :=
             AudioMixer.combined
               (mix_run fs maintain_timing segments AudioMixer.init) |}.
Proof.
  unfold AudioMixer.mix. rewrite mix_loop_returns. reflexivity.
Qed.

(** A segment whose file loads, with timing kept: silence for the gap, the
    audio, and the cursor moved to the segment's end. *)
Lemma mix_iter_loaded (segment : AudioMixer.Segment) (path : string)
    (a : AudioSegment) (st : AudioMixer.MixState) :
  AudioMixer.audio_file segment = Some path ->
  PyStr.is_empty path = false ->
  from_file fs path = inr a ->
  let start_time :=
    default (AudioMixer.last_end_time st) (AudioMixer.start segment) in
  AudioMixer.mix_iter fs true segment st
  = ({| AudioMixer.combined :=
          AudioMixer.combined st
          ++ silent ((start_time - AudioMixer.last_end_time st) * 1000) ++ a;
        AudioMixer.last_end_time :=
          default (start_time + len a / 1000) (AudioMixer.end_ segment) |},
     inr tt).
Proof.
  intros Hfile Hne Hload start_time.
  unfold AudioMixer.mix_iter, SEMonad.try_except, AudioMixer.mix_body.
  rewrite Hfile, Hne.
  unfold mbind, SE_bind, SEMonad.bind, SEMonad.lift, SEMonad.get,
    SEMonad.modify, mret, SE_ret, SEMonad.ret.
  rewrite Hload. fold start_time.
  set (gap := (start_time - AudioMixer.last_end_time st) * 1000).
  destruct (PyNum.ltb 0 (PyNum.max 0 gap)) eqn:E; simpl.
  - unfold AudioMixer.add_combined, AudioMixer.set_last_end_time; simpl.
    rewrite silent_max, <- app_assoc. reflexivity.
  - unfold AudioMixer.add_combined, AudioMixer.set_last_end_time; simpl.
    assert (Hs : silent gap = []).
    { rewrite <- silent_max. unfold silent. now rewrite E. }
    rewrite Hs. reflexivity.
Qed.

(** The same segment with timing not kept: the audio and nothing else. *)
Lemma mix_iter_loaded_untimed (segment : AudioMixer.Segment) (path : string)
    (a : AudioSegment) (st : AudioMixer.MixState) :
  AudioMixer.audio_file segment = Some path ->
  PyStr.is_empty path = false ->
  from_file fs path = inr a ->
  AudioMixer.mix_iter fs false segment st
  = ({| AudioMixer.combined := AudioMixer.combined st ++ a;
        AudioMixer.last_end_time := AudioMixer.last_end_time st |}, inr tt).
Proof.
  intros Hfile Hne Hload.
  unfold AudioMixer.mix_iter, SEMonad.try_except, AudioMixer.mix_body.
  rewrite Hfile, Hne.
  unfold mbind, SE_bind, SEMonad.bind, SEMonad.lift, SEMonad.modify,
    mret, SE_ret, SEMonad.ret.
  rewrite Hload. reflexivity.
Qed.

(** A segment without a file, or whose file does not load, leaves both
    locals as they were. *)
Lemma mix_iter_unloadable (maintain_timing : bool) (segment : AudioMixer.Segment)
    (st : AudioMixer.MixState) :
  unloadable fs segment ->
  AudioMixer.mix_iter fs maintain_timing segment st = (st, inr tt).
Proof.
  unfold unloadable, AudioMixer.mix_iter, SEMonad.try_except, AudioMixer.mix_body.
  destruct (AudioMixer.audio_file segment) as [path|]; [|reflexivity].
  destruct (PyStr.is_empty path) eqn:Hne; [reflexivity|].
  intros [Habs|[e He]]; [discriminate|].
  unfold mbind, SE_bind, SEMonad.bind, SEMonad.lift. rewrite He. reflexivity.
Qed.

Lemma loaded_unloadable (segment : AudioMixer.Segment) :
  unloadable fs segment -> loaded fs segment = [].
Proof.
  unfold unloadable, loaded.
  destruct (AudioMixer.audio_file segment) as [path|]; [|reflexivity].
  destruct (PyStr.is_empty path); [reflexivity|].
  intros [Habs|[e He]]; [discriminate|]. now rewrite He.
Qed.

(** Every segment either loads or is unloadable. *)
Lemma loads_or_not (segment : AudioMixer.Segment) :
  (exists path a,
      AudioMixer.audio_file segment = Some path
      /\ PyStr.is_empty path = false
      /\ from_file fs path = inr a
      /\ loaded fs segment = a)
  \/ unloadable fs segment.
Proof.
  unfold unloadable, loaded.
  destruct (AudioMixer.audio_file segment) as [path|]; [|now right].
  destruct (PyStr.is_empty path) eqn:Hne; [right; now left|].
  destruct (from_file fs path) as [e|a] eqn:Hl.
  - right. right. eauto.
  - left. exists path, a. auto.
Qed.

(** With timing not kept, the loop appends what each segment loads to. *)
Lemma mix_run_untimed (segments : list AudioMixer.Segment)
    (st : AudioMixer.MixState) :
  mix_run fs false segments st
  = {| AudioMixer.combined :=
         AudioMixer.combined st ++ concat (map (loaded fs) segments);
       AudioMixer.last_end_time := AudioMixer.last_end_time st |}.
Proof.
  revert st. induction segments as [|x xs IH]; intros st.
  - unfold mix_run. simpl. rewrite app_nil_r. now destruct st.
  - rewrite mix_run_cons.
    destruct (loads_or_not x) as [(path & a & Hf & Hne & Hl & Ha)|Hun].
    + rewrite (mix_iter_loaded_untimed x path a st Hf Hne Hl). simpl.
      rewrite IH. simpl. rewrite Ha, app_assoc. reflexivity.
    + rewrite mix_iter_unloadable by assumption. simpl.
      rewrite IH, (loaded_unloadable x Hun). reflexivity.
Qed.

(** With timing kept and every segment carrying its asset and times, the
    loop is the reference assembly, from any state. *)
Lemma mix_run_reference (segments : list AudioMixer.Segment)
    (triples : list Reference.SynthesizedSegment) (st : AudioMixer.MixState) :
  Forall2 (carries fs) segments triples ->
  mix_run fs true segments st
  = {| AudioMixer.combined :=
         fst (Reference.assemble_from (AudioMixer.combined st)
                (AudioMixer.last_end_time st) triples);
       AudioMixer.last_end_time :=
         snd (Reference.assemble_from (AudioMixer.combined st)
                (AudioMixer.last_end_time st) triples) |}.
Proof.
  intros H. revert st.
  induction H as [|x r xs rs Hx Hxs IH]; intros st.
  - unfold mix_run. simpl. now destruct st.
  - destruct Hx as (path & Hf & Hne & Hl & Hs & He).
    rewrite mix_run_cons, (mix_iter_loaded x path _ st Hf Hne Hl).
    cbv zeta. rewrite Hs, He. simpl fst. rewrite IH. simpl.
    unfold Reference.silence.
    destruct (PyNum.ltb 0 (Reference.start r - AudioMixer.last_end_time st)) eqn:E.
    + rewrite <- app_assoc. reflexivity.
    + assert (Hs0 : silent ((Reference.start r - AudioMixer.last_end_time st) * 1000) = []).
      { unfold silent. now rewrite ltb_scale, E. }
      rewrite Hs0. reflexivity.
Qed.

End MixerIterations.

(* ===================================================================== *)
(** ** [combine_audio]'s loop *)
(* ===================================================================== *)

Section CombineIterations.
Import Audio.
Import Statements.
Local Open Scope Q_scope.
Local Open Scope list_scope.

Variable fs : gmap string file_content.

Lemma combine_iter_returns (segment : SpeechClarityEnhancer.Synthesized)
    (st : SpeechClarityEnhancer.CombineState) :
  snd (SpeechClarityEnhancer.combine_iter fs segment st) = inr tt.
Proof.
  unfold SpeechClarityEnhancer.combine_iter, SEMonad.try_except.
  destruct (SpeechClarityEnhancer.combine_body fs segment st) as [s1 [e|[]]];
    reflexivity.
Qed.

Lemma combine_iter_loaded (segment : SpeechClarityEnhancer.Synthesized)
    (a : AudioSegment) (st : SpeechClarityEnhancer.CombineState) :
  from_file fs (SpeechClarityEnhancer.file segment) = inr a ->
  SpeechClarityEnhancer.combine_iter fs segment st
  = ({| SpeechClarityEnhancer.combined :=
          SpeechClarityEnhancer.combined st
          ++ silent ((SpeechClarityEnhancer.start segment
                      - SpeechClarityEnhancer.last_end st) * 1000) ++ a;
        SpeechClarityEnhancer.last_end := SpeechClarityEnhancer.end_ segment |},
     inr tt).
Proof.
  intros Hload.
  unfold SpeechClarityEnhancer.combine_iter, SEMonad.try_except,
    SpeechClarityEnhancer.combine_body.
  unfold mbind, SE_bind, SEMonad.bind, SEMonad.lift, SEMonad.get,
    SEMonad.modify, mret, SE_ret, SEMonad.ret.
  rewrite Hload.
  set (gap := (SpeechClarityEnhancer.start segment
               - SpeechClarityEnhancer.last_end st) * 1000).
  destruct (PyNum.ltb 0 (PyNum.max 0 gap)) eqn:E; simpl.
  - unfold SpeechClarityEnhancer.add_combined, SpeechClarityEnhancer.set_last_end;
      simpl.
    rewrite silent_max, <- app_assoc. reflexivity.
  - unfold SpeechClarityEnhancer.add_combined, SpeechClarityEnhancer.set_last_end;
      simpl.
    assert (Hs : silent gap = []).
    { rewrite <- silent_max. unfold silent. now rewrite E. }
    rewrite Hs. reflexivity.
Qed.

Lemma combine_loop_reference (files : list SpeechClarityEnhancer.Synthesized)
    (triples : list Reference.SynthesizedSegment)
    (st : SpeechClarityEnhancer.CombineState) :
  Forall2 (carries_file fs) files triples ->
  SpeechClarityEnhancer.combine_loop fs files st
  = ({| SpeechClarityEnhancer.combined :=
          fst (Reference.assemble_from (SpeechClarityEnhancer.combined st)
                 (SpeechClarityEnhancer.last_end st) triples);
        SpeechClarityEnhancer.last_end :=
          snd (Reference.assemble_from (SpeechClarityEnhancer.combined st)
                 (SpeechClarityEnhancer.last_end st) triples) |}, inr tt).
Proof.
  intros H. revert st.
  induction H as [|x r xs rs Hx Hxs IH]; intros st.
  - simpl. now destruct st.
  - destruct Hx as (Hl & Hs & He).
    unfold SpeechClarityEnhancer.combine_loop in *. simpl.
    unfold SEMonad.bind at 1.
    rewrite (combine_iter_loaded x _ st Hl), IH. simpl.
    rewrite Hs, He. unfold Reference.silence.
    destruct (PyNum.ltb 0 (Reference.start r - SpeechClarityEnhancer.last_end st))
      eqn:E.
    + rewrite <- app_assoc. reflexivity.
    + assert (Hs0 : silent ((Reference.start r
                             - SpeechClarityEnhancer.last_end st) * 1000) = []).
      { unfold silent. now rewrite ltb_scale, E. }
      rewrite Hs0. reflexivity.
Qed.

End CombineIterations.

(** The cursor the reference loop ends with is the end of the last
    segment it was given. *)
Lemma assemble_from_cursor (triples : list Reference.SynthesizedSegment)
    (combined : Audio.AudioSegment) (last_end_time : Q) :
  snd (Reference.assemble_from combined last_end_time triples)
  = default last_end_time (Reference.end_ <$> last triples).
Proof.
  revert combined last_end_time.
  induction triples as [|r rs IH]; intros c l; simpl; [reflexivity|].
  rewrite IH. destruct rs as [|r' rs]; [reflexivity|].
  change (last (r :: r' :: rs)) with (last (r' :: rs)).
  destruct (last (r' :: rs)) as [x|] eqn:E; [reflexivity|].
  apply last_None in E. discriminate.
Qed.

(* ===================================================================== *)
(** ** Timeline assembly *)
(* ===================================================================== *)

Section Assembly.
Import Audio.
Import Statements.
Local Open Scope Q_scope.
Local Open Scope list_scope.

(** C1.  Assembly is the reference algorithm of the specification: when
    every segment carries its audio asset and its original start and end,
    [AudioMixer.mix] (timing kept) and [combine_audio] both export what the
    reference loop builds from an empty asset and a cursor at 0 (silence for
    each positive gap [start - last_end_time], then the audio unchanged, the
    cursor set to the segment's original end), and the mixer's cursor ends
    at the original end of the last segment.  In particular, for Scenario A
    the export is the first audio, one second of silence, the second audio:
    four seconds in all. *)
Theorem assembly_matches_reference
    (fs : gmap string file_content)
    (segments : list AudioMixer.Segment)
    (files : list SpeechClarityEnhancer.Synthesized)
    (triples : list Reference.SynthesizedSegment)
    (output_path output_dir output_name : string) :
  Forall2 (carries fs) segments triples ->
  Forall2 (carries_file fs) files triples ->
  AudioMixer.mix fs segments output_path true
  = inr {| AudioMixer.output_file := output_path;
           AudioMixer.audio := Reference.assemble triples |}
  /\ AudioMixer.last_end_time (mix_run fs true segments AudioMixer.init)
     = default 0 (Reference.end_ <$> last triples)
  /\ SpeechClarityEnhancer.combine_audio output_dir fs files output_name
     = inr (OutputName.path_join output_dir
              (OutputName.safe_title output_name +:+ "_enhanced.mp3"),
            Reference.assemble triples)
  /\ AudioMixer.mix scenario_fs scenario_segments output_path true
     = inr {| AudioMixer.output_file := output_path;
              AudioMixer.audio :=
                [Sound "hello" 2000; Silence 1000; Sound "world" 1000] |}
  /\ len [Sound "hello" 2000; Silence 1000; Sound "world" 1000] == 4 * 1000.
Proof.
  intros Hmix Hfiles.
  split; [|split; [|split; [|split]]].
  - rewrite mix_of_run, (mix_run_reference fs segments triples _ Hmix).
    reflexivity.
  - rewrite (mix_run_reference fs segments triples _ Hmix). simpl.
    apply assemble_from_cursor.
  - unfold SpeechClarityEnhancer.combine_audio.
    rewrite (combine_loop_reference fs files triples _ Hfiles). reflexivity.
  - rewrite mix_of_run. vm_compute. reflexivity.
  - vm_compute. reflexivity.
Qed.

(** Scenario A satisfies the hypotheses of [assembly_matches_reference]. *)
Lemma assembly_matches_reference_scenario :
  Forall2 (carries scenario_fs) scenario_segments scenario_reference
  /\ Forall2 (carries_file scenario_fs) scenario_files scenario_reference
  /\ AudioMixer.mix scenario_fs scenario_segments "out.mp3" true
     = inr {| AudioMixer.output_file := "out.mp3";
              AudioMixer.audio := Reference.assemble scenario_reference |}
  /\ SpeechClarityEnhancer.combine_audio "enhanced_audio" scenario_fs
       scenario_files "Talk"
     = inr ("enhanced_audio/Talk_enhanced.mp3",
            Reference.assemble scenario_reference).
Proof.
  assert (H1 : Forall2 (carries scenario_fs) scenario_segments scenario_reference).
  { repeat constructor.
    - exists "segment_0000.wav". repeat split; vm_compute; reflexivity.
    - exists "segment_0001.wav". repeat split; vm_compute; reflexivity. }
  assert (H2 : Forall2 (carries_file scenario_fs) scenario_files scenario_reference).
  { repeat constructor; vm_compute; reflexivity. }
  destruct (assembly_matches_reference scenario_fs scenario_segments
              scenario_files scenario_reference "out.mp3" "enhanced_audio" "Talk"
              H1 H2) as (Hm & _ & Hc & _).
  repeat split; assumption.
Defined.

(** C2.  In every run of the mixer with timing kept, at whatever place of
    the sequence a segment whose audio loads stands, the iteration appends
    silence only, of duration exactly [max(0, start - last_end_time)]
    (in milliseconds, so never negative), and then the whole audio; when
    the start lies before the cursor nothing is inserted and nothing
    trimmed; and neither the iteration nor the whole call raises. *)
Theorem mix_silence_never_negative
    (fs : gmap string file_content)
    (before after : list AudioMixer.Segment) (segment : AudioMixer.Segment)
    (path : string) (a : AudioSegment) (output_path : string) :
  AudioMixer.audio_file segment = Some path ->
  PyStr.is_empty path = false ->
  from_file fs path = inr a ->
  let st := mix_run fs true before AudioMixer.init in
  let start_time :=
    default (AudioMixer.last_end_time st) (AudioMixer.start segment) in
  exists inserted st',
    AudioMixer.mix_iter fs true segment st = (st', inr tt)
    /\ AudioMixer.combined st' = AudioMixer.combined st ++ inserted ++ a
    /\ Forall (fun p => is_silence p = true) inserted
    /\ len inserted == Qmax 0 (start_time - AudioMixer.last_end_time st) * 1000
    /\ 0 <= len inserted
    /\ (start_time < AudioMixer.last_end_time st -> inserted = [])
    /\ mix_run fs true (before ++ segment :: after) AudioMixer.init
       = mix_run fs true after st'
    /\ exists exported,
         AudioMixer.mix fs (before ++ segment :: after) output_path true
         = inr exported.
Proof.
  intros Hf Hne Hl st start_time.
  set (gap := start_time - AudioMixer.last_end_time st).
  exists (silent (gap * 1000)).
  eexists. split; [apply (mix_iter_loaded fs segment path a st Hf Hne Hl)|].
  simpl. fold start_time. fold gap.
  assert (Hlen : len (silent (gap * 1000)) == Qmax 0 gap * 1000).
  { rewrite len_silent.
    destruct (Qlt_le_dec 0 gap) as [Hpos|Hneg].
    - rewrite !Q.max_r by lra. reflexivity.
    - rewrite !Q.max_l by lra. lra. }
  split; [reflexivity|].
  split; [|split; [|split; [|split; [|split]]]].
  - apply silent_all_silence.
  - exact Hlen.
  - rewrite len_silent. apply Q.le_max_l.
  - intros Hlt. unfold silent.
    assert (E : PyNum.ltb 0 (gap * 1000) = false).
    { apply ltb_false. unfold gap. lra. }
    now rewrite E.
  - rewrite mix_run_app, mix_run_cons. fold st.
    rewrite (mix_iter_loaded fs segment path a st Hf Hne Hl). reflexivity.
  - eexists. apply mix_of_run.
Qed.

(** Scenario C: a segment that starts before the cursor left by its
    predecessor satisfies the hypotheses of [mix_silence_never_negative]. *)
Lemma mix_silence_never_negative_overlap :
  exists (inserted : AudioSegment) st',
    AudioMixer.mix_iter scenario_fs true
      (AudioMixer.mkSegment (Some "segment_0001.wav") (Some 1) (Some 4))
      (mix_run scenario_fs true
         [AudioMixer.mkSegment (Some "segment_0000.wav") (Some 0) (Some 2)]
         AudioMixer.init)
    = (st', inr tt)
    /\ inserted = []
    /\ AudioMixer.combined st' = [Sound "hello" 2000; Sound "world" 1000].
Proof.
  destruct (mix_silence_never_negative scenario_fs
              [AudioMixer.mkSegment (Some "segment_0000.wav") (Some 0) (Some 2)]
              []
              (AudioMixer.mkSegment (Some "segment_0001.wav") (Some 1) (Some 4))
              "segment_0001.wav" [Sound "world" 1000] "out.mp3"
              eq_refl eq_refl eq_refl)
    as (inserted & st' & Hiter & Hcomb & _ & _ & _ & Hnone & _).
  exists inserted, st'. split; [exact Hiter|].
  assert (Hin : inserted = []) by (apply Hnone; vm_compute; reflexivity).
  split; [exact Hin|]. rewrite Hcomb, Hin. vm_compute. reflexivity.
Defined.

(** C7.  A segment with no audio file, or whose file does not load, is
    skipped: its iteration returns normally leaving the combined audio and
    the cursor [last_end_time] as they were, and the call exports what it
    would export had the segment not been in the sequence. *)
Theorem mix_skips_unloadable
    (fs : gmap string file_content) (maintain_timing : bool)
    (before after : list AudioMixer.Segment) (segment : AudioMixer.Segment)
    (output_path : string) :
  unloadable fs segment ->
  (forall st, AudioMixer.mix_iter fs maintain_timing segment st = (st, inr tt))
  /\ mix_run fs maintain_timing (before ++ segment :: after) AudioMixer.init
     = mix_run fs maintain_timing (before ++ after) AudioMixer.init
  /\ AudioMixer.mix fs (before ++ segment :: after) output_path maintain_timing
     = AudioMixer.mix fs (before ++ after) output_path maintain_timing.
Proof.
  intros Hun.
  assert (Hrun : forall st0,
             mix_run fs maintain_timing (before ++ segment :: after) st0
             = mix_run fs maintain_timing (before ++ after) st0).
  { intros st0. rewrite !mix_run_app, mix_run_cons.
    now rewrite mix_iter_unloadable by assumption. }
  repeat split.
  - intros st. now apply mix_iter_unloadable.
  - apply Hrun.
  - rewrite !mix_of_run, Hrun. reflexivity.
Qed.

(** A file that is missing between the two of Scenario A satisfies the
    hypothesis of [mix_skips_unloadable]. *)
Lemma mix_skips_unloadable_missing_file :
  unloadable scenario_fs
    (AudioMixer.mkSegment (Some "segment_0007.wav") (Some 2) (Some 60))
  /\ AudioMixer.mix scenario_fs
       ([AudioMixer.mkSegment (Some "segment_0000.wav") (Some 0) (Some 2)]
        ++ AudioMixer.mkSegment (Some "segment_0007.wav") (Some 2) (Some 60)
        :: [AudioMixer.mkSegment (Some "segment_0001.wav") (Some 3) (Some 4)])
       "out.mp3" true
     = inr {| AudioMixer.output_file := "out.mp3";
              AudioMixer.audio :=
                [Sound "hello" 2000; Silence 1000; Sound "world" 1000] |}.
Proof.
  assert (Hun : unloadable scenario_fs
            (AudioMixer.mkSegment (Some "segment_0007.wav") (Some 2) (Some 60))).
  { right. exists (FileNotFoundError "segment_0007.wav"). vm_compute. reflexivity. }
  split; [exact Hun|].
  destruct (mix_skips_unloadable scenario_fs true
              [AudioMixer.mkSegment (Some "segment_0000.wav") (Some 0) (Some 2)]
              [AudioMixer.mkSegment (Some "segment_0001.wav") (Some 3) (Some 4)]
              _ "out.mp3" Hun) as (_ & _ & Hmix).
  rewrite Hmix. vm_compute. reflexivity.
Defined.

(** C10.  [mix] called without [maintain_timing] is [mix] with
    [maintain_timing=True]; with [maintain_timing=False] it exports the
    audio of the loadable segments back to back in input order, with no
    silence of its own, and the result does not depend on the segments'
    start and end. *)
Theorem mix_without_timing
    (fs : gmap string file_content) (segments : list AudioMixer.Segment)
    (output_path : string) :
  AudioMixer.mix_default fs segments output_path
  = AudioMixer.mix fs segments output_path true
  /\ AudioMixer.mix fs segments output_path false
     = inr {| AudioMixer.output_file := output_path;
              AudioMixer.audio := concat (map (loaded fs) segments) |}
  /\ forall f : AudioMixer.Segment -> option Q * option Q,
       AudioMixer.mix fs (map (retime f) segments) output_path false
       = AudioMixer.mix fs segments output_path false.
Proof.
  split; [reflexivity|].
  assert (H : forall segs,
             AudioMixer.mix fs segs output_path false
             = inr {| AudioMixer.output_file := output_path;
                      AudioMixer.audio := concat (map (loaded fs) segs) |}).
  { intros segs. rewrite mix_of_run, mix_run_untimed. reflexivity. }
  split; [apply H|].
  intros f. rewrite !H, map_map. reflexivity.
Qed.

End Assembly.

(* ===================================================================== *)
(** ** Cleaning *)
(* ===================================================================== *)

Section Cleaning.
Import Transcript.
Local Open Scope list_scope.

Variable _remove_disfluencies : string -> string.
Variable _simplify_language : string -> string.
Variable self : TextProcessor.t.

Let cleaner : string -> string :=
  TextProcessor.clean_text _remove_disfluencies _simplify_language self.

Let cleaned (s : Segment) : Segment :=
  {| text := cleaner (text s); start := start s; end_ := end_ s |}.

Lemma truthy_nonempty (s : string) : PyStr.truthy s = true <-> s <> "".
Proof.
  unfold PyStr.truthy. destruct s; simpl; split; intros H;
    try discriminate; try reflexivity.
  now contradiction H.
Qed.

(** The loop of [process], from any accumulated list. *)
Lemma process_loop (segs acc : list Segment) :
  foldl (TextProcessor.process_iter _remove_disfluencies _simplify_language self)
    acc segs
  = acc ++ map cleaned
             (filter (fun s => PyStr.strip (cleaner (text s)) <> "") segs).
Proof.
  revert acc. induction segs as [|s segs IH]; intros acc; simpl.
  - now rewrite app_nil_r.
  - rewrite IH, filter_cons. unfold TextProcessor.process_iter.
    fold cleaner.
    destruct (decide (PyStr.strip (cleaner (text s)) <> "")) as [Hne|He].
    + apply truthy_nonempty in Hne. rewrite Hne. simpl.
      rewrite <- app_assoc. reflexivity.
    + assert (Ht : PyStr.truthy (PyStr.strip (cleaner (text s))) = false).
      { destruct (PyStr.truthy _) eqn:E; [|reflexivity].
        apply truthy_nonempty in E. contradiction. }
      rewrite Ht. reflexivity.
Qed.

(** C8.  When the cleaner is the identity, [process] returns the input
    segments themselves, in order, without those whose text strips to the
    empty string. *)
Theorem process_identity_cleaner (full : string) (segs : list Segment) :
  (forall x, cleaner x = x) ->
  TextProcessor.processed_segments
    (TextProcessor.process _remove_disfluencies _simplify_language self
       {| full_text := full; segments := Some segs |})
  = filter (fun s => PyStr.strip (text s) <> "") segs.
Proof.
  intros Hid.
  unfold TextProcessor.process. simpl. rewrite process_loop. simpl.
  induction segs as [|s rest IH]; [reflexivity|].
  rewrite !filter_cons, Hid.
  destruct (decide (PyStr.strip (text s) <> "")); simpl.
  - rewrite IH. f_equal. unfold cleaned. rewrite Hid. now destruct s.
  - exact IH.
Qed.

End Cleaning.

(** With both flags off the cleaner is the identity, and the hypothesis of
    [process_identity_cleaner] holds. *)
Lemma process_identity_cleaner_flags_off :
  TextProcessor.processed_segments
    (TextProcessor.process (fun _ => "removed") (fun _ => "simplified")
       {| TextProcessor.remove_disfluencies := false;
          TextProcessor.simplify_language := false |}
       {| Transcript.full_text := "hello world";
          Transcript.segments :=
            Some [ Transcript.mkSegment " hello" 0 2;
                   Transcript.mkSegment "  " 2 3;
                   Transcript.mkSegment "world" 3 4 ] |})
  = [ Transcript.mkSegment " hello" 0 2; Transcript.mkSegment "world" 3 4 ].
Proof.
  rewrite (process_identity_cleaner (fun _ => "removed") (fun _ => "simplified")
             {| TextProcessor.remove_disfluencies := false;
                TextProcessor.simplify_language := false |}
             "hello world" _ (fun x => eq_refl)).
  vm_compute. reflexivity.
Defined.

(** C9.  On an empty sequence both operations return: the mixer (either
    way of timing) and [combine_audio] export an asset of duration zero,
    and [process] returns the empty list with a reduction of 0. *)
Theorem empty_input_succeeds
    (fs : gmap string Audio.file_content) (maintain_timing : bool)
    (output_path output_dir output_name full : string)
    (_remove_disfluencies _simplify_language : string -> string)
    (self : TextProcessor.t) :
  (exists exported,
      AudioMixer.mix fs [] output_path maintain_timing = inr exported
      /\ AudioMixer.audio exported = []
      /\ (Audio.len (AudioMixer.audio exported) == 0)%Q)
  /\ (exists output_file exported,
         SpeechClarityEnhancer.combine_audio output_dir fs [] output_name
         = inr (output_file, exported)
         /\ (Audio.len exported == 0)%Q)
  /\ TextProcessor.process _remove_disfluencies _simplify_language self
       {| Transcript.full_text := full; Transcript.segments := Some [] |}
     = {| TextProcessor.processed_segments := [];
          TextProcessor.original_word_count := 0;
          TextProcessor.processed_word_count := 0;
          TextProcessor.reduction_percent := 0 |}.
Proof.
  split; [|split].
  - eexists. split; [reflexivity|]. split; reflexivity.
  - eexists _, _. split; reflexivity.
  - reflexivity.
Qed.

(* ===================================================================== *)
(** ** Synthesis *)
(* ===================================================================== *)

Section Enumerate.
Context {A : Type}.
Import Statements.

Lemma elem_of_enumerate_from (xs : list A) (i j : nat) (x : A) :
  (j, x) ∈ enumerate_from i xs <-> (i <= j)%nat /\ xs !! (j - i)%nat = Some x.
Proof.
  revert i. induction xs as [|y ys IH]; intros i; simpl.
  - split; [intros H; inversion H|intros [_ H]; discriminate].
  - rewrite elem_of_cons, IH. split.
    + intros [Heq|[Hle Hl]].
      * injection Heq as -> ->. split; [lia|]. now rewrite Nat.sub_diag.
      * split; [lia|]. replace (j - i)%nat with (S (j - S i)) by lia. exact Hl.
    + intros [Hle Hl]. destruct (decide (j = i)) as [->|Hne].
      * left. rewrite Nat.sub_diag in Hl. simpl in Hl. congruence.
      * right. split; [lia|].
        replace (j - i)%nat with (S (j - S i)) in Hl by lia. exact Hl.
Qed.

(** The indices that survive a filter of an enumeration come in strictly
    increasing order, none below the first index. *)
Lemma enumerate_filter_sorted (P : nat * A -> bool) (xs : list A) (i : nat) :
  StronglySorted lt
    (map fst (filter (fun p => P p = true) (enumerate_from i xs)))
  /\ Forall (fun j => (i <= j)%nat)
       (map fst (filter (fun p => P p = true) (enumerate_from i xs))).
Proof.
  revert i. induction xs as [|y ys IH]; intros i; simpl.
  - split; constructor.
  - destruct (IH (S i)) as [Hs Hf]. rewrite filter_cons.
    destruct (decide (P (i, y) = true)); simpl.
    + split.
      * constructor; [exact Hs|].
        eapply Forall_impl; [exact Hf|]. intros j Hj. simpl in Hj. lia.
      * constructor; [lia|].
        eapply Forall_impl; [exact Hf|]. intros j Hj. simpl in Hj. lia.
    + split; [exact Hs|].
      eapply Forall_impl; [exact Hf|]. intros j Hj. simpl in Hj. lia.
Qed.

End Enumerate.

Section Synthesis.
Import Statements.
Local Open Scope list_scope.

Variable _synthesize_text : string -> string -> exn + unit.
Variable temp_dir : string.
Variable gettempdir : string.

(** The segment at index [i] is synthesized: its text does not strip to
    the empty string and the synthesizer returns for it. *)
Let kept (p : nat * Transcript.Segment) : bool :=
  PyStr.truthy (PyStr.strip (Transcript.text (snd p)))
  && is_inr (_synthesize_text (PyStr.strip (Transcript.text (snd p)))
               (SpeechSynthesizer.output_file_of temp_dir (fst p))).

(** The entry appended for the segment at index [i]. *)
Let entry (p : nat * Transcript.Segment) : SpeechSynthesizer.Synthesized :=
  {| SpeechSynthesizer.text := PyStr.strip (Transcript.text (snd p));
     SpeechSynthesizer.start := Transcript.start (snd p);
     SpeechSynthesizer.end_ := Transcript.end_ (snd p);
     SpeechSynthesizer.audio_file :=
       SpeechSynthesizer.output_file_of temp_dir (fst p) |}.

Lemma synthesize_iter_step (i : nat) (segment : Transcript.Segment)
    (acc : list SpeechSynthesizer.Synthesized) :
  SpeechSynthesizer.synthesize_iter _synthesize_text temp_dir i segment acc
  = (if kept (i, segment) then acc ++ [entry (i, segment)] else acc, inr tt).
Proof.
  unfold SpeechSynthesizer.synthesize_iter, kept, entry. simpl.
  destruct (PyStr.truthy (PyStr.strip (Transcript.text segment))); simpl;
    [|reflexivity].
  unfold SEMonad.try_except, mbind, SE_bind, SEMonad.bind, SEMonad.lift,
    SEMonad.modify.
  destruct (_synthesize_text _ _) as [e|[]]; reflexivity.
Qed.

(** The first loop of [synthesize], from any index and accumulated list. *)
Lemma synthesize_loop (segments : list Transcript.Segment) (i : nat)
    (acc : list SpeechSynthesizer.Synthesized) :
  SEMonad.for_enumerate
    (SpeechSynthesizer.synthesize_iter _synthesize_text temp_dir) i segments acc
  = (acc ++ map entry
              (filter (fun p => kept p = true) (enumerate_from i segments)),
     inr tt).
Proof.
  revert i acc. induction segments as [|s rest IH]; intros i acc; simpl.
  - now rewrite app_nil_r.
  - unfold SEMonad.bind at 1. rewrite synthesize_iter_step, IH, filter_cons.
    destruct (kept (i, s)) eqn:E; simpl.
    + destruct (decide (true = true)); [|congruence].
      simpl. now rewrite <- app_assoc.
    + destruct (decide (false = true)); [discriminate|]. reflexivity.
Qed.

(** C3.  [synthesize] always returns, and what it returns is a
    subsequence of its input by index: there are strictly increasing
    indices, one per output entry, such that the entry has the start and
    the end (and the stripped text) of the input segment at its index.
    An index is among them exactly when the segment's text is not blank
    and the synthesizer returned for it: a segment whose synthesis raises
    is left out and the segments after it are still processed. *)
Theorem synthesize_subsequence (segments : list Transcript.Segment) :
  exists (out : list SpeechSynthesizer.Synthesized) (indices : list nat),
    SpeechSynthesizer.synthesize _synthesize_text temp_dir gettempdir segments
    = inr out
    /\ StronglySorted lt indices
    /\ Forall2
         (fun i o =>
            exists segment,
              segments !! i = Some segment
              /\ SpeechSynthesizer.start o = Transcript.start segment
              /\ SpeechSynthesizer.end_ o = Transcript.end_ segment
              /\ SpeechSynthesizer.text o
                 = PyStr.strip (Transcript.text segment))
         indices out
    /\ forall i segment,
         segments !! i = Some segment ->
         (i ∈ indices
          <-> PyStr.strip (Transcript.text segment) <> ""
              /\ exists u,
                   _synthesize_text (PyStr.strip (Transcript.text segment))
                     (SpeechSynthesizer.output_file_of temp_dir i) = inr u).
Proof.
  set (survivors := filter (fun p => kept p = true) (enumerate_from 0 segments)).
  exists (map (SpeechSynthesizer.relocate gettempdir) (map entry survivors)),
         (map fst survivors).
  split; [|split; [|split]].
  - unfold SpeechSynthesizer.synthesize. now rewrite synthesize_loop.
  - apply (enumerate_filter_sorted kept segments 0).
  - rewrite map_map. apply Forall2_fmap, Forall_Forall2_diag, Forall_forall.
    intros [i s] Hin. apply list_elem_of_filter in Hin as [_ Hin].
    apply elem_of_enumerate_from in Hin as [_ Hl].
    rewrite Nat.sub_0_r in Hl. exists s. simpl. auto.
  - intros i s Hl. rewrite list_elem_of_fmap. split.
    + intros ([j s'] & -> & Hin). simpl in *.
      apply list_elem_of_filter in Hin as [Hk Hin].
      apply elem_of_enumerate_from in Hin as [_ Hl'].
      rewrite Nat.sub_0_r in Hl'. assert (s' = s) as -> by congruence.
      unfold kept in Hk. simpl in Hk. apply andb_true_iff in Hk as [Ht Hs].
      split; [now apply truthy_nonempty|].
      destruct (_synthesize_text _ _) as [e|u]; [discriminate|eauto].
    + intros [Hne [u Hu]]. exists (i, s). split; [reflexivity|].
      apply list_elem_of_filter. split.
      * unfold kept. simpl. rewrite Hu. simpl.
        apply andb_true_iff. split; [now apply truthy_nonempty|reflexivity].
      * apply elem_of_enumerate_from. rewrite Nat.sub_0_r. split; [lia|exact Hl].
Qed.

End Synthesis.

(* ===================================================================== *)
(** ** Output names *)
(* ===================================================================== *)

Section Names.
Local Open Scope list_scope.

Lemma underscore_code (c : ascii) : (PyStr.code c =? 95)%N = Ascii.eqb c "_".
Proof. destruct c as [[] [] [] [] [] [] [] []]; reflexivity. Qed.

Lemma chars_re_sub_delete (keep : ascii -> bool) (s : string) :
  list_ascii_of_string (PyStr.re_sub_delete keep s)
  = List.filter keep (list_ascii_of_string s).
Proof.
  induction s as [|c s IH]; simpl; [reflexivity|].
  destruct (keep c); simpl; now rewrite IH.
Qed.

Lemma chars_replace (old new : ascii) (s : string) :
  list_ascii_of_string (PyStr.replace old new s)
  = map (fun c => if Ascii.eqb c old then new else c) (list_ascii_of_string s).
Proof. induction s as [|c s IH]; simpl; [reflexivity|]. now rewrite IH. Qed.

Lemma chars_lstrip (s : string) :
  list_ascii_of_string (PyStr.lstrip s)
  = Reference.drop_while PyStr.isspace (list_ascii_of_string s).
Proof.
  induction s as [|c s IH]; simpl; [reflexivity|].
  destruct (PyStr.isspace c); [exact IH|reflexivity].
Qed.

Lemma drop_while_snoc (p : ascii -> bool) (l : list ascii) (c : ascii) :
  Reference.drop_while p (l ++ [c])
  = match Reference.drop_while p l with
    | [] => if p c then [] else [c]
    | r => r ++ [c]
    end.
Proof.
  induction l as [|d l IH]; simpl; [reflexivity|].
  destruct (p d); [exact IH|reflexivity].
Qed.

Lemma chars_empty (s : string) :
  PyStr.is_empty s = true <-> list_ascii_of_string s = [].
Proof. destruct s; simpl; split; congruence. Qed.

Lemma chars_rstrip (s : string) :
  list_ascii_of_string (PyStr.rstrip s)
  = rev (Reference.drop_while PyStr.isspace (rev (list_ascii_of_string s))).
Proof.
  induction s as [|c s IH]; [reflexivity|].
  cbn [PyStr.rstrip list_ascii_of_string rev]. rewrite drop_while_snoc.
  destruct (Reference.drop_while PyStr.isspace (rev (list_ascii_of_string s)))
    as [|d r] eqn:E.
  - simpl in IH. destruct (PyStr.rstrip s) as [|d r]; [|discriminate].
    simpl. rewrite andb_true_r. destruct (PyStr.isspace c); reflexivity.
  - assert (Hne : PyStr.is_empty (PyStr.rstrip s) = false).
    { destruct (PyStr.is_empty (PyStr.rstrip s)) eqn:Hemp; [|reflexivity].
      apply chars_empty in Hemp. rewrite Hemp in IH.
      apply (f_equal (@length ascii)) in IH.
      rewrite length_rev in IH. simpl in IH. lia. }
    rewrite Hne, andb_false_r. cbn [list_ascii_of_string].
    rewrite rev_app_distr. simpl. now rewrite IH.
Qed.

Lemma chars_strip (s : string) :
  list_ascii_of_string (PyStr.strip s) = Reference.trim (list_ascii_of_string s).
Proof.
  unfold PyStr.strip, Reference.trim. now rewrite chars_lstrip, chars_rstrip.
Qed.

(** C4, as the code has it.  The output name is the title with every
    character deleted that is not alphanumeric, underscore, whitespace or
    hyphen, then stripped of leading and trailing whitespace, then with
    every space character replaced by one underscore, character for
    character: so the name contains no space, runs of spaces are not
    collapsed and other whitespace stays. *)
Theorem safe_title_replaces_each_space (title : string) :
  list_ascii_of_string (OutputName.safe_title title)
  = map Reference.space_to_underscore
      (Reference.trim
         (List.filter
            (fun c => PyStr.isalnum c || Ascii.eqb c "_"
                      || PyStr.isspace c || Ascii.eqb c "-")
            (list_ascii_of_string title)))
  /\ Forall (fun c => c <> " "%char)
       (list_ascii_of_string (OutputName.safe_title title))
  /\ length (list_ascii_of_string (OutputName.safe_title title))
     = length (list_ascii_of_string
                 (PyStr.strip (PyStr.re_sub_delete OutputName.keep title))).
Proof.
  assert (Hchars : list_ascii_of_string (OutputName.safe_title title)
            = map Reference.space_to_underscore
                (list_ascii_of_string
                   (PyStr.strip (PyStr.re_sub_delete OutputName.keep title)))).
  { unfold OutputName.safe_title. now rewrite chars_replace. }
  split; [|split].
  - rewrite Hchars, chars_strip, chars_re_sub_delete.
    do 2 f_equal. apply List.filter_ext. intros c.
    unfold OutputName.keep, PyStr.isword. now rewrite underscore_code.
  - rewrite Hchars. apply Forall_forall. intros c Hin.
    apply list_elem_of_fmap in Hin as (d & -> & _).
    unfold Reference.space_to_underscore.
    destruct (Ascii.eqb d " ") eqn:E; [discriminate|].
    now apply Ascii.eqb_neq.
  - now rewrite Hchars, length_map.
Qed.

(** C4, as the specification words it, fails: two spaces between two
    words give two underscores where a collapsed run would give one. *)
Lemma safe_title_keeps_runs :
  OutputName.safe_title "a  b" = "a__b"
  /\ Reference.sanitize "a  b" = "a_b"
  /\ OutputName.safe_title "a  b" <> Reference.sanitize "a  b".
Proof. repeat split. discriminate. Qed.

End Names.

(* ===================================================================== *)
(** ** The orchestrator *)
(* ===================================================================== *)

Section Orchestrator.
Import EnhancedSpeechTool.
Import Statements.
Local Open Scope list_scope.

Lemma artifacts_temp (w : World) (name : string) :
  artifacts (w ++ [(TempDir, name)]) = artifacts w.
Proof.
  unfold artifacts. rewrite filter_app, filter_cons. simpl.
  destruct (decide (is_output (TempDir, name) = true)) as [H|_];
    [discriminate|].
  rewrite filter_nil, app_nil_r. reflexivity.
Qed.

Ltac run_stages :=
  unfold process, process_body, SEMonad.try_except, mbind, SE_bind,
    SEMonad.bind, SEMonad.lift, SEMonad.raise, write, SEMonad.modify;
  simpl.

Lemma artifacts_output (w : World) (name : string) :
  artifacts (w ++ [(OutputDir, name)]) = artifacts w ++ [name].
Proof.
  unfold artifacts. rewrite filter_app, filter_cons. simpl.
  destruct (decide (is_output (OutputDir, name) = true)) as [_|H];
    [|now contradiction H].
  rewrite filter_nil, map_app. reflexivity.
Qed.

(** C5, as the code has it.  When a stage raises, [process] raises too,
    and the exception it raises is the very one the stage raised (the
    underlying cause, with nothing added to it).  A run that fails before
    the mixer has written nothing to the output directory; a run in which
    the mixer raises leaves there the file of the export, if the export
    had created it, and nothing else. *)
Theorem process_reraises_cause (self : Components)
    (source source_type : string) (s : stage) (e : exn) (w : World) :
  fails_at self source source_type s e ->
  exists w',
    process self source source_type w = (w', inl e)
    /\ artifacts w'
       = artifacts w
         ++ match s with
            | Mixing => left_by_mixer self source source_type
            | _ => []
            end.
Proof.
  destruct s; simpl.
  - intros He. exists w. run_stages. rewrite He.
    split; [reflexivity|now rewrite app_nil_r].
  - intros (audio_path & title & Hx & He). exists w.
    run_stages. rewrite Hx. simpl. rewrite He.
    split; [reflexivity|now rewrite app_nil_r].
  - intros (audio_path & title & tr & Hx & Ht & He).
    exists (w ++ [(TempDir, "raw_transcript.json")]).
    run_stages. rewrite Hx. simpl. rewrite Ht, He.
    split; [reflexivity|now rewrite artifacts_temp, app_nil_r].
  - intros (audio_path & title & tr & segs & Hx & Ht & Hp & He).
    exists ((w ++ [(TempDir, "raw_transcript.json")])
              ++ [(TempDir, "processed_transcript.json")]).
    run_stages. rewrite Hx. simpl. rewrite Ht, Hp, He.
    split; [reflexivity|now rewrite !artifacts_temp, app_nil_r].
  - intros (audio_path & title & tr & segs & syn & Hx & Ht & Hp & Hs
            & created & He).
    unfold left_by_mixer. rewrite Hx, Ht, Hp, Hs. cbv zeta. rewrite He.
    destruct created.
    + exists (((w ++ [(TempDir, "raw_transcript.json")])
                 ++ [(TempDir, "processed_transcript.json")])
                ++ [(OutputDir, OutputName.safe_title title +:+ "_enhanced.mp3")]).
      run_stages. rewrite Hx. simpl. rewrite Ht, Hp, Hs, He.
      split; [reflexivity|].
      now rewrite artifacts_output, !artifacts_temp.
    + exists ((w ++ [(TempDir, "raw_transcript.json")])
                ++ [(TempDir, "processed_transcript.json")]).
      run_stages. rewrite Hx. simpl. rewrite Ht, Hp, Hs, He.
      split; [reflexivity|now rewrite !artifacts_temp, app_nil_r].
Qed.

(** A run whose mixer raises in the export, after the file was opened,
    satisfies the hypothesis of [process_reraises_cause]; the file is
    left behind. *)
Lemma process_reraises_cause_export :
  fails_at tool_failing_export "talk.mp3" "file" Mixing
    (RuntimeError "Encoding failed")
  /\ exists w',
       process tool_failing_export "talk.mp3" "file" []
       = (w', inl (RuntimeError "Encoding failed"))
       /\ artifacts w' = ["My_talk_enhanced.mp3"].
Proof.
  assert (H : fails_at tool_failing_export "talk.mp3" "file" Mixing
                (RuntimeError "Encoding failed")).
  { exists "audio.mp3", "My talk!",
      {| Transcript.full_text := "hello";
         Transcript.segments := Some [Transcript.mkSegment "hello" 0 2] |},
      [Transcript.mkSegment "hello" 0 2],
      [SpeechSynthesizer.mkSynthesized "hello" 0 2 "/tmp/segment_0000.wav"].
    repeat (split; [reflexivity|]). exists true. reflexivity. }
  split; [exact H|].
  exact (process_reraises_cause tool_failing_export "talk.mp3" "file"
           Mixing (RuntimeError "Encoding failed") [] H).
Defined.

(** C5, as the specification words it, fails on both counts.  No reading
    of the surfaced error gives the failing stage: an extractor and a
    transcriber raising the same exception surface the same error.  And a
    failed run can leave a partial output: the export that fails has
    created the output file. *)
Lemma failed_run_names_no_stage_and_may_leave_output :
  (~ exists stage_of : exn -> stage,
       forall (self : Components) (source source_type : string)
              (s : stage) (e e' : exn) (w w' : World),
         fails_at self source source_type s e ->
         process self source source_type w = (w', inl e') ->
         stage_of e' = s)
  /\ (~ forall (self : Components) (source source_type : string)
             (s : stage) (e e' : exn) (w w' : World),
         fails_at self source source_type s e ->
         process self source source_type w = (w', inl e') ->
         artifacts w' = artifacts w).
Proof.
  split.
  - intros [stage_of H].
    assert (H1 : stage_of (RuntimeError "failed") = Extraction).
    { apply (H tool_failing_extraction "talk.mp3" "file" Extraction
               (RuntimeError "failed") (RuntimeError "failed") [] []);
        reflexivity. }
    assert (H2 : stage_of (RuntimeError "failed") = Transcription).
    { apply (H tool_failing_transcription "talk.mp3" "file" Transcription
               (RuntimeError "failed") (RuntimeError "failed") [] []).
      - exists "audio.mp3", "Talk". split; reflexivity.
      - reflexivity. }
    congruence.
  - intros H.
    specialize (H tool_failing_export "talk.mp3" "file" Mixing
                  (RuntimeError "Encoding failed")
                  (RuntimeError "Encoding failed") []
                  [ (TempDir, "raw_transcript.json");
                    (TempDir, "processed_transcript.json");
                    (OutputDir, "My_talk_enhanced.mp3") ]).
    assert (Hf : fails_at tool_failing_export "talk.mp3" "file" Mixing
                   (RuntimeError "Encoding failed")).
    { exists "audio.mp3", "My talk!",
        {| Transcript.full_text := "hello";
           Transcript.segments := Some [Transcript.mkSegment "hello" 0 2] |},
        [Transcript.mkSegment "hello" 0 2],
        [SpeechSynthesizer.mkSynthesized "hello" 0 2 "/tmp/segment_0000.wav"].
      repeat (split; [reflexivity|]). exists true. reflexivity. }
    specialize (H Hf eq_refl). discriminate H.
Qed.

End Orchestrator.

(* ===================================================================== *)
(** ** Worked examples *)
(* ===================================================================== *)

Section Examples.
Import Audio.
Local Open Scope Q_scope.

(** Python's string methods on small inputs. *)
Example strip_example : PyStr.strip "  um hello  " = "um hello".
Proof. reflexivity. Qed.

Example strip_blank_example : PyStr.strip " 	 " = "".
Proof. reflexivity. Qed.

Example split_example : PyStr.split " a  b	c " = ["a"; "b"; "c"].
Proof. reflexivity. Qed.

Example split_blank_example : PyStr.split "   " = [].
Proof. reflexivity. Qed.

Example format_04d_example :
  PyStr.format_04d 7 = "0007" /\ PyStr.format_04d 123 = "0123".
Proof. split; reflexivity. Qed.

Example name_of_example :
  SpeechSynthesizer.name_of "/tmp/tmpdir/segment_0001.wav" = "segment_0001.wav".
Proof. reflexivity. Qed.

(** Output names: punctuation goes, the underscore and the tab stay, each
    space becomes an underscore. *)
Example safe_title_example :
  OutputName.safe_title " My talk: part_1  (final)! " = "My_talk_part_1__final".
Proof. reflexivity. Qed.

(** [max(0, x)] as Python computes it. *)
Example max_example : PyNum.max 0 (-3) = 0 /\ PyNum.max 0 (5 # 2) = 5 # 2.
Proof. split; reflexivity. Qed.

(** Scenario B: of three segments the second fails synthesis.  The result
    holds the first and the third, with their own times and the file names
    of their indices, and the mixer fills the gap between the end of the
    first and the start of the third. *)
Example scenario_b_synthesis :
  SpeechSynthesizer.synthesize (Statements.piper_failing_on "there")
    "/tmp/tmpdir" "/tmp" Statements.three_segments
  = inr [ SpeechSynthesizer.mkSynthesized "hello" 0 2 "/tmp/segment_0000.wav";
          SpeechSynthesizer.mkSynthesized "world" 5 6 "/tmp/segment_0002.wav" ].
Proof. vm_compute. reflexivity. Qed.

Example scenario_b_mix :
  AudioMixer.mix
    (<["/tmp/segment_0000.wav" := Decodable [Sound "hello" 1800]]>
       (<["/tmp/segment_0002.wav" := Decodable [Sound "world" 900]]> ∅))
    (map SpeechSynthesizer.to_mixer
       [ SpeechSynthesizer.mkSynthesized "hello" 0 2 "/tmp/segment_0000.wav";
         SpeechSynthesizer.mkSynthesized "world" 5 6 "/tmp/segment_0002.wav" ])
    "out.mp3" true
  = inr {| AudioMixer.output_file := "out.mp3";
           AudioMixer.audio :=
             [Sound "hello" 1800; Silence 3000; Sound "world" 900] |}.
Proof. vm_compute. reflexivity. Qed.

(** Scenario C: the first audio runs longer than its window; the gap of
    the second segment is still taken from the original end. *)
Example scenario_c_mix :
  AudioMixer.mix
    (<["a.wav" := Decodable [Sound "long" 3500]]>
       (<["b.wav" := Decodable [Sound "next" 1000]]> ∅))
    [ AudioMixer.mkSegment (Some "a.wav") (Some 0) (Some 2);
      AudioMixer.mkSegment (Some "b.wav") (Some 3) (Some 4) ]
    "out.mp3" true
  = inr {| AudioMixer.output_file := "out.mp3";
           AudioMixer.audio :=
             [Sound "long" 3500; Silence 1000; Sound "next" 1000] |}.
Proof. vm_compute. reflexivity. Qed.

(** A segment without the key ["end"]: the cursor moves to the start plus
    the length of the audio. *)
Example missing_end_example :
  AudioMixer.last_end_time
    (Statements.mix_run Statements.scenario_fs true
       [AudioMixer.mkSegment (Some "segment_0000.wav") (Some 1) None]
       AudioMixer.init)
  == 3.
Proof. vm_compute. reflexivity. Qed.

(** A whole run of the tool: the cleaned transcript is synthesized, mixed
    and written, with the transcript beside it. *)
Example process_example :
  EnhancedSpeechTool.process
    (Statements.assembled_tool (inr ("audio.mp3", "My talk!"))
       (inr {| Transcript.full_text := "um hello world";
               Transcript.segments := Some Statements.three_segments |})
       (fun _ _ => inr tt) ∅)
    "talk.mp3" "file" []
  = ([ (EnhancedSpeechTool.TempDir, "raw_transcript.json");
       (EnhancedSpeechTool.TempDir, "processed_transcript.json");
       (EnhancedSpeechTool.OutputDir, "My_talk_enhanced.mp3");
       (EnhancedSpeechTool.OutputDir, "My_talk_transcript.txt") ],
     inr "My_talk_enhanced.mp3").
Proof. vm_compute. reflexivity. Qed.

End Examples.

(* ===================================================================== *)
(** ** More on the mixer *)
(* ===================================================================== *)

Section MixerTiming.
Import Audio.
Import Statements.
Import Timing.
Local Open Scope Q_scope.
Local Open Scope list_scope.

Variable fs : gmap string file_content.

Lemma len_app (a b : AudioSegment) : len (a ++ b) == len a + len b.
Proof.
  induction a as [|p a IH]; simpl.
  - lra.
  - rewrite IH. lra.
Qed.

Lemma silent_nonpositive (d : Q) : d <= 0 -> silent d = [].
Proof.
  intros H. unfold silent.
  assert (E : PyNum.ltb 0 d = false) by now apply ltb_false.
  now rewrite E.
Qed.

(** On well-timed segments the reference loop keeps the length of the
    combined audio at the cursor. *)
Lemma assemble_from_well_timed (triples : list Reference.SynthesizedSegment)
    (combined : AudioSegment) (cursor : Q) :
  well_timed cursor triples ->
  len combined == cursor * 1000 ->
  len (fst (Reference.assemble_from combined cursor triples))
  == snd (Reference.assemble_from combined cursor triples) * 1000.
Proof.
  revert combined cursor.
  induction triples as [|r rs IH]; intros combined cursor Hw Hlen; simpl.
  - exact Hlen.
  - destruct Hw as (Hle & Hdur & Hrest).
    apply IH; [exact Hrest|].
    rewrite len_app.
    destruct (PyNum.ltb 0 (Reference.start r - cursor)) eqn:E.
    + rewrite len_app. unfold Reference.silence. rewrite len_silent.
      apply ltb_true in E. rewrite Q.max_r by lra. lra.
    + apply ltb_false in E. lra.
Qed.

Lemma well_timed_app (xs ys : list Reference.SynthesizedSegment) (cursor : Q) :
  well_timed cursor (xs ++ ys) ->
  well_timed cursor xs
  /\ well_timed (default cursor (Reference.end_ <$> last xs)) ys.
Proof.
  revert cursor. induction xs as [|r rs IH]; intros cursor H; simpl in *.
  - split; [exact I|exact H].
  - destruct H as (Hle & Hdur & Hrest). apply IH in Hrest as [Hrs Hys].
    split; [repeat split; assumption|].
    destruct rs as [|r' rs]; [exact Hys|].
    change (last (r :: r' :: rs)) with (last (r' :: rs)).
    destruct (last (r' :: rs)) as [x|] eqn:E; [exact Hys|].
    apply last_None in E. discriminate.
Qed.

(** X1.  When the segments are chronological, do not overlap, and every
    synthesized audio lasts exactly as long as its original window, the
    mixer puts each audio where the original had it: the audio of a
    segment begins at the segment's original start and ends at its
    original end, measured from the beginning of the output. *)
Theorem mix_honours_original_times
    (before : list AudioMixer.Segment) (segment : AudioMixer.Segment)
    (triples : list Reference.SynthesizedSegment)
    (r : Reference.SynthesizedSegment) :
  Forall2 (carries fs) before triples ->
  carries fs segment r ->
  well_timed 0 (triples ++ [r]) ->
  let st := mix_run fs true before AudioMixer.init in
  len (AudioMixer.combined st
       ++ silent ((Reference.start r - AudioMixer.last_end_time st) * 1000))
  == Reference.start r * 1000
  /\ len (AudioMixer.combined
            (mix_run fs true (before ++ [segment]) AudioMixer.init))
     == Reference.end_ r * 1000.
Proof.
  intros Hbefore Hseg Hw st.
  apply well_timed_app in Hw as [Hw1 Hw2].
  assert (Hst : len (AudioMixer.combined st)
                == AudioMixer.last_end_time st * 1000).
  { unfold st. rewrite (mix_run_reference fs before triples _ Hbefore). simpl.
    apply assemble_from_well_timed; [exact Hw1|reflexivity]. }
  assert (Hcur : AudioMixer.last_end_time st
                 = default 0 (Reference.end_ <$> last triples)).
  { unfold st. rewrite (mix_run_reference fs before triples _ Hbefore). simpl.
    apply assemble_from_cursor. }
  rewrite <- Hcur in Hw2. destruct Hw2 as (Hle & Hdur & _).
  split.
  - rewrite len_app, len_silent. rewrite Q.max_r by lra. lra.
  - rewrite mix_run_app. fold st.
    destruct Hseg as (path & Hf & Hne & Hl & Hs & He).
    rewrite mix_run_cons, (mix_iter_loaded fs segment path _ st Hf Hne Hl).
    cbv zeta. rewrite Hs, He. unfold mix_run. simpl.
    rewrite !len_app, len_silent. rewrite Q.max_r by lra. lra.
Qed.

(** With timing kept and no ["start"] in any segment, the loop appends
    what each segment loads to, from any state. *)
Lemma mix_run_without_start (segments : list AudioMixer.Segment)
    (st : AudioMixer.MixState) :
  Forall (fun s => AudioMixer.start s = None) segments ->
  AudioMixer.combined (mix_run fs true segments st)
  = AudioMixer.combined st ++ concat (map (loaded fs) segments).
Proof.
  intros H. revert st. induction H as [|x xs Hx Hxs IH]; intros st.
  - unfold mix_run. simpl. now rewrite app_nil_r.
  - rewrite mix_run_cons.
    destruct (loads_or_not fs x) as [(path & a & Hf & Hne & Hl & Ha)|Hun].
    + rewrite (mix_iter_loaded fs x path a st Hf Hne Hl). simpl fst.
      rewrite IH. simpl. rewrite Hx. simpl.
      rewrite silent_nonpositive by lra.
      rewrite Ha, <- app_assoc. reflexivity.
    + rewrite mix_iter_unloadable by assumption. simpl fst.
      rewrite IH. simpl. now rewrite (loaded_unloadable fs x Hun).
Qed.

(** X2.  Segments that have no ["start"] key are mixed back to back even
    with timing kept: the gap is taken from the cursor to itself, so no
    silence is inserted and the export is that of [maintain_timing=False],
    whatever the ["end"] keys say. *)
Theorem mix_without_start_keys
    (segments : list AudioMixer.Segment) (output_path : string) :
  Forall (fun s => AudioMixer.start s = None) segments ->
  AudioMixer.mix fs segments output_path true
  = AudioMixer.mix fs segments output_path false.
Proof.
  intros H. rewrite !mix_of_run, mix_run_without_start by assumption.
  rewrite mix_run_untimed. reflexivity.
Qed.

End MixerTiming.

Section MixerTimingExamples.
Import Audio.
Import Statements.
Import Timing.
Local Open Scope Q_scope.
Local Open Scope list_scope.

(** Scenario A is well timed. *)
Lemma mix_honours_original_times_scenario :
  len (AudioMixer.combined
         (mix_run scenario_fs true scenario_segments AudioMixer.init))
  == 4 * 1000.
Proof.
  assert (H1 : Forall2 (carries scenario_fs)
                 [AudioMixer.mkSegment (Some "segment_0000.wav") (Some 0) (Some 2)]
                 [Reference.mkSynthesizedSegment [Sound "hello" 2000] 0 2]).
  { repeat constructor.
    exists "segment_0000.wav". repeat split; vm_compute; reflexivity. }
  assert (H2 : carries scenario_fs
                 (AudioMixer.mkSegment (Some "segment_0001.wav") (Some 3) (Some 4))
                 (Reference.mkSynthesizedSegment [Sound "world" 1000] 3 4)).
  { exists "segment_0001.wav". repeat split; vm_compute; reflexivity. }
  assert (H3 : well_timed 0
                 ([Reference.mkSynthesizedSegment [Sound "hello" 2000] 0 2]
                  ++ [Reference.mkSynthesizedSegment [Sound "world" 1000] 3 4])).
  { simpl. repeat split; vm_compute; congruence. }
  exact (proj2 (mix_honours_original_times scenario_fs _ _ _ _ H1 H2 H3)).
Defined.

(** Two loadable segments without ["start"], the first with an ["end"] far
    in the past of the second. *)
Lemma mix_without_start_keys_example :
  AudioMixer.mix scenario_fs
    [ AudioMixer.mkSegment (Some "segment_0000.wav") None (Some 7);
      AudioMixer.mkSegment (Some "segment_0001.wav") None None ]
    "out.mp3" true
  = inr {| AudioMixer.output_file := "out.mp3";
           AudioMixer.audio := [Sound "hello" 2000; Sound "world" 1000] |}.
Proof.
  rewrite (mix_without_start_keys scenario_fs _ "out.mp3").
  - vm_compute. reflexivity.
  - repeat constructor.
Defined.

End MixerTimingExamples.

(* ===================================================================== *)
(** ** The two assemblers side by side, and synthesis followed by mixing *)
(* ===================================================================== *)

Section Assemblers.
Import Audio.
Import Statements.
Import Timing.
Local Open Scope Q_scope.
Local Open Scope list_scope.

Variable fs : gmap string file_content.

Lemma combine_iter_not_loaded (segment : SpeechClarityEnhancer.Synthesized)
    (e : exn) (st : SpeechClarityEnhancer.CombineState) :
  from_file fs (SpeechClarityEnhancer.file segment) = inl e ->
  SpeechClarityEnhancer.combine_iter fs segment st = (st, inr tt).
Proof.
  intros Hl.
  unfold SpeechClarityEnhancer.combine_iter, SEMonad.try_except,
    SpeechClarityEnhancer.combine_body, mbind, SE_bind, SEMonad.bind,
    SEMonad.lift.
  now rewrite Hl.
Qed.

Lemma from_file_empty_name : fs !! "" = None -> exists e, from_file fs "" = inl e.
Proof. intros H. unfold from_file. rewrite H. eauto. Qed.

(** The two loops walk in step. *)
Lemma combine_loop_as_mix (files : list SpeechClarityEnhancer.Synthesized)
    (stc : SpeechClarityEnhancer.CombineState) (stm : AudioMixer.MixState) :
  fs !! "" = None ->
  SpeechClarityEnhancer.combined stc = AudioMixer.combined stm ->
  SpeechClarityEnhancer.last_end stc = AudioMixer.last_end_time stm ->
  exists stc',
    SpeechClarityEnhancer.combine_loop fs files stc = (stc', inr tt)
    /\ SpeechClarityEnhancer.combined stc'
       = AudioMixer.combined (mix_run fs true (map of_file files) stm)
    /\ SpeechClarityEnhancer.last_end stc'
       = AudioMixer.last_end_time (mix_run fs true (map of_file files) stm).
Proof.
  intros Hno. revert stc stm.
  induction files as [|x xs IH]; intros stc stm Hc Hl.
  - exists stc. unfold mix_run. simpl. auto.
  - unfold SpeechClarityEnhancer.combine_loop in *. simpl.
    unfold SEMonad.bind at 1. rewrite mix_run_cons.
    destruct (from_file fs (SpeechClarityEnhancer.file x)) as [e|a] eqn:Hload.
    + rewrite (combine_iter_not_loaded x e stc Hload).
      rewrite mix_iter_unloadable; [now apply IH|].
      unfold unloadable, of_file. simpl. right. eauto.
    + assert (Hne : PyStr.is_empty (SpeechClarityEnhancer.file x) = false).
      { destruct (SpeechClarityEnhancer.file x); [|reflexivity].
        destruct (from_file_empty_name Hno) as [e He]. congruence. }
      rewrite (combine_iter_loaded fs x a stc Hload).
      rewrite (mix_iter_loaded fs (of_file x) _ a stm eq_refl Hne Hload).
      apply IH; simpl; [now rewrite Hc, Hl|reflexivity].
Qed.

(** X3.  [combine_audio] and [AudioMixer.mix] with timing kept export the
    same audio for the same entries, whether or not the files load, as
    long as no file goes by the empty name (which the mixer takes for a
    missing file without trying to load it). *)
Theorem combine_audio_agrees_with_mix
    (files : list SpeechClarityEnhancer.Synthesized)
    (output_dir output_name output_path : string) :
  fs !! "" = None ->
  exists a,
    SpeechClarityEnhancer.combine_audio output_dir fs files output_name
    = inr (OutputName.path_join output_dir
             (OutputName.safe_title output_name +:+ "_enhanced.mp3"), a)
    /\ AudioMixer.mix fs (map of_file files) output_path true
       = inr {| AudioMixer.output_file := output_path; AudioMixer.audio := a |}.
Proof.
  intros Hno.
  destruct (combine_loop_as_mix files SpeechClarityEnhancer.init AudioMixer.init
              Hno eq_refl eq_refl) as (stc' & Hloop & Hc & _).
  exists (SpeechClarityEnhancer.combined stc'). split.
  - unfold SpeechClarityEnhancer.combine_audio. now rewrite Hloop.
  - rewrite mix_of_run, Hc. reflexivity.
Qed.

Lemma path_join_nonempty (directory name : string) :
  PyStr.is_empty (OutputName.path_join directory name) = false.
Proof. unfold OutputName.path_join. destruct directory; reflexivity. Qed.

(** X4.  Synthesis followed by mixing: if the files [synthesize] names
    all load, [mix] exports the reference assembly of the synthesized
    entries with their original times.  Segments dropped by the
    synthesizer leave no slot: the silence before an entry is measured
    from the original end of the entry before it in the result. *)
Theorem synthesize_then_mix
    (_synthesize_text : string -> string -> exn + unit)
    (temp_dir gettempdir : string) (segments : list Transcript.Segment)
    (out : list SpeechSynthesizer.Synthesized) (output_path : string) :
  SpeechSynthesizer.synthesize _synthesize_text temp_dir gettempdir segments
  = inr out ->
  Forall (fun o => is_inr (from_file fs (SpeechSynthesizer.audio_file o)) = true)
    out ->
  AudioMixer.mix fs (map SpeechSynthesizer.to_mixer out) output_path true
  = inr {| AudioMixer.output_file := output_path;
           AudioMixer.audio := Reference.assemble (map (triple_of fs) out) |}.
Proof.
  intros Hsyn Hload.
  assert (Hpaths : Forall (fun o => PyStr.is_empty (SpeechSynthesizer.audio_file o)
                                    = false) out).
  { unfold SpeechSynthesizer.synthesize in Hsyn.
    destruct (SEMonad.for_enumerate _ 0 segments []) as [acc [e|u]];
      [discriminate|].
    injection Hsyn as <-. apply Forall_forall. intros o Hin.
    apply list_elem_of_fmap in Hin as (o' & -> & _).
    apply path_join_nonempty. }
  assert (Hcar : Forall2 (carries fs) (map SpeechSynthesizer.to_mixer out)
                   (map (triple_of fs) out)).
  { apply Forall2_fmap, Forall_Forall2_diag.
    rewrite Forall_forall in Hload, Hpaths. apply Forall_forall.
    intros o Hin. specialize (Hload o Hin). specialize (Hpaths o Hin).
    exists (SpeechSynthesizer.audio_file o).
    unfold triple_of, loaded. simpl. rewrite Hpaths.
    destruct (from_file fs (SpeechSynthesizer.audio_file o)); [discriminate|].
    auto. }
  rewrite mix_of_run, (mix_run_reference fs _ _ _ Hcar). reflexivity.
Qed.

End Assemblers.

Section AssemblersExamples.
Import Audio.
Import Statements.
Import Timing.
Local Open Scope Q_scope.
Local Open Scope list_scope.

(** Scenario A's store has no file by the empty name; the second entry
    here names a file that is not there. *)
Lemma combine_audio_agrees_with_mix_example :
  exists a,
    SpeechClarityEnhancer.combine_audio "enhanced_audio" scenario_fs
      [ SpeechClarityEnhancer.mkSynthesized "segment_0000.wav" "hello" 0 2;
        SpeechClarityEnhancer.mkSynthesized "segment_0009.wav" "lost" 2 3;
        SpeechClarityEnhancer.mkSynthesized "segment_0001.wav" "world" 3 4 ]
      "Talk"
    = inr ("enhanced_audio/Talk_enhanced.mp3", a)
    /\ a = [Sound "hello" 2000; Silence 1000; Sound "world" 1000].
Proof.
  destruct (combine_audio_agrees_with_mix scenario_fs
              [ SpeechClarityEnhancer.mkSynthesized "segment_0000.wav" "hello" 0 2;
                SpeechClarityEnhancer.mkSynthesized "segment_0009.wav" "lost" 2 3;
                SpeechClarityEnhancer.mkSynthesized "segment_0001.wav" "world" 3 4 ]
              "enhanced_audio" "Talk" "out.mp3" eq_refl) as (a & Hc & Hm).
  exists a. split; [exact Hc|].
  vm_compute in Hm. congruence.
Defined.

(** Scenario B: the second of three segments fails synthesis. *)
Lemma synthesize_then_mix_scenario_b :
  AudioMixer.mix
    (<["/tmp/segment_0000.wav" := Decodable [Sound "hello" 1800]]>
       (<["/tmp/segment_0002.wav" := Decodable [Sound "world" 900]]> ∅))
    (map SpeechSynthesizer.to_mixer
       [ SpeechSynthesizer.mkSynthesized "hello" 0 2 "/tmp/segment_0000.wav";
         SpeechSynthesizer.mkSynthesized "world" 5 6 "/tmp/segment_0002.wav" ])
    "out.mp3" true
  = inr {| AudioMixer.output_file := "out.mp3";
           AudioMixer.audio :=
             [Sound "hello" 1800; Silence 3000; Sound "world" 900] |}.
Proof.
  rewrite (synthesize_then_mix _ (piper_failing_on "there") "/tmp/tmpdir" "/tmp"
             three_segments _ "out.mp3").
  - vm_compute. reflexivity.
  - vm_compute. reflexivity.
  - repeat constructor.
Defined.

End AssemblersExamples.

(* ===================================================================== *)
(** ** More on cleaning: the reported reduction *)
(* ===================================================================== *)

Section Whitespace.
Local Open Scope list_scope.

Lemma drop_while_nil (p : ascii -> bool) (l : list ascii) :
  Reference.drop_while p l = [] -> Forall (fun c => p c = true) l.
Proof.
  induction l as [|c l IH]; simpl; [constructor|].
  destruct (p c) eqn:E; [|discriminate]. intros H. constructor; auto.
Qed.

Lemma drop_while_all (p : ascii -> bool) (l : list ascii) :
  Forall (fun c => p c = true) l -> Reference.drop_while p l = [].
Proof. induction 1 as [|c l Hc _ IH]; simpl; [reflexivity|]. now rewrite Hc. Qed.

(** What [drop_while] returns does not begin with a dropped character. *)
Lemma drop_while_head (p : ascii -> bool) (l : list ascii) :
  match Reference.drop_while p l with
  | [] => True
  | c :: _ => p c = false
  end.
Proof.
  induction l as [|c l IH]; simpl; [exact I|].
  destruct (p c) eqn:E; [exact IH|exact E].
Qed.

Lemma drop_while_suffix (p : ascii -> bool) (l : list ascii) :
  exists dropped, l = dropped ++ Reference.drop_while p l.
Proof.
  induction l as [|c l [d IH]]; simpl; [now exists []|].
  destruct (p c); [|now exists []].
  exists (c :: d). simpl. now rewrite <- IH.
Qed.

Lemma drop_while_fixed (p : ascii -> bool) (l : list ascii) :
  match l with [] => True | c :: _ => p c = false end ->
  Reference.drop_while p l = l.
Proof. destruct l as [|c l]; simpl; [reflexivity|]. now intros ->. Qed.

(** A string strips to nothing only if it is all whitespace. *)
Lemma trim_nil (l : list ascii) :
  Reference.trim l = [] -> Forall (fun c => PyStr.isspace c = true) l.
Proof.
  unfold Reference.trim. intros H.
  apply drop_while_nil in H. apply Forall_rev in H. rewrite rev_involutive in H.
  pose proof (drop_while_head PyStr.isspace (rev l)) as Hh.
  destruct (Reference.drop_while PyStr.isspace (rev l)) as [|c r] eqn:E.
  - apply drop_while_nil in E. apply Forall_rev in E.
    now rewrite rev_involutive in E.
  - inversion H; subst. congruence.
Qed.

Lemma split_aux_all_space (s : string) :
  Forall (fun c => PyStr.isspace c = true) (list_ascii_of_string s) ->
  PyStr.split_aux [] s = [].
Proof.
  induction s as [|c s IH]; simpl; [reflexivity|].
  intros H. inversion H as [|? ? Hc Hs]; subst. rewrite Hc. auto.
Qed.

(** A text that strips to the empty string has no words. *)
Lemma blank_has_no_words (s : string) : PyStr.strip s = "" -> PyStr.split s = [].
Proof.
  intros H. apply split_aux_all_space, trim_nil.
  rewrite <- chars_strip, H. reflexivity.
Qed.

Lemma trim_all_space (l : list ascii) :
  Forall (fun c => PyStr.isspace c = true) l -> Reference.trim l = [].
Proof.
  intros H. unfold Reference.trim.
  assert (Hrev : Forall (fun c => PyStr.isspace c = true) (rev l)).
  { apply Forall_forall. intros c Hc. rewrite Forall_forall in H. apply H.
    apply list_elem_of_In. apply list_elem_of_In, in_rev in Hc. exact Hc. }
  now rewrite (drop_while_all _ _ Hrev).
Qed.

(** [text.strip()] is empty exactly when the text is all whitespace. *)
Lemma strip_empty_blank (s : string) :
  PyStr.strip s = "" <-> Reference.blank s = true.
Proof.
  unfold Reference.blank. rewrite forallb_forall. split.
  - intros H c Hc.
    assert (Hall : Forall (fun c => PyStr.isspace c = true)
                     (list_ascii_of_string s)).
    { apply trim_nil. rewrite <- chars_strip, H. reflexivity. }
    rewrite Forall_forall in Hall. apply Hall. now apply list_elem_of_In.
  - intros H.
    assert (Hall : Forall (fun c => PyStr.isspace c = true)
                     (list_ascii_of_string s)).
    { apply Forall_forall. intros c Hc. apply H. now apply list_elem_of_In. }
    apply trim_all_space in Hall. rewrite <- chars_strip in Hall.
    destruct (PyStr.strip s); [reflexivity|discriminate Hall].
Qed.

(** [text.split()] has as many items as the text has runs of characters
    that are not whitespace. *)
Lemma split_aux_counts (s : string) (cur : list ascii) :
  Z.of_nat (length (PyStr.split_aux cur s))
  = ((match cur with [] => 0 | _ => 1 end)
     + Reference.count_words_from (match cur with [] => false | _ => true end)
         (list_ascii_of_string s))%Z.
Proof.
  revert cur. induction s as [|c s IH]; intros cur;
    cbn [PyStr.split_aux list_ascii_of_string Reference.count_words_from].
  - destruct cur; reflexivity.
  - destruct (PyStr.isspace c).
    + destruct cur as [|d cur]; [exact (IH [])|].
      cbn [length]. rewrite Nat2Z.inj_succ, (IH []). lia.
    + rewrite (IH (c :: cur)). destruct cur; lia.
Qed.

Lemma split_counts (s : string) :
  Z.of_nat (length (PyStr.split s)) = Reference.count_words s.
Proof. unfold PyStr.split, Reference.count_words. now rewrite split_aux_counts. Qed.

End Whitespace.

(* ===================================================================== *)
(** ** [process] against the specification's segment cleaner *)
(* ===================================================================== *)

Section CleaningRefinement.
Import Transcript.
Local Open Scope list_scope.

Variable _remove_disfluencies : string -> string.
Variable _simplify_language : string -> string.
Variable self : TextProcessor.t.

Lemma word_count_total (segs : list Segment) :
  TextProcessor.word_count segs = Reference.total_words segs.
Proof.
  induction segs as [|s segs IH]; [reflexivity|].
  cbn [TextProcessor.word_count foldr Reference.total_words].
  fold (TextProcessor.word_count segs). now rewrite IH, split_counts.
Qed.

Lemma total_words_nonneg (segs : list Segment) :
  (0 <= Reference.total_words segs)%Z.
Proof. rewrite <- word_count_total. induction segs; simpl; lia. Qed.

(** The loop of [process] is the cleaner of the specification, for the
    cleaner the two flags make of the two methods. *)
Lemma process_loop_clean (segs : list Segment) :
  foldl (TextProcessor.process_iter _remove_disfluencies _simplify_language self)
    [] segs
  = Reference.clean
      (fun text0 =>
         let text1 :=
           if TextProcessor.remove_disfluencies self
           then _remove_disfluencies text0 else text0 in
         if TextProcessor.simplify_language self
         then _simplify_language text1 else text1)
      segs.
Proof.
  rewrite process_loop. cbn [app].
  induction segs as [|s segs IH]; [reflexivity|].
  rewrite filter_cons. cbn [Reference.clean]. cbv zeta.
  change (TextProcessor.clean_text _remove_disfluencies _simplify_language self
            (text s))
    with (if TextProcessor.simplify_language self
          then _simplify_language
                 (if TextProcessor.remove_disfluencies self
                  then _remove_disfluencies (text s) else text s)
          else if TextProcessor.remove_disfluencies self
               then _remove_disfluencies (text s) else text s).
  set (cleaned_text :=
         if TextProcessor.simplify_language self
         then _simplify_language
                (if TextProcessor.remove_disfluencies self
                 then _remove_disfluencies (text s) else text s)
         else if TextProcessor.remove_disfluencies self
              then _remove_disfluencies (text s) else text s) in *.
  destruct (decide (PyStr.strip cleaned_text <> "")) as [Hne|He].
  - destruct (Reference.blank cleaned_text) eqn:Hb.
    + apply strip_empty_blank in Hb. contradiction.
    + cbn [map]. now rewrite IH.
  - assert (Hs : PyStr.strip cleaned_text = "").
    { destruct (decide (PyStr.strip cleaned_text = "")); [assumption|contradiction]. }
    apply strip_empty_blank in Hs. rewrite Hs. exact IH.
Qed.

(** C6.  [process] is the segment cleaner of the specification, run with
    the cleaner its flags make of [_remove_disfluencies] and
    [_simplify_language]: it drops exactly the segments whose cleaned text
    holds nothing but whitespace, emits every other segment with the
    cleaned text and its own start and end, in input order, and reports
    the words of the input, the words of the result, and the reduction
    [100 * (original - result) / original], which is 0 when the original
    count is 0.  In particular every text cleaner is applied as it is
    given: with [remove_disfluencies] on and [simplify_language] off the
    result is the specification's for the first method. *)
Theorem process_drops_blank_segments (full : string) (segs : list Segment) :
  let cleaner := fun text0 : string =>
    let text1 :=
      if TextProcessor.remove_disfluencies self
      then _remove_disfluencies text0 else text0 in
    if TextProcessor.simplify_language self
    then _simplify_language text1 else text1 in
  let out :=
    TextProcessor.process _remove_disfluencies _simplify_language self
      {| full_text := full; segments := Some segs |} in
  TextProcessor.processed_segments out = Reference.clean cleaner segs
  /\ TextProcessor.original_word_count out = Reference.total_words segs
  /\ TextProcessor.processed_word_count out
     = Reference.total_words (Reference.clean cleaner segs)
  /\ (TextProcessor.reduction_percent out
      == Reference.reduction (Reference.total_words segs)
           (Reference.total_words (Reference.clean cleaner segs)))%Q
  /\ (forall text_cleaner : string -> string,
        TextProcessor.processed_segments
          (TextProcessor.process text_cleaner _simplify_language
             {| TextProcessor.remove_disfluencies := true;
                TextProcessor.simplify_language := false |}
             {| full_text := full; segments := Some segs |})
        = Reference.clean text_cleaner segs).
Proof.
  intros cleaner out.
  assert (Hseg : TextProcessor.processed_segments out = Reference.clean cleaner segs).
  { subst out cleaner. unfold TextProcessor.process.
    cbn [TextProcessor.processed_segments segments default].
    apply process_loop_clean. }
  assert (Horig : TextProcessor.original_word_count out = Reference.total_words segs).
  { subst out. unfold TextProcessor.process.
    cbn [TextProcessor.original_word_count segments default].
    apply word_count_total. }
  assert (Hres : TextProcessor.processed_word_count out
                 = Reference.total_words (Reference.clean cleaner segs)).
  { rewrite <- Hseg. subst out. unfold TextProcessor.process.
    cbn [TextProcessor.processed_word_count TextProcessor.processed_segments
         segments default].
    apply word_count_total. }
  split; [exact Hseg|]. split; [exact Horig|]. split; [exact Hres|]. split.
  - rewrite <- Horig, <- Hres.
    pose proof (total_words_nonneg segs) as Hnn. rewrite <- Horig in Hnn.
    subst out. unfold TextProcessor.process, Reference.reduction in *.
    cbn [TextProcessor.reduction_percent TextProcessor.original_word_count
         TextProcessor.processed_word_count segments default] in *.
    unfold id in *.
    set (original := TextProcessor.word_count segs) in *.
    set (result := TextProcessor.word_count _).
    destruct (original =? 0)%Z eqn:E0.
    + apply Z.eqb_eq in E0. rewrite E0. reflexivity.
    + apply Z.eqb_neq in E0.
      assert (Hpos : (0 <? original)%Z = true) by (apply Z.ltb_lt; lia).
      rewrite Hpos, inject_Z_mult. unfold Z.sub.
      rewrite inject_Z_plus, inject_Z_opp. reflexivity.
  - intros text_cleaner. unfold TextProcessor.process.
    cbn [TextProcessor.processed_segments segments default].
    unfold id. rewrite process_loop. cbn [app].
    clear. induction segs as [|s segs IH]; [reflexivity|].
    rewrite filter_cons. cbn [Reference.clean]. cbv zeta.
    change (TextProcessor.clean_text text_cleaner _simplify_language
              {| TextProcessor.remove_disfluencies := true;
                 TextProcessor.simplify_language := false |} (text s))
      with (text_cleaner (text s)).
    destruct (decide (PyStr.strip (text_cleaner (text s)) <> "")) as [Hne|He].
    + destruct (Reference.blank (text_cleaner (text s))) eqn:Hb.
      * apply strip_empty_blank in Hb. contradiction.
      * cbn [map]. now rewrite IH.
    + assert (Hs : PyStr.strip (text_cleaner (text s)) = "").
      { destruct (decide (PyStr.strip (text_cleaner (text s)) = ""));
          [assumption|contradiction]. }
      apply strip_empty_blank in Hs. rewrite Hs. exact IH.
Qed.

End CleaningRefinement.

Section Reduction.
Import Transcript.
Local Open Scope list_scope.

Variable _remove_disfluencies : string -> string.
Variable _simplify_language : string -> string.
Variable self : TextProcessor.t.

Lemma word_count_nonneg (segs : list Segment) : (0 <= TextProcessor.word_count segs)%Z.
Proof. induction segs as [|s segs IH]; simpl; lia. Qed.

Lemma word_count_nonblank (segs : list Segment) :
  TextProcessor.word_count (filter (fun s => PyStr.strip (text s) <> "") segs)
  = TextProcessor.word_count segs.
Proof.
  induction segs as [|s segs IH]; [reflexivity|].
  rewrite filter_cons.
  destruct (decide (PyStr.strip (text s) <> "")) as [Hne|He]; simpl.
  - now rewrite IH.
  - rewrite IH.
    assert (Hs : PyStr.strip (text s) = "")
      by (destruct (decide (PyStr.strip (text s) = "")); [assumption|contradiction]).
    now rewrite (blank_has_no_words _ Hs).
Qed.

(** X5.  The reduction [process] reports never exceeds 100 per cent,
    whatever the cleaner does, and it is 100 exactly when words went in and
    none is left.  (It has no lower bound: a cleaner that adds words makes
    it negative.) *)
Theorem reduction_at_most_100 (transcription : Transcription) :
  let out :=
    TextProcessor.process _remove_disfluencies _simplify_language self
      transcription in
  (TextProcessor.reduction_percent out <= 100)%Q
  /\ ((0 < TextProcessor.original_word_count out)%Z ->
      ((TextProcessor.reduction_percent out == 100)%Q
       <-> TextProcessor.processed_word_count out = 0%Z)).
Proof.
  intros out.
  set (o := TextProcessor.original_word_count out).
  set (p := TextProcessor.processed_word_count out).
  assert (Hp : (0 <= p)%Z) by apply word_count_nonneg.
  assert (Hred : TextProcessor.reduction_percent out
                 = if (0 <? o)%Z
                   then (inject_Z (100 * (o - p)) / inject_Z o)%Q else 0%Q)
    by reflexivity.
  rewrite Hred. clear Hred.
  destruct (0 <? o)%Z eqn:Ho.
  - apply Z.ltb_lt in Ho.
    assert (HoQ : (0 < inject_Z o)%Q) by (rewrite (Zlt_Qlt 0 o) in Ho; exact Ho).
    assert (Hnum : (inject_Z (100 * (o - p))
                    == 100 * inject_Z o - 100 * inject_Z p)%Q).
    { rewrite inject_Z_mult. unfold Z.sub.
      rewrite inject_Z_plus, inject_Z_opp. change (inject_Z 100) with 100%Q. lra. }
    assert (HpQ : (0 <= inject_Z p)%Q) by (rewrite (Zle_Qle 0 p) in Hp; exact Hp).
    split.
    + apply Qle_shift_div_r; [exact HoQ|]. rewrite Hnum. lra.
    + intros _. split.
      * intros H.
        assert (H' : (inject_Z (100 * (o - p)) == 100 * inject_Z o)%Q).
        { rewrite <- H. field. lra. }
        rewrite Hnum in H'.
        assert (Hz : (inject_Z p == inject_Z 0)%Q)
          by (change (inject_Z 0) with 0%Q; lra).
        unfold Qeq in Hz. simpl in Hz. fold p. lia.
      * intros Hz. rewrite Hnum, Hz. change (inject_Z 0) with 0%Q.
        field. lra.
  - split; [lra|]. intros Hpos. apply Z.ltb_lt in Hpos. congruence.
Qed.

(** X6.  With an identity cleaner nothing is counted as removed: the
    segments that are dropped are blank and hold no words, so the word
    count of the result is that of the input and the reported reduction
    is 0. *)
Theorem identity_cleaner_reports_no_reduction (full : string)
    (segs : list Segment) :
  (forall x,
      TextProcessor.clean_text _remove_disfluencies _simplify_language self x = x) ->
  let out :=
    TextProcessor.process _remove_disfluencies _simplify_language self
      {| full_text := full; segments := Some segs |} in
  TextProcessor.processed_word_count out = TextProcessor.original_word_count out
  /\ (TextProcessor.reduction_percent out == 0)%Q.
Proof.
  intros Hid out.
  assert (Hsegs : TextProcessor.processed_segments out
                  = filter (fun s => PyStr.strip (text s) <> "") segs).
  { unfold out, TextProcessor.process. simpl. rewrite process_loop. simpl.
    clear out. induction segs as [|s rest IH]; [reflexivity|].
    rewrite !filter_cons, Hid.
    destruct (decide (PyStr.strip (text s) <> "")); simpl.
    - rewrite IH. f_equal. rewrite Hid. now destruct s.
    - exact IH. }
  assert (Hcount : TextProcessor.processed_word_count out
                   = TextProcessor.original_word_count out).
  { change (TextProcessor.processed_word_count out)
      with (TextProcessor.word_count (TextProcessor.processed_segments out)).
    rewrite Hsegs. apply word_count_nonblank. }
  split; [exact Hcount|].
  assert (Hred : TextProcessor.reduction_percent out
                 = if (0 <? TextProcessor.original_word_count out)%Z
                   then (inject_Z (100 * (TextProcessor.original_word_count out
                                          - TextProcessor.processed_word_count out))
                         / inject_Z (TextProcessor.original_word_count out))%Q
                   else 0%Q)
    by reflexivity.
  rewrite Hred, Hcount, Z.sub_diag, Z.mul_0_r.
  destruct (0 <? _)%Z; [|reflexivity].
  unfold Qdiv. change (inject_Z 0) with 0%Q. lra.
Qed.

End Reduction.

(** With both flags off the cleaner is the identity. *)
Lemma identity_cleaner_reports_no_reduction_flags_off :
  (TextProcessor.reduction_percent
     (TextProcessor.process (fun _ => "removed") (fun _ => "simplified")
        {| TextProcessor.remove_disfluencies := false;
           TextProcessor.simplify_language := false |}
        {| Transcript.full_text := "";
           Transcript.segments := Some Statements.three_segments |}) == 0)%Q.
Proof.
  exact (proj2 (identity_cleaner_reports_no_reduction
                  (fun _ => "removed") (fun _ => "simplified")
                  {| TextProcessor.remove_disfluencies := false;
                     TextProcessor.simplify_language := false |}
                  "" Statements.three_segments (fun x => eq_refl))).
Defined.

(* ===================================================================== *)
(** ** More on output names *)
(* ===================================================================== *)

Section SafeNames.
Local Open Scope list_scope.

Let chars := list_ascii_of_string.
Let clean_head (l : list ascii) : Prop :=
  match l with [] => True | c :: _ => PyStr.isspace c = false end.

Lemma chars_safe_title (title : string) :
  chars (OutputName.safe_title title)
  = map Reference.space_to_underscore
      (Reference.trim (List.filter OutputName.keep (chars title))).
Proof.
  unfold chars, OutputName.safe_title.
  now rewrite chars_replace, chars_strip, chars_re_sub_delete.
Qed.

Lemma chars_inj (s t : string) : chars s = chars t -> s = t.
Proof.
  intros H. apply (f_equal string_of_list_ascii) in H.
  unfold chars in H. now rewrite !string_of_list_ascii_of_string in H.
Qed.

Lemma drop_while_incl (p : ascii -> bool) (l : list ascii) (c : ascii) :
  In c (Reference.drop_while p l) -> In c l.
Proof.
  induction l as [|d l IH]; simpl; [tauto|].
  destruct (p d); [intros H; right; auto|simpl; tauto].
Qed.

Lemma trim_incl (l : list ascii) (c : ascii) : In c (Reference.trim l) -> In c l.
Proof.
  unfold Reference.trim. intros H.
  apply drop_while_incl, in_rev, drop_while_incl, in_rev in H. exact H.
Qed.

(** What [trim] returns neither begins nor ends with whitespace. *)
Lemma trim_clean (l : list ascii) :
  clean_head (Reference.trim l) /\ clean_head (rev (Reference.trim l)).
Proof.
  unfold Reference.trim.
  set (m := rev (Reference.drop_while PyStr.isspace (rev l))).
  split; [apply drop_while_head|].
  destruct (drop_while_suffix PyStr.isspace m) as [d Hd].
  pose proof (drop_while_head PyStr.isspace (rev l)) as Hh.
  assert (Hm : rev m = Reference.drop_while PyStr.isspace (rev l))
    by (unfold m; apply rev_involutive).
  rewrite <- Hm, Hd, rev_app_distr in Hh.
  destruct (rev (Reference.drop_while PyStr.isspace m)) as [|c r]; [exact I|].
  exact Hh.
Qed.

Lemma trim_fixed (l : list ascii) :
  clean_head l -> clean_head (rev l) -> Reference.trim l = l.
Proof.
  intros H1 H2. unfold Reference.trim.
  rewrite (drop_while_fixed PyStr.isspace (rev l) H2), rev_involutive.
  now apply drop_while_fixed.
Qed.

Lemma filter_all (f : ascii -> bool) (l : list ascii) :
  Forall (fun c => f c = true) l -> List.filter f l = l.
Proof.
  induction 1 as [|c l Hc _ IH]; simpl; [reflexivity|]. now rewrite Hc, IH.
Qed.

Lemma keep_excludes (c : ascii) :
  OutputName.keep c = true ->
  c <> "/"%char /\ c <> "."%char /\ c <> "\"%char /\ c <> ":"%char.
Proof.
  destruct c as [[] [] [] [] [] [] [] []]; intros H;
    try discriminate H; repeat split; discriminate.
Qed.

Lemma underscore_kept (c : ascii) :
  OutputName.keep c = true ->
  OutputName.keep (Reference.space_to_underscore c) = true.
Proof.
  unfold Reference.space_to_underscore.
  destruct (Ascii.eqb c " "); [reflexivity|auto].
Qed.

Lemma underscore_not_space (c : ascii) :
  Reference.space_to_underscore c <> " "%char.
Proof.
  unfold Reference.space_to_underscore.
  destruct (Ascii.eqb c " ") eqn:E; [discriminate|now apply Ascii.eqb_neq].
Qed.

Lemma underscore_twice (c : ascii) :
  Reference.space_to_underscore (Reference.space_to_underscore c)
  = Reference.space_to_underscore c.
Proof.
  unfold Reference.space_to_underscore.
  destruct (Ascii.eqb c " ") eqn:E; [reflexivity|now rewrite E].
Qed.

Lemma underscore_clean (l : list ascii) :
  clean_head l -> clean_head (map Reference.space_to_underscore l).
Proof.
  destruct l as [|c l]; simpl; [auto|].
  unfold Reference.space_to_underscore.
  destruct (Ascii.eqb c " "); [reflexivity|auto].
Qed.

Lemma safe_title_kept (title : string) :
  Forall (fun c => OutputName.keep c = true) (chars (OutputName.safe_title title)).
Proof.
  rewrite chars_safe_title. apply Forall_forall. intros c Hin.
  apply list_elem_of_In, in_map_iff in Hin as (d & <- & Hd).
  apply underscore_kept.
  apply trim_incl, List.filter_In in Hd as [_ Hk]. exact Hk.
Qed.

(** X7.  The output name is a single path component: every character of
    it is alphanumeric, an underscore, a hyphen or whitespace other than
    the space, so it holds no ["/"], no ["\"], no ["."] and no [":"], and
    it neither begins nor ends with whitespace.  A title with nothing to
    keep but whitespace gives the empty name. *)
Theorem safe_title_is_one_component (title : string) :
  Forall (fun c => OutputName.keep c = true
                   /\ c <> " "%char /\ c <> "/"%char /\ c <> "."%char
                   /\ c <> "\"%char /\ c <> ":"%char)
    (list_ascii_of_string (OutputName.safe_title title))
  /\ PyStr.strip (OutputName.safe_title title) = OutputName.safe_title title
  /\ (Forall (fun c => OutputName.keep c = false \/ PyStr.isspace c = true)
        (list_ascii_of_string title) ->
      OutputName.safe_title title = "").
Proof.
  split; [|split].
  - pose proof (safe_title_kept title) as Hk.
    assert (Hs : Forall (fun c => c <> " "%char)
                   (chars (OutputName.safe_title title))).
    { rewrite chars_safe_title. apply Forall_forall. intros c Hin.
      apply list_elem_of_In, in_map_iff in Hin as (d & <- & _).
      apply underscore_not_space. }
    rewrite Forall_forall in Hk, Hs. apply Forall_forall. intros c Hin.
    specialize (Hk c Hin). specialize (Hs c Hin).
    destruct (keep_excludes c Hk) as (H1 & H2 & H3 & H4). auto 10.
  - apply chars_inj. unfold chars. rewrite chars_strip.
    fold (chars (OutputName.safe_title title)). rewrite chars_safe_title.
    destruct (trim_clean (List.filter OutputName.keep (chars title))) as [H1 H2].
    apply trim_fixed.
    + now apply underscore_clean.
    + rewrite <- map_rev. now apply underscore_clean.
  - intros Hall. apply chars_inj. rewrite chars_safe_title.
    assert (Hsp : Forall (fun c => PyStr.isspace c = true)
                    (List.filter OutputName.keep (chars title))).
    { apply Forall_forall. intros c Hin.
      apply list_elem_of_In, List.filter_In in Hin as [Hin Hk].
      rewrite Forall_forall in Hall.
      destruct (Hall c (proj2 (list_elem_of_In _ _) Hin)) as [Hf|Hs];
        [congruence|exact Hs]. }
    unfold Reference.trim.
    assert (Hrev : Forall (fun c => PyStr.isspace c = true)
                     (rev (List.filter OutputName.keep (chars title)))).
    { apply Forall_forall. intros c Hin. rewrite Forall_forall in Hsp.
      apply Hsp, list_elem_of_In, in_rev, list_elem_of_In, Hin. }
    rewrite (drop_while_all PyStr.isspace _ Hrev). reflexivity.
Qed.

(** X8.  Sanitizing is idempotent: a name that has been sanitized is
    left as it is by a second pass. *)
Theorem safe_title_idempotent (title : string) :
  OutputName.safe_title (OutputName.safe_title title)
  = OutputName.safe_title title.
Proof.
  apply chars_inj. rewrite (chars_safe_title (OutputName.safe_title title)).
  rewrite (filter_all _ _ (safe_title_kept title)).
  rewrite chars_safe_title.
  destruct (trim_clean (List.filter OutputName.keep (chars title))) as [H1 H2].
  rewrite trim_fixed.
  - rewrite map_map. apply map_ext. intros c. apply underscore_twice.
  - now apply underscore_clean.
  - rewrite <- map_rev. now apply underscore_clean.
Qed.

End SafeNames.

(* ===================================================================== *)
(** ** File names of synthesized segments *)
(* ===================================================================== *)

Section FileNames.
Local Open Scope list_scope.
#[local] Arguments String.append !s1 s2 : simpl nomatch.

Let chars := list_ascii_of_string.

Lemma chars_app (s t : string) : chars (s +:+ t) = chars s ++ chars t.
Proof. induction s as [|c s IH]; simpl; [reflexivity|]. now rewrite IH. Qed.

Lemma string_app_assoc (a b c : string) : a +:+ (b +:+ c) = (a +:+ b) +:+ c.
Proof. induction a as [|x a IH]; simpl; [reflexivity|]. now rewrite IH. Qed.

Lemma value_from_app (s t : string) (a : nat) :
  Decimal.value_from a (s +:+ t) = Decimal.value_from (Decimal.value_from a s) t.
Proof. revert a. induction s as [|c s IH]; intros a; simpl; auto. Qed.

Lemma digit_value_digit (n : nat) :
  Decimal.digit_value (PyStr.digit n) = n mod 10.
Proof.
  unfold Decimal.digit_value, PyStr.digit.
  assert (Hlt : n mod 10 < 10) by (apply Nat.mod_upper_bound; lia).
  rewrite nat_ascii_embedding by lia. lia.
Qed.

Lemma digit_is_digit (n : nat) : Decimal.is_ascii_digit (PyStr.digit n) = true.
Proof.
  unfold PyStr.digit.
  assert (Hlt : n mod 10 < 10) by (apply Nat.mod_upper_bound; lia).
  destruct (n mod 10) as [|[|[|[|[|[|[|[|[|[|k]]]]]]]]]]; try reflexivity; lia.
Qed.

(** With enough fuel the digits put before [acc] read back as [n]. *)
Lemma digits_fuel_reads_back (fuel n : nat) (acc : string) :
  n < fuel ->
  exists d,
    PyStr.digits_fuel fuel n acc = d +:+ acc
    /\ Decimal.int d = n
    /\ Forall (fun c => Decimal.is_ascii_digit c = true) (chars d).
Proof.
  revert n acc. induction fuel as [|fuel IH]; intros n acc Hlt; [lia|].
  cbn [PyStr.digits_fuel]. destruct (n <? 10)%nat eqn:E.
  - apply Nat.ltb_lt in E. exists (String (PyStr.digit n) ""). repeat split.
    + unfold Decimal.int. simpl. rewrite digit_value_digit.
      now apply Nat.mod_small.
    + repeat constructor. apply digit_is_digit.
  - apply Nat.ltb_ge in E.
    assert (Hdiv : n / 10 < fuel).
    { assert (n / 10 < n) by (apply Nat.div_lt; lia). lia. }
    destruct (IH (n / 10) (String (PyStr.digit n) acc) Hdiv)
      as (d & Hd & Hv & Hall).
    exists (d +:+ String (PyStr.digit n) ""). repeat split.
    + rewrite Hd.
      change (String (PyStr.digit n) acc)
        with (String (PyStr.digit n) "" +:+ acc).
      apply string_app_assoc.
    + unfold Decimal.int in *. rewrite value_from_app, Hv.
      cbn [Decimal.value_from]. rewrite digit_value_digit.
      pose proof (Nat.div_mod_eq n 10). lia.
    + unfold chars. fold chars. rewrite chars_app. apply Forall_app. split; [exact Hall|].
      repeat constructor. apply digit_is_digit.
Qed.

Lemma value_from_zeros (k : nat) (s : string) :
  Decimal.value_from 0 (PyStr.zeros k +:+ s) = Decimal.value_from 0 s.
Proof. induction k as [|k IH]; simpl; [reflexivity|exact IH]. Qed.

Lemma zeros_digits (k : nat) :
  Forall (fun c => Decimal.is_ascii_digit c = true) (chars (PyStr.zeros k)).
Proof. induction k as [|k IH]; simpl; constructor; [reflexivity|exact IH]. Qed.

Lemma length_app_string (s t : string) :
  String.length (s +:+ t) = String.length s + String.length t.
Proof. induction s as [|c s IH]; simpl; [reflexivity|]. now rewrite IH. Qed.

Lemma length_zeros (k : nat) : String.length (PyStr.zeros k) = k.
Proof. induction k as [|k IH]; simpl; [reflexivity|]. now rewrite IH. Qed.

Lemma format_04d_reads_back (i : nat) :
  Decimal.int (PyStr.format_04d i) = i
  /\ Forall (fun c => Decimal.is_ascii_digit c = true) (chars (PyStr.format_04d i)).
Proof.
  unfold PyStr.format_04d, PyStr.str_of_nat.
  destruct (digits_fuel_reads_back (S i) i "" (Nat.lt_succ_diag_r i))
    as (d & Hd & Hv & Hall).
  rewrite Hd.
  assert (Hnil : d +:+ "" = d).
  { clear. induction d as [|c d IH]; simpl; [reflexivity|]. now rewrite IH. }
  rewrite Hnil. split.
  - unfold Decimal.int. now rewrite value_from_zeros.
  - rewrite chars_app. apply Forall_app. split; [apply zeros_digits|exact Hall].
Qed.

(** X9.  The index in a file name can be read back: [f"{i:04d}"] is a
    string of at least four ASCII digits whose value is [i], so different
    indices never share a name. *)
Theorem format_04d_round_trip (i : nat) :
  Decimal.int (PyStr.format_04d i) = i
  /\ 4 <= String.length (PyStr.format_04d i)
  /\ Forall (fun c => Decimal.is_ascii_digit c = true)
       (list_ascii_of_string (PyStr.format_04d i))
  /\ forall j, PyStr.format_04d i = PyStr.format_04d j -> i = j.
Proof.
  destruct (format_04d_reads_back i) as [Hv Hall].
  split; [exact Hv|split; [|split; [exact Hall|]]].
  - unfold PyStr.format_04d. rewrite length_app_string, length_zeros. lia.
  - intros j Heq. destruct (format_04d_reads_back j) as [Hj _]. congruence.
Qed.

Lemma digit_not_slash (c : ascii) :
  Decimal.is_ascii_digit c = true -> Ascii.eqb "/" c = false.
Proof.
  destruct c as [[] [] [] [] [] [] [] []]; intros H;
    try discriminate H; reflexivity.
Qed.

Lemma segment_name_no_slash (i : nat) :
  existsb (Ascii.eqb "/") (chars (Naming.segment_name i)) = false.
Proof.
  unfold Naming.segment_name. rewrite !chars_app, !existsb_app.
  destruct (format_04d_reads_back i) as [_ Hall].
  assert (Hd : existsb (Ascii.eqb "/") (chars (PyStr.format_04d i)) = false).
  { induction Hall as [|c l Hc _ IH]; cbn [existsb]; [reflexivity|].
    now rewrite (digit_not_slash c Hc), IH. }
  rewrite Hd. reflexivity.
Qed.

Lemma name_of_plain (name : string) :
  existsb (Ascii.eqb "/") (chars name) = false ->
  SpeechSynthesizer.name_of name = name.
Proof.
  destruct name as [|c name]; [reflexivity|].
  unfold chars. cbn [list_ascii_of_string existsb SpeechSynthesizer.name_of].
  intros H. apply orb_false_iff in H as [Hc Hrest].
  rewrite Ascii.eqb_sym in Hc. now rewrite Hc, Hrest.
Qed.

(** [Path(directory / name).name] is [name] when [name] has no ["/"]. *)
Lemma name_of_path_join (directory name : string) :
  existsb (Ascii.eqb "/") (chars name) = false ->
  SpeechSynthesizer.name_of (OutputName.path_join directory name) = name.
Proof.
  intros Hname. unfold OutputName.path_join.
  induction directory as [|c d IH].
  - change ("" +:+ "/" +:+ name) with (String "/" name).
    cbn [SpeechSynthesizer.name_of]. rewrite Ascii.eqb_refl.
    now apply name_of_plain.
  - change (String c d +:+ "/" +:+ name) with (String c (d +:+ "/" +:+ name)).
    cbn [SpeechSynthesizer.name_of].
    destruct (Ascii.eqb c "/"); [exact IH|].
    assert (Hex : existsb (Ascii.eqb "/")
                    (list_ascii_of_string (d +:+ "/" +:+ name)) = true).
    { fold (chars (d +:+ "/" +:+ name)). rewrite chars_app, existsb_app.
      change (chars ("/" +:+ name)) with ("/"%char :: chars name).
      cbn [existsb]. rewrite Ascii.eqb_refl. apply orb_true_r. }
    now rewrite Hex.
Qed.

Lemma path_of_index_inj (directory : string) (i j : nat) :
  OutputName.path_join directory (Naming.segment_name i)
  = OutputName.path_join directory (Naming.segment_name j) -> i = j.
Proof.
  unfold OutputName.path_join, Naming.segment_name. intros H.
  apply (f_equal chars) in H. rewrite !chars_app in H.
  do 3 apply app_inv_head in H. apply app_inv_tail in H.
  destruct (format_04d_reads_back i) as [Hi _].
  destruct (format_04d_reads_back j) as [Hj _].
  apply (f_equal string_of_list_ascii) in H. unfold chars in H.
  rewrite !string_of_list_ascii_of_string in H. congruence.
Qed.

Lemma sorted_NoDup (l : list nat) : StronglySorted lt l -> NoDup l.
Proof.
  induction 1 as [|x l _ IH Hall]; constructor; [|exact IH].
  intros Hin. rewrite Forall_forall in Hall. specialize (Hall x Hin). lia.
Qed.

(** X10.  Every entry [synthesize] returns names its own file, and the
    name is told by the index of the segment in the input alone: the entry
    for the segment at index [i] points at [segment_<i:04d>.wav] in the
    directory of [tempfile.gettempdir()], whatever the temporary directory
    of the run was. *)
Theorem synthesize_names_files_by_index
    (_synthesize_text : string -> string -> exn + unit)
    (temp_dir gettempdir : string) (segments : list Transcript.Segment)
    (out : list SpeechSynthesizer.Synthesized) :
  SpeechSynthesizer.synthesize _synthesize_text temp_dir gettempdir segments
  = inr out ->
  NoDup (map SpeechSynthesizer.audio_file out)
  /\ exists indices,
       StronglySorted lt indices
       /\ Forall (fun i => i < length segments) indices
       /\ map SpeechSynthesizer.audio_file out
          = map (fun i => OutputName.path_join gettempdir (Naming.segment_name i))
              indices.
Proof.
  unfold SpeechSynthesizer.synthesize. rewrite synthesize_loop. simpl.
  intros Hout. injection Hout as <-.
  set (survivors := filter _ (Statements.enumerate_from 0 segments)).
  assert (Hnames : map SpeechSynthesizer.audio_file
                     (map (SpeechSynthesizer.relocate gettempdir)
                        (map (fun p : nat * Transcript.Segment =>
                           {| SpeechSynthesizer.text :=
                                PyStr.strip (Transcript.text (snd p));
                              SpeechSynthesizer.start := Transcript.start (snd p);
                              SpeechSynthesizer.end_ := Transcript.end_ (snd p);
                              SpeechSynthesizer.audio_file :=
                                SpeechSynthesizer.output_file_of temp_dir (fst p) |})
                           survivors))
                   = map (fun i => OutputName.path_join gettempdir (Naming.segment_name i))
                       (map fst survivors)).
  { rewrite !map_map. apply map_ext. intros [i s]. simpl.
    unfold SpeechSynthesizer.output_file_of. f_equal.
    apply (name_of_path_join temp_dir (Naming.segment_name i)), segment_name_no_slash. }
  assert (Hsorted : StronglySorted lt (map fst survivors)).
  { unfold survivors.
    apply (enumerate_filter_sorted
             (fun p : nat * Transcript.Segment =>
                PyStr.truthy (PyStr.strip (Transcript.text (snd p)))
                && Statements.is_inr
                     (_synthesize_text (PyStr.strip (Transcript.text (snd p)))
                        (SpeechSynthesizer.output_file_of temp_dir (fst p))))
             segments 0). }
  split.
  - rewrite Hnames. apply NoDup_fmap_2; [|now apply sorted_NoDup].
    intros i j. apply path_of_index_inj.
  - exists (map fst survivors). split; [exact Hsorted|split; [|exact Hnames]].
    apply Forall_forall. intros i Hin.
    apply list_elem_of_fmap in Hin as ([j s] & -> & Hin). simpl.
    apply list_elem_of_filter in Hin as [_ Hin].
    apply elem_of_enumerate_from in Hin as [_ Hl].
    rewrite Nat.sub_0_r in Hl. now apply lookup_lt_Some in Hl.
Qed.

End FileNames.

(** Scenario B: the files are those of the indices 0 and 2. *)
Lemma synthesize_names_files_by_index_scenario_b :
  NoDup [ "/tmp/segment_0000.wav"; "/tmp/segment_0002.wav" ].
Proof.
  exact (proj1 (synthesize_names_files_by_index
                  (Statements.piper_failing_on "there") "/tmp/tmpdir" "/tmp"
                  Statements.three_segments
                  [ SpeechSynthesizer.mkSynthesized "hello" 0 2
                      "/tmp/segment_0000.wav";
                    SpeechSynthesizer.mkSynthesized "world" 5 6
                      "/tmp/segment_0002.wav" ]
                  eq_refl)).
Defined.

(* ===================================================================== *)
(** ** [synthesize_speech] of the local enhancer *)
(* ===================================================================== *)

Section LocalSynthesisFacts.
Import Statements.
Local Open Scope list_scope.

Variable say : string -> string -> string -> LocalSynthesis.run_outcome.
Variable synth_dir : string.
Variable voice_type : string.

Let outcome (p : nat * SpeechClarityEnhancer.Synthesized) :=
  LocalSynthesis.call say synth_dir voice_type (fst p) (snd p).

Lemma enumerate_from_app {A} (xs ys : list A) (i : nat) :
  enumerate_from i (xs ++ ys)
  = enumerate_from i xs ++ enumerate_from (i + length xs) ys.
Proof.
  revert i. induction xs as [|x xs IH]; intros i; simpl.
  - now rewrite Nat.add_0_r.
  - rewrite IH. do 3 f_equal. lia.
Qed.

Lemma map_snd_enumerate_from {A} (xs : list A) (i : nat) :
  map snd (enumerate_from i xs) = xs.
Proof. revert i. induction xs as [|x xs IH]; intros i; simpl; [|rewrite IH]; auto. Qed.

(** Over segments whose calls the loop survives, the loop appends the
    entries of the completed ones and goes on. *)
Lemma synthesize_loop_survives
    (xs ys acc : list SpeechClarityEnhancer.Synthesized) (i : nat) :
  Forall (fun p => LocalSynthesis.survivable (outcome p) = true)
    (enumerate_from i xs) ->
  LocalSynthesis.synthesize_loop say synth_dir
    (LocalSynthesis.voice_of voice_type) i (xs ++ ys) acc
  = LocalSynthesis.synthesize_loop say synth_dir
      (LocalSynthesis.voice_of voice_type) (i + length xs) ys
      (acc ++ map (LocalSynthesis.entry synth_dir)
                (filter (fun p => LocalSynthesis.completed (outcome p) = true)
                   (enumerate_from i xs))).
Proof.
  revert i acc. induction xs as [|x xs IH]; intros i acc H.
  - simpl. now rewrite Nat.add_0_r, app_nil_r.
  - simpl in H. inversion H as [|? ? Hx Hxs]; subst.
    replace (i + length (x :: xs)) with (S i + length xs) by (simpl; lia).
    cbn [app LocalSynthesis.synthesize_loop enumerate_from].
    rewrite filter_cons. unfold outcome, LocalSynthesis.call in *.
    cbn [fst snd] in *.
    destruct (say _ _ _) as [|[]|e] eqn:E; try discriminate Hx.
    + rewrite IH by exact Hxs. cbn [LocalSynthesis.completed].
      destruct (decide (true = true)); [|congruence].
      cbn [map]. now rewrite <- app_assoc.
    + rewrite IH by exact Hxs. cbn [LocalSynthesis.completed].
      destruct (decide (false = true)); [discriminate|]. reflexivity.
Qed.

(** X11.  When every call to [say] returns or raises
    [CalledProcessError] (with an error output that decodes),
    [synthesize_speech] returns the entries of the calls that returned, in
    input order: their start/end pairs are a subsequence of the input's,
    blank texts included (nothing is skipped for being empty). *)
Theorem synthesize_speech_keeps_completed
    (segments : list SpeechClarityEnhancer.Synthesized) :
  Forall (fun p => LocalSynthesis.survivable (outcome p) = true)
    (enumerate_from 0 segments) ->
  exists out,
    LocalSynthesis.synthesize_speech say synth_dir segments voice_type = inr out
    /\ out = map (LocalSynthesis.entry synth_dir)
               (filter (fun p => LocalSynthesis.completed (outcome p) = true)
                  (enumerate_from 0 segments))
    /\ map (fun s => (SpeechClarityEnhancer.start s, SpeechClarityEnhancer.end_ s))
         out
       `sublist_of`
       map (fun s => (SpeechClarityEnhancer.start s, SpeechClarityEnhancer.end_ s))
         segments.
Proof.
  intros H. eexists. split; [|split; [reflexivity|]].
  - unfold LocalSynthesis.synthesize_speech.
    rewrite <- (app_nil_r segments) at 1.
    rewrite synthesize_loop_survives by exact H. reflexivity.
  - rewrite map_map.
    rewrite <- (map_snd_enumerate_from segments 0) at 2. rewrite map_map.
    cbn [LocalSynthesis.entry SpeechClarityEnhancer.start SpeechClarityEnhancer.end_].
    apply (fmap_sublist _), sublist_filter.
Qed.

(** X12.  Any other exception is not handled: the first call that raises
    something else than [CalledProcessError] ends [synthesize_speech] with
    that exception, and the segments after it are not synthesized (the
    result does not depend on them). *)
Theorem synthesize_speech_aborts_on_other_errors
    (before after : list SpeechClarityEnhancer.Synthesized)
    (segment : SpeechClarityEnhancer.Synthesized) (e : exn) :
  Forall (fun p => LocalSynthesis.survivable (outcome p) = true)
    (enumerate_from 0 before) ->
  outcome (length before, segment) = LocalSynthesis.Raised e ->
  LocalSynthesis.synthesize_speech say synth_dir (before ++ segment :: after)
    voice_type
  = inl e.
Proof.
  intros H He. unfold LocalSynthesis.synthesize_speech.
  rewrite synthesize_loop_survives by exact H.
  cbn [LocalSynthesis.synthesize_loop]. unfold outcome, LocalSynthesis.call in He.
  cbn [fst snd] in He. simpl Nat.add. now rewrite He.
Qed.

End LocalSynthesisFacts.

Section LocalSynthesisExamples.
Local Open Scope list_scope.

(** A [say] that fails with [CalledProcessError] on the second of the
    three entries. *)
Lemma synthesize_speech_keeps_completed_example :
  exists out,
    LocalSynthesis.synthesize_speech
      (fun _ _ text => if String.eqb text "lost"
                       then LocalSynthesis.CalledProcessError true
                       else LocalSynthesis.Completed)
      "/tmp/synthesized"
      [ SpeechClarityEnhancer.mkSynthesized "segment_0000.mp3" "hello" 0 2;
        SpeechClarityEnhancer.mkSynthesized "segment_0001.mp3" "lost" 2 3;
        SpeechClarityEnhancer.mkSynthesized "segment_0002.mp3" "" 3 4 ]
      "british"
    = inr out
    /\ out = [ SpeechClarityEnhancer.mkSynthesized
                 "/tmp/synthesized/synth_0000.aiff" "hello" 0 2;
               SpeechClarityEnhancer.mkSynthesized
                 "/tmp/synthesized/synth_0002.aiff" "" 3 4 ].
Proof.
  destruct (synthesize_speech_keeps_completed
              (fun _ _ text => if String.eqb text "lost"
                               then LocalSynthesis.CalledProcessError true
                               else LocalSynthesis.Completed)
              "/tmp/synthesized" "british"
              [ SpeechClarityEnhancer.mkSynthesized "segment_0000.mp3" "hello" 0 2;
                SpeechClarityEnhancer.mkSynthesized "segment_0001.mp3" "lost" 2 3;
                SpeechClarityEnhancer.mkSynthesized "segment_0002.mp3" "" 3 4 ])
    as (out & Hout & Heq & _).
  - repeat constructor.
  - exists out. split; [exact Hout|]. rewrite Heq. vm_compute. reflexivity.
Defined.

(** A machine without [say]: the first call raises [FileNotFoundError]. *)
Lemma synthesize_speech_aborts_on_other_errors_example :
  LocalSynthesis.synthesize_speech
    (fun _ _ _ => LocalSynthesis.Raised (FileNotFoundError "say"))
    "/tmp/synthesized"
    ([] ++ SpeechClarityEnhancer.mkSynthesized "segment_0000.mp3" "hello" 0 2
        :: [SpeechClarityEnhancer.mkSynthesized "segment_0001.mp3" "world" 3 4])
    "american"
  = inl (FileNotFoundError "say").
Proof.
  apply (synthesize_speech_aborts_on_other_errors
           (fun _ _ _ => LocalSynthesis.Raised (FileNotFoundError "say"))
           "/tmp/synthesized" "american" [] _ _ (FileNotFoundError "say")).
  - constructor.
  - reflexivity.
Defined.

End LocalSynthesisExamples.

(* ===================================================================== *)
(** ** The audio extractor *)
(* ===================================================================== *)

Section ExtractorFacts.
Local Open Scope list_scope.

Let chars := list_ascii_of_string.

Lemma split_on_nonempty (sep : ascii) (s : string) : PyText.split_on sep s <> [].
Proof.
  destruct s as [|c s]; simpl; [discriminate|].
  destruct (Ascii.eqb c sep); [discriminate|].
  destruct (PyText.split_on sep s); discriminate.
Qed.

(** No piece holds the separator, and every character of a piece is one
    of the string that was split. *)
Lemma split_on_pieces (sep : ascii) (s piece : string) :
  In piece (PyText.split_on sep s) ->
  Forall (fun c => c <> sep /\ In c (chars s)) (chars piece).
Proof.
  revert piece. induction s as [|c s IH]; intros piece; simpl.
  - intros [<-|[]]. constructor.
  - destruct (Ascii.eqb c sep) eqn:E.
    + intros [<-|Hin]; [constructor|].
      eapply Forall_impl; [apply IH, Hin|]. simpl. tauto.
    + apply Ascii.eqb_neq in E.
      pose proof (split_on_nonempty sep s) as Hne.
      destruct (PyText.split_on sep s) as [|p rest]; [contradiction|].
      intros [<-|Hin].
      * simpl. constructor; [split; [exact E|now left]|].
        eapply Forall_impl; [apply IH; now left|]. simpl. tauto.
      * eapply Forall_impl; [apply IH; now right|]. simpl. tauto.
Qed.

Lemma last_item_in (l : list string) : l <> [] -> In (PyText.last_item l) l.
Proof.
  unfold PyText.last_item. induction l as [|x l IH]; [contradiction|].
  intros _. destruct l as [|y l]; [now left|].
  right. apply IH. discriminate.
Qed.

Lemma first_item_in (l : list string) : l <> [] -> In (PyText.first_item l) l.
Proof. destruct l; [contradiction|now left]. Qed.

(** X13.  The title taken from a URL is never empty and is a single
    name: it holds no ["/"] and no ["?"], whatever the URL. *)
Theorem url_file_name_is_a_name (audio_url : string) :
  AudioExtractor.url_file_name audio_url <> ""
  /\ Forall (fun c => c <> "/"%char /\ c <> "?"%char)
       (list_ascii_of_string (AudioExtractor.url_file_name audio_url)).
Proof.
  unfold AudioExtractor.url_file_name, PyText.or_else.
  set (tail := PyText.last_item (PyText.split_on "/" audio_url)).
  set (name := PyText.first_item (PyText.split_on "?" tail)).
  destruct (PyStr.truthy name) eqn:E.
  - split; [now apply truthy_nonempty|].
    pose proof (split_on_pieces "/" audio_url tail
                  (last_item_in _ (split_on_nonempty _ _))) as Htail.
    pose proof (split_on_pieces "?" tail name
                  (first_item_in _ (split_on_nonempty _ _))) as Hname.
    rewrite Forall_forall in Htail, Hname. apply Forall_forall.
    intros c Hin. destruct (Hname c Hin) as [Hq Hc].
    split; [|exact Hq].
    apply (proj2 (list_elem_of_In _ _)) in Hc. now destruct (Htail c Hc).
  - split; [discriminate|]. repeat constructor; discriminate.
Qed.

Variable temp_dir : string.
Variable youtube_dl : string -> string -> exn + option string.
Variable path_exists : string -> bool.
Variable convert_to_mp3 : string -> string -> exn + unit.
Variable curl : string -> string -> exn + unit.

Let extract :=
  AudioExtractor.extract temp_dir youtube_dl path_exists convert_to_mp3 curl.

(** X14.  Whatever the kind of source, an extraction that returns has
    left its audio at [audio.mp3] in the extractor's own directory, and the
    kind was one of the three supported ones; any other kind raises
    [ValueError] without a tool being called, and a tool that has such an
    extractor aborts on it with that error, having written nothing. *)
Theorem extract_writes_one_place (source source_type : string) :
  (forall path title,
      extract source source_type = inr (path, title) ->
      path = OutputName.path_join temp_dir "audio.mp3"
      /\ (source_type = "youtube" \/ source_type = "file" \/ source_type = "url"))
  /\ (source_type <> "youtube" -> source_type <> "file" -> source_type <> "url" ->
      extract source source_type
      = inl (ValueError ("Unsupported source type: " +:+ source_type))
      /\ forall (tool : EnhancedSpeechTool.Components) w,
           EnhancedSpeechTool.extractor_extract tool = extract ->
           EnhancedSpeechTool.process tool source source_type w
           = (w, inl (ValueError ("Unsupported source type: " +:+ source_type)))).
Proof.
  split.
  - intros path title. unfold extract, AudioExtractor.extract.
    destruct (String.eqb source_type "youtube") eqn:E1.
    { apply String.eqb_eq in E1. unfold AudioExtractor._extract_from_youtube.
      destruct (youtube_dl _ _); [discriminate|].
      intros H. injection H as <- _. auto. }
    destruct (String.eqb source_type "file") eqn:E2.
    { apply String.eqb_eq in E2. unfold AudioExtractor._extract_from_file.
      destruct (negb (path_exists source)); [discriminate|].
      destruct (convert_to_mp3 _ _); [discriminate|].
      intros H. injection H as <- _. auto. }
    destruct (String.eqb source_type "url") eqn:E3; [|discriminate].
    apply String.eqb_eq in E3. unfold AudioExtractor._extract_from_url.
    destruct (curl _ _); [discriminate|].
    intros H. injection H as <- _. auto.
  - intros H1 H2 H3.
    apply String.eqb_neq in H1, H2, H3.
    assert (Hx : extract source source_type
                 = inl (ValueError ("Unsupported source type: " +:+ source_type))).
    { unfold extract, AudioExtractor.extract. now rewrite H1, H2, H3. }
    split; [exact Hx|].
    intros tool w Htool.
    unfold EnhancedSpeechTool.process, EnhancedSpeechTool.process_body,
      SEMonad.try_except, mbind, SE_bind, SEMonad.bind, SEMonad.lift,
      SEMonad.raise.
    rewrite Htool, Hx. reflexivity.
Qed.

End ExtractorFacts.

(* ===================================================================== *)
(** ** Capitalizing sentences *)
(* ===================================================================== *)

Section SentenceFacts.
Import Sentences.
Local Open Scope list_scope.
#[local] Arguments String.append !s1 s2 : simpl nomatch.

Let chars := list_ascii_of_string.

Variable upper : ascii -> string.
Hypothesis upper_ok : keeps_marks upper.

Lemma mark_not_space (c : ascii) : is_mark c = true -> PyStr.isspace c = false.
Proof.
  destruct c as [[] [] [] [] [] [] [] []]; intros H;
    try discriminate H; reflexivity.
Qed.

Lemma glued_app (pm : bool) (l1 l2 : list ascii) :
  glued pm (l1 ++ l2)
  = glued pm l1
    && glued (match rev l1 with [] => pm | c :: _ => is_mark c end) l2.
Proof.
  revert pm. induction l1 as [|c l1 IH]; intros pm; [reflexivity|].
  cbn [app glued rev]. rewrite IH, andb_assoc. do 2 f_equal.
  destruct (rev l1) as [|d r]; reflexivity.
Qed.

Lemma glued_weaken (l : list ascii) : glued true l = true -> glued false l = true.
Proof. destruct l as [|c l]; [auto|]. cbn [glued]. now destruct (PyStr.isspace c). Qed.

Lemma glued_plain (pm : bool) (l : list ascii) :
  Forall (fun d => is_mark d = false /\ PyStr.isspace d = false) l ->
  glued pm l = true.
Proof.
  intros H. revert pm. induction H as [|d l [Hm Hs] _ IH]; intros pm; [reflexivity|].
  cbn [glued]. rewrite Hs, Hm, andb_false_r. apply IH.
Qed.

Lemma well_split_head (b : bool) (ps : list string) :
  well_split b ps ->
  exists p rest, ps = p :: rest /\ piece_ok b p.
Proof.
  destruct ps as [|p [|d rest]]; simpl; [tauto| |]; intros H.
  - exists p, []. auto.
  - exists p, (d :: rest). tauto.
Qed.

Lemma well_split_replace_head (b b' : bool) (p p' : string) (rest : list string) :
  well_split b (p :: rest) -> piece_ok b' p' -> well_split b' (p' :: rest).
Proof. destruct rest as [|d rest]; simpl; tauto. Qed.

(** What [re_split] returns is well split, and its first piece begins
    with whitespace only if the string does and no whitespace is being
    skipped. *)
Lemma re_split_well_split (s : string) (skipping : bool) :
  well_split skipping (re_split skipping s)
  /\ (head_is_space (PyText.first_item (re_split skipping s)) = true ->
      skipping = false /\ head_is_space s = true).
Proof.
  revert skipping. induction s as [|c s IH]; intros skipping.
  - simpl. split; [split; [reflexivity|reflexivity]|discriminate].
  - cbn [re_split].
    destruct (skipping && PyStr.isspace c) eqn:E1.
    + apply andb_true_iff in E1 as [-> Hc].
      destruct (IH true) as [Hw Hh]. split; [exact Hw|].
      intros H. destruct (Hh H). discriminate.
    + destruct (is_mark c && head_is_space s) eqn:E2.
      * destruct (IH true) as [Hw _]. split; [|discriminate].
        apply andb_true_iff in E2 as [Hm _].
        cbn [well_split]. split; [split; [reflexivity|reflexivity]|].
        split; [exists c; auto|exact Hw].
      * destruct (IH false) as [Hw Hh].
        destruct (well_split_head _ _ Hw) as (p & rest & Heq & [Hg _]).
        rewrite Heq in *. cbn [PyText.first_item hd] in *.
        assert (Hpiece : piece_ok skipping (String c p)).
        { split.
          - unfold chars. cbn [list_ascii_of_string glued]. simpl andb.
            fold (chars p).
            destruct (is_mark c) eqn:Hm; [|exact Hg].
            simpl in E2.
            destruct p as [|d p']; [reflexivity|].
            unfold chars in *. cbn [list_ascii_of_string glued] in *.
            destruct (PyStr.isspace d) eqn:Hd; [|exact Hg].
            exfalso. destruct (Hh Hd) as [_ Hs]. congruence.
          - intros ->. simpl in E1. exact E1. }
        split; [exact (well_split_replace_head _ _ _ _ _ Hw Hpiece)|].
        cbn [head_is_space]. intros Hc. split; [|exact Hc].
        destruct skipping; [simpl in E1; congruence|reflexivity].
Qed.

Lemma chars_app_string (s t : string) : chars (s +:+ t) = chars s ++ chars t.
Proof. induction s as [|c s IH]; simpl; [reflexivity|]. now rewrite IH. Qed.

Lemma join_cons (sep w : string) (ws : list string) :
  ws <> [] -> PyText.join sep (w :: ws) = w +:+ sep +:+ PyText.join sep ws.
Proof. destruct ws; [contradiction|reflexivity]. Qed.

Lemma chars_join_empty (ws : list string) :
  chars (PyText.join "" ws) = concat (map chars ws).
Proof.
  induction ws as [|w ws IH]; [reflexivity|].
  destruct (decide (ws = [])) as [->|Hne].
  - simpl. now rewrite app_nil_r.
  - rewrite join_cons by exact Hne. rewrite !chars_app_string, IH. reflexivity.
Qed.

(** A capitalized piece is glued like the piece it came from. *)
Lemma capitalize_glued (pm b : bool) (p : string) :
  piece_ok b p -> (pm = true -> b = true) ->
  glued pm (chars (capitalize upper p)) = true.
Proof.
  intros [Hg Hhead] Hpm.
  destruct p as [|c r]; [reflexivity|].
  cbn [capitalize]. rewrite chars_app_string.
  unfold chars in Hg. cbn [list_ascii_of_string glued] in Hg. simpl andb in Hg.
  fold (chars r) in Hg. cbn [head_is_space] in Hhead.
  destruct (upper_ok c) as [Hne [Hsame|Hplain]].
  - rewrite Hsame. change (chars (String c "") ++ chars r) with (c :: chars r).
    cbn [glued]. rewrite Hg, andb_true_r.
    destruct pm; [|reflexivity]. now rewrite (Hhead (Hpm eq_refl)).
  - rewrite glued_app, (glued_plain _ _ Hplain). cbn [andb].
    assert (Hflag : match rev (chars (upper c)) with
                    | [] => pm
                    | d :: _ => is_mark d
                    end = false).
    { destruct (rev (chars (upper c))) as [|d l] eqn:E.
      - exfalso. apply Hne.
        apply (f_equal (@rev ascii)) in E. rewrite rev_involutive in E.
        simpl in E. destruct (upper c); [reflexivity|discriminate].
      - rewrite Forall_forall in Hplain.
        apply (Hplain d), list_elem_of_In, in_rev.
        fold (chars (upper c)). rewrite E. now left. }
    rewrite Hflag. destruct (is_mark c); [now apply glued_weaken|exact Hg].
Qed.

(** Joining the capitalized pieces of a well split list gives a glued
    text. *)
Lemma capitalized_glued (n : nat) (ps : list string) (pm b : bool) :
  length ps <= n -> well_split b ps -> (pm = true -> b = true) ->
  glued pm (concat (map chars (capitalize_even upper true ps))) = true.
Proof.
  revert ps pm b. induction n as [|n IH]; intros ps pm b Hlen Hw Hpm.
  - destruct ps; [destruct Hw|simpl in Hlen; lia].
  - destruct ps as [|p [|d rest]]; [destruct Hw| |].
    + simpl in Hw. cbn [capitalize_even map concat]. rewrite app_nil_r.
      exact (capitalize_glued pm b p Hw Hpm).
    + destruct Hw as (Hp & (m & -> & Hm) & Hrest).
      cbn [capitalize_even negb map concat].
      rewrite glued_app, (capitalize_glued pm b p Hp Hpm). cbn [andb].
      change (chars (String m "")) with [m]. cbn [app glued].
      rewrite (mark_not_space m Hm), andb_false_r, Hm. cbn [negb andb].
      apply (IH rest true true); [simpl in Hlen; lia|exact Hrest|auto].
Qed.

Lemma glued_pairs (l : list ascii) (pm : bool) :
  glued pm l = true ->
  forall l1 m w l2,
    l = l1 ++ m :: w :: l2 -> is_mark m = true -> PyStr.isspace w = false.
Proof.
  intros Hg l1. revert l pm Hg.
  induction l1 as [|c l1 IH]; intros l pm Hg m w l2 -> Hm.
  - cbn [app glued] in Hg. rewrite Hm in Hg.
    apply andb_true_iff in Hg as [_ Hg]. apply andb_true_iff in Hg as [Hg _].
    now destruct (PyStr.isspace w).
  - cbn [app glued] in Hg. apply andb_true_iff in Hg as [_ Hg].
    exact (IH _ _ Hg m w l2 eq_refl Hm).
Qed.

(** X15.  [_capitalize_sentences] glues the sentences together: the
    whitespace after a sentence-ending mark is consumed by the split and
    never put back, so in what it returns no [.], [!] or [?] is followed by
    whitespace (for an [upper] that neither deletes a character nor makes
    marks or whitespace out of one). *)
Theorem capitalize_sentences_glues (text : string)
    (before after : list ascii) (mark next : ascii) :
  list_ascii_of_string (_capitalize_sentences upper text)
  = before ++ mark :: next :: after ->
  is_mark mark = true ->
  PyStr.isspace next = false.
Proof.
  intros Hout Hm.
  assert (Hg : glued false (chars (_capitalize_sentences upper text)) = true).
  { unfold _capitalize_sentences. rewrite chars_join_empty.
    destruct (re_split_well_split text false) as [Hw _].
    apply (capitalized_glued _ _ false false (Nat.le_refl _) Hw). discriminate. }
  exact (glued_pairs _ _ Hg before mark next after Hout Hm).
Qed.

End SentenceFacts.

Lemma upper_latin1_keeps_marks : Sentences.keeps_marks Sentences.upper_latin1.
Proof.
  intros c. destruct c as [[] [] [] [] [] [] [] []];
    (split; [discriminate|]);
    first [left; reflexivity
          | right; repeat (constructor 2; [split; reflexivity|]);
            constructor 1].
Qed.

(** Three sentences, capitalized and glued. *)
Lemma capitalize_sentences_glues_example :
  Sentences._capitalize_sentences Sentences.upper_latin1 "hello.  you! ok"
  = "Hello.You!Ok"
  /\ PyStr.isspace "Y" = false.
Proof.
  split; [reflexivity|].
  apply (capitalize_sentences_glues Sentences.upper_latin1
           upper_latin1_keeps_marks "hello.  you! ok"
           (list_ascii_of_string "Hello") (list_ascii_of_string "ou!Ok")
           "."%char "Y"%char); reflexivity.
Defined.

(* ===================================================================== *)
(** ** Normalizing punctuation *)
(* ===================================================================== *)

Section Punctuation.
Import TranscriptionEnhancer.
Local Open Scope list_scope.
#[local] Arguments String.append !s1 s2 : simpl nomatch.

Let chars := list_ascii_of_string.
Let nonspace (c : ascii) : Prop := PyStr.isspace c = false.

(** [replace(m, m + " ")] on characters. *)
Let expand (m : ascii) (l : list ascii) : list ascii :=
  flat_map (fun c => if Ascii.eqb c m then [m; " "%char] else [c]) l.

Let next_is_space (l : list ascii) : bool :=
  match l with [] => true | d :: _ => PyStr.isspace d end.

Lemma chars_append (s t : string) : chars (s +:+ t) = chars s ++ chars t.
Proof. induction s as [|c s IH]; simpl; [reflexivity|]. now rewrite IH. Qed.

Lemma replace_one_char (m : ascii) (s : string) :
  chars (PyText.replace (String m "") (String m " ") s) = expand m (chars s).
Proof.
  unfold PyText.replace. induction s as [|c s IH]; [reflexivity|].
  cbn [PyText.replace_from PyText.startswith String.length Nat.sub].
  rewrite andb_true_r, Ascii.eqb_sym.
  unfold expand, chars in *. cbn [list_ascii_of_string flat_map].
  destruct (Ascii.eqb c m) eqn:E.
  - apply Ascii.eqb_eq in E. subst c.
    change (String m " " +:+ ?x) with (String m (String " " x)).
    cbn [list_ascii_of_string app]. now rewrite IH.
  - cbn [list_ascii_of_string app]. now rewrite IH.
Qed.

Lemma next_is_space_expand (m : ascii) (l : list ascii) :
  PyStr.isspace m = false -> next_is_space (expand m l) = next_is_space l.
Proof.
  intros Hm. destruct l as [|d l]; [reflexivity|].
  unfold expand. cbn [flat_map].
  destruct (Ascii.eqb d m) eqn:E; [|reflexivity].
  apply Ascii.eqb_eq in E. subst d. simpl. now rewrite Hm.
Qed.

Lemma spaced_unfold (marks : ascii -> bool) (c : ascii) (l : list ascii) :
  spaced marks (c :: l)
  = (if marks c then next_is_space l else true) && spaced marks l.
Proof. reflexivity. Qed.

(** Spacing one more mark keeps the marks already spaced. *)
Lemma expand_spaced (marks : ascii -> bool) (m : ascii) (l : list ascii) :
  PyStr.isspace m = false ->
  (forall c, marks c = true -> PyStr.isspace c = false) ->
  spaced marks l = true ->
  spaced (fun c => marks c || Ascii.eqb c m) (expand m l) = true.
Proof.
  intros Hm Hmarks. induction l as [|c l IH]; [reflexivity|].
  rewrite spaced_unfold. intros H. apply andb_true_iff in H as [Hc Hl].
  specialize (IH Hl).
  change (expand m (c :: l))
    with ((if Ascii.eqb c m then [m; " "%char] else [c]) ++ expand m l).
  destruct (Ascii.eqb c m) eqn:E.
  - cbn [app]. rewrite !spaced_unfold.
    assert (Hsp : (marks " "%char || Ascii.eqb " " m) = false).
    { apply orb_false_iff. split.
      - destruct (marks " "%char) eqn:Es; [|reflexivity].
        apply Hmarks in Es. discriminate.
      - destruct (Ascii.eqb " " m) eqn:Es; [|reflexivity].
        apply Ascii.eqb_eq in Es. subst m. discriminate. }
    rewrite Hsp, IH, Ascii.eqb_refl, orb_true_r. reflexivity.
  - cbn [app]. rewrite spaced_unfold, IH, E, orb_false_r, andb_true_r.
    destruct (marks c); [|reflexivity].
    now rewrite next_is_space_expand.
Qed.

Lemma spaced_ext (f g : ascii -> bool) (l : list ascii) :
  (forall c, f c = g c) -> spaced f l = spaced g l.
Proof.
  intros H. induction l as [|c l IH]; [reflexivity|].
  now rewrite !spaced_unfold, IH, H.
Qed.

Lemma spaced_nothing (l : list ascii) : spaced (fun _ => false) l = true.
Proof. induction l as [|c l IH]; [reflexivity|]. now rewrite spaced_unfold, IH. Qed.

Lemma punctuation_not_space (c : ascii) :
  is_punctuation c = true -> PyStr.isspace c = false.
Proof.
  destruct c as [[] [] [] [] [] [] [] []]; intros H;
    try discriminate H; reflexivity.
Qed.

(** After the six replacements every mark is followed by a space. *)
Lemma space_after_spaced (text : string) :
  spaced is_punctuation (chars (space_after text)) = true.
Proof.
  unfold space_after. cbv zeta.
  rewrite !replace_one_char.
  rewrite (spaced_ext is_punctuation
             (fun c => (((((false || Ascii.eqb c ",") || Ascii.eqb c ".")
                          || Ascii.eqb c "!") || Ascii.eqb c "?")
                        || Ascii.eqb c ":") || Ascii.eqb c ";"))
    by reflexivity.
  repeat (apply expand_spaced;
          [reflexivity
          |let c := fresh "c" in
           let H := fresh "H" in
           intros c H; apply punctuation_not_space;
           unfold is_punctuation;
           repeat (apply orb_true_iff in H as [H|H]);
           try discriminate H; rewrite H; cbn; rewrite ?orb_true_r; reflexivity
          |]).
  apply spaced_nothing.
Qed.

Lemma spaced_app_r (marks : ascii -> bool) (a b : list ascii) :
  spaced marks (a ++ b) = true -> spaced marks b = true.
Proof.
  induction a as [|c a IH]; [auto|].
  cbn [app]. rewrite spaced_unfold. intros H.
  apply andb_true_iff in H as [_ H]. auto.
Qed.

(** A run without whitespace, cut out of a spaced text, has marks at its
    end only. *)
Lemma inner_plain_of_spaced (marks : ascii -> bool) (w rest : list ascii) :
  Forall nonspace w -> spaced marks (w ++ rest) = true ->
  inner_plain marks w = true.
Proof.
  induction 1 as [|c w Hc Hw IH]; [reflexivity|].
  cbn [app]. rewrite spaced_unfold. intros H.
  apply andb_true_iff in H as [Hfirst Hrest].
  destruct w as [|d w]; [reflexivity|].
  change (inner_plain marks (c :: d :: w))
    with (negb (marks c) && inner_plain marks (d :: w)).
  rewrite (IH Hrest), andb_true_r.
  inversion Hw as [|? ? Hd _]; subst. unfold nonspace in Hd.
  destruct (marks c); [|reflexivity].
  simpl in Hfirst. congruence.
Qed.

(** What makes a word of a spaced text. *)
Let word_ok (marks : ascii -> bool) (w : string) : Prop :=
  inner_plain marks (chars w) = true
  /\ chars w <> []
  /\ Forall nonspace (chars w).

Lemma split_aux_words (marks : ascii -> bool) (s : string) (cur : list ascii) :
  Forall nonspace cur ->
  spaced marks (rev cur ++ chars s) = true ->
  Forall (word_ok marks) (PyStr.split_aux cur s).
Proof.
  revert cur. induction s as [|c s IH]; intros cur Hcur Hsp.
  - cbn [PyStr.split_aux]. destruct cur as [|d cur]; [constructor|].
    repeat constructor; unfold chars;
      rewrite list_ascii_of_string_of_list_ascii.
    + apply (inner_plain_of_spaced marks _ []); [|exact Hsp].
      apply Forall_forall. intros x Hx.
      rewrite Forall_forall in Hcur. apply Hcur.
      apply list_elem_of_In. apply list_elem_of_In, in_rev in Hx. exact Hx.
    + simpl. intros H. apply app_eq_nil in H as [_ H]. discriminate.
    + apply Forall_forall. intros x Hx.
      rewrite Forall_forall in Hcur. apply Hcur.
      apply list_elem_of_In. apply list_elem_of_In, in_rev in Hx. exact Hx.
  - cbn [PyStr.split_aux].
    change (chars (String c s)) with (c :: chars s) in Hsp.
    destruct (PyStr.isspace c) eqn:Hc.
    + assert (Hrest : Forall (word_ok marks) (PyStr.split_aux [] s)).
      { apply IH; [constructor|].
        apply (spaced_app_r marks (rev cur ++ [c])).
        now rewrite <- app_assoc. }
      destruct cur as [|d cur]; [exact Hrest|].
      constructor; [|exact Hrest].
      repeat split; unfold chars;
        rewrite list_ascii_of_string_of_list_ascii.
      * apply (inner_plain_of_spaced marks _ (c :: chars s)); [|exact Hsp].
        apply Forall_forall. intros x Hx.
        rewrite Forall_forall in Hcur. apply Hcur.
        apply list_elem_of_In. apply list_elem_of_In, in_rev in Hx. exact Hx.
      * simpl. intros H. apply app_eq_nil in H as [_ H]. discriminate.
      * apply Forall_forall. intros x Hx.
        rewrite Forall_forall in Hcur. apply Hcur.
        apply list_elem_of_In. apply list_elem_of_In, in_rev in Hx. exact Hx.
    + apply IH; [constructor; [exact Hc|exact Hcur]|].
      cbn [rev]. now rewrite <- app_assoc.
Qed.

Lemma ssa_unfold (marks : ascii -> bool) (prev : bool) (c : ascii) (l : list ascii) :
  single_space_after marks prev (c :: l)
  = (if prev then Ascii.eqb c " " else true)
    && single_space_after marks (marks c) l.
Proof. reflexivity. Qed.

(** A word, then a space, then a text that is in order. *)
Lemma ssa_word (marks : ascii -> bool) (w tail : list ascii) :
  marks " "%char = false ->
  inner_plain marks w = true ->
  (tail = [] \/ exists r, tail = " "%char :: r) ->
  single_space_after marks false tail = true ->
  single_space_after marks false (w ++ tail) = true.
Proof.
  intros Hsp. induction w as [|c w IH]; intros Hin Htail Hok; [exact Hok|].
  cbn [app]. rewrite ssa_unfold. cbn [andb].
  destruct w as [|d w].
  - cbn [app]. destruct Htail as [->|[r ->]]; [reflexivity|].
    rewrite ssa_unfold, Hsp in *. cbn [andb] in Hok.
    rewrite Ascii.eqb_refl. now destruct (marks c).
  - cbn [inner_plain] in Hin. apply andb_true_iff in Hin as [Hc Hin].
    apply negb_true_iff in Hc. rewrite Hc. now apply IH.
Qed.

Lemma join_space_cons (w : string) (ws : list string) :
  ws <> [] -> chars (PyText.join " " (w :: ws))
              = chars w ++ " "%char :: chars (PyText.join " " ws).
Proof.
  destruct ws as [|w' ws]; [contradiction|]. intros _.
  change (PyText.join " " (w :: w' :: ws))
    with (w +:+ " " +:+ PyText.join " " (w' :: ws)).
  now rewrite !chars_append.
Qed.

Lemma join_words_ssa (marks : ascii -> bool) (ws : list string) :
  marks " "%char = false ->
  Forall (fun w => inner_plain marks (chars w) = true) ws ->
  single_space_after marks false (chars (PyText.join " " ws)) = true.
Proof.
  intros Hsp H. induction H as [|w ws Hw _ IH]; [reflexivity|].
  destruct (decide (ws = [])) as [->|Hne].
  - cbn [PyText.join]. rewrite <- (app_nil_r (chars w)).
    apply ssa_word; auto.
  - rewrite join_space_cons by exact Hne.
    apply ssa_word; [exact Hsp|exact Hw|eauto|].
    rewrite ssa_unfold, Hsp. exact IH.
Qed.

Lemma ssa_pairs (marks : ascii -> bool) (l : list ascii) (prev : bool) :
  single_space_after marks prev l = true ->
  forall before m next after,
    l = before ++ m :: next :: after -> marks m = true -> next = " "%char.
Proof.
  intros H before. revert l prev H.
  induction before as [|c before IH]; intros l prev H m next after -> Hm.
  - cbn [app] in H. rewrite !ssa_unfold, Hm in H.
    apply andb_true_iff in H as [_ H]. apply andb_true_iff in H as [H _].
    symmetry. now apply Ascii.eqb_eq.
  - cbn [app] in H. rewrite ssa_unfold in H. apply andb_true_iff in H as [_ H].
    exact (IH _ _ H m next after eq_refl Hm).
Qed.

Lemma normalize_text_words (text : string) :
  exists ws,
    normalize_text text = PyText.join " " ws
    /\ Forall (word_ok is_punctuation) ws.
Proof.
  exists (PyStr.split (space_after (no_space_before text))).
  split; [reflexivity|].
  apply split_aux_words; [constructor|]. apply space_after_spaced.
Qed.

Lemma normalize_text_ssa (text : string) :
  single_space_after is_punctuation false (chars (normalize_text text)) = true.
Proof.
  destruct (normalize_text_words text) as (ws & -> & Hws).
  apply join_words_ssa; [reflexivity|].
  eapply Forall_impl; [exact Hws|]. intros w Hw. apply Hw.
Qed.

(** X16.  In a text normalized by [_normalize_punctuation] each of
    [, . ! ? : ;] either ends the text or is followed by exactly one
    space, whatever stood there before. *)
Theorem normalize_text_spaces_marks (text : string)
    (before after : list ascii) (mark next : ascii) :
  list_ascii_of_string (normalize_text text) = before ++ mark :: next :: after ->
  is_punctuation mark = true ->
  next = " "%char
  /\ (forall rest, after = " "%char :: rest -> False).
Proof.
  intros Hout Hm.
  assert (Hnext : next = " "%char)
    by exact (ssa_pairs _ _ _ (normalize_text_ssa text) _ _ _ _ Hout Hm).
  split; [exact Hnext|]. subst next.
  intros rest ->.
  destruct (normalize_text_words text) as (ws & Heq & Hws).
  assert (Hss : forall ws ps,
             Forall (word_ok is_punctuation) ws -> ws <> [] ->
             single_spaced ps (chars (PyText.join " " ws)) = true).
  { clear. intros ws ps H. revert ps.
    induction H as [|w ws Hw _ IH]; intros ps Hne; [contradiction|].
    assert (Hword : forall tail ps',
               single_spaced ps' (chars w ++ tail) = single_spaced false tail).
    { destruct Hw as (_ & Hnil & Hns). revert Hnil.
      induction Hns as [|c l Hc _ IHl]; intros Hnil tail ps'; [contradiction|].
      cbn [app single_spaced]. unfold nonspace in Hc. rewrite Hc.
      destruct l as [|d l]; [reflexivity|]. apply IHl. discriminate. }
    destruct (decide (ws = [])) as [->|Hne'].
    - cbn [PyText.join]. rewrite <- (app_nil_r (chars w)), Hword. reflexivity.
    - rewrite join_space_cons by exact Hne'. rewrite Hword.
      cbn [single_spaced]. change (PyStr.isspace " ") with true.
      cbn. now apply IH. }
  assert (Hno : forall l ps,
             single_spaced ps l = true ->
             forall b a, l = b ++ " "%char :: " "%char :: a -> False).
  { clear. intros l ps H b. revert l ps H.
    induction b as [|c b IH]; intros l ps H a ->.
    - cbn [app single_spaced] in H. change (PyStr.isspace " ") with true in H.
      cbn in H. rewrite andb_false_r in H. destruct ps; discriminate.
    - cbn [app single_spaced] in H.
      destruct (PyStr.isspace c).
      + apply andb_true_iff in H as [_ H]. eapply IH; eauto.
      + eapply IH; eauto. }
  destruct (decide (ws = [])) as [->|Hne].
  - rewrite Heq in Hout. cbn in Hout. destruct before; discriminate.
  - apply (Hno _ true (Hss ws true Hws Hne) (before ++ [mark]) rest).
    fold (chars (normalize_text text)) in Hout. rewrite <- Heq, Hout.
    now rewrite <- app_assoc.
Qed.

Lemma ssa_then_space (marks : ascii -> bool) (prev : bool)
    (l tail : list ascii) :
  marks " "%char = false ->
  single_space_after marks prev l = true ->
  single_space_after marks false tail = true ->
  single_space_after marks prev (l ++ " "%char :: tail) = true.
Proof.
  intros Hsp Hl Htail. revert prev Hl.
  induction l as [|c l IH]; intros prev Hl.
  - cbn [app]. rewrite ssa_unfold, Hsp, Htail, andb_true_r.
    destruct prev; reflexivity.
  - cbn [app]. rewrite ssa_unfold in *.
    apply andb_true_iff in Hl as [H1 H2]. rewrite H1. cbn [andb].
    now apply IH.
Qed.

(** Normalized texts joined by spaces. *)
Lemma join_normalized_ssa (texts : list string) :
  single_space_after is_punctuation false
    (chars (PyText.join " " (map normalize_text texts))) = true.
Proof.
  induction texts as [|s texts IH]; [reflexivity|].
  cbn [map].
  destruct (decide (map normalize_text texts = [])) as [Hnil|Hne].
  - rewrite Hnil. cbn [PyText.join]. apply normalize_text_ssa.
  - rewrite join_space_cons by exact Hne.
    apply ssa_then_space; [reflexivity|apply normalize_text_ssa|exact IH].
Qed.

(** X17.  [enhance] keeps the segments and their times: a transcription
    with segments comes back with as many, each with the start and the end
    it had and its text normalized, the full text rebuilt from them; and in
    the full text, too, every mark ends the text or is followed by a
    space.  A transcription without segments comes back as it was. *)
Theorem enhance_keeps_segments (self : t) (transcription : Transcription) :
  match segments transcription with
  | None => enhance self transcription = transcription
  | Some segs =>
      exists segs',
        segments (enhance self transcription) = Some segs'
        /\ map start segs' = map start segs
        /\ map end_ segs' = map end_ segs
        /\ map text segs' = map (fun s => normalize_text (text s)) segs
        /\ full_text (enhance self transcription)
           = PyText.join " " (map text segs')
        /\ forall before mark next after,
             list_ascii_of_string (full_text (enhance self transcription))
             = before ++ mark :: next :: after ->
             is_punctuation mark = true -> next = " "%char
  end.
Proof.
  unfold enhance, filter_words, _apply_language_model, _normalize_punctuation.
  cbv zeta.
  destruct (segments transcription) as [segs|] eqn:Hsegs.
  - cbn [segments].
    assert (Hsame : (if language_model self && true
                     then {| full_text := full_text transcription;
                             segments := Some (map (fun segment =>
                               match words segment with
                               | None => segment
                               | Some ws =>
                                   with_words segment
                                     (List.filter (confident self) ws)
                               end) segs) |}
                     else {| full_text := full_text transcription;
                             segments := Some (map (fun segment =>
                               match words segment with
                               | None => segment
                               | Some ws =>
                                   with_words segment
                                     (List.filter (confident self) ws)
                               end) segs) |})
                    = {| full_text := full_text transcription;
                         segments := Some (map (fun segment =>
                           match words segment with
                           | None => segment
                           | Some ws =>
                               with_words segment
                                 (List.filter (confident self) ws)
                           end) segs) |})
      by (destruct (language_model self && true); reflexivity).
    rewrite Hsame. cbn [segments full_text].
    eexists. split; [reflexivity|].
    rewrite !map_map.
    assert (Htexts : map (fun x => text (with_text
                       match words x with
                       | None => x
                       | Some ws => with_words x (List.filter (confident self) ws)
                       end
                       (normalize_text (text
                          match words x with
                          | None => x
                          | Some ws => with_words x (List.filter (confident self) ws)
                          end)))) segs
                     = map (fun s => normalize_text (text s)) segs).
    { apply map_ext. intros s. destruct (words s); reflexivity. }
    split; [apply map_ext; intros s; destruct (words s); reflexivity|].
    split; [apply map_ext; intros s; destruct (words s); reflexivity|].
    split; [exact Htexts|]. split; [reflexivity|].
    rewrite Htexts.
    pose proof (join_normalized_ssa (map text segs)) as Hssa.
    rewrite map_map in Hssa.
    intros before mark next after Hout Hm.
    exact (ssa_pairs _ _ _ Hssa _ _ _ _ Hout Hm).
  - rewrite Hsegs. destruct (language_model self); cbn [andb];
      rewrite Hsegs; reflexivity.
Qed.

End Punctuation.

(** Python's results for the same texts. *)
Example normalize_text_examples :
  TranscriptionEnhancer.normalize_text "a  ,b" = "a , b"
  /\ TranscriptionEnhancer.normalize_text "3.14 is pi ..." = "3. 14 is pi. . ."
  /\ TranscriptionEnhancer.normalize_text "hi !ok" = "hi! ok"
  /\ PyText.replace "aa" "b" "aaa" = "ba"
  /\ PyText.replace ".mp3" "" "a.mp3.mp3x" = "ax".
Proof. repeat split; reflexivity. Qed.

(** A text with a mark before a letter. *)
Lemma normalize_text_spaces_marks_example :
  " "%char = " "%char
  /\ (forall rest, list_ascii_of_string "yes" = " "%char :: rest -> False).
Proof.
  exact (normalize_text_spaces_marks "so,yes"
           (list_ascii_of_string "so") (list_ascii_of_string "yes")
           ","%char " "%char eq_refl eq_refl).
Defined.

(* ===================================================================== *)
(** ** The configuration  (src/src/config.py) *)
(* ===================================================================== *)

Section EnvironmentValues.
Local Open Scope list_scope.

Lemma str_of_nat_reads_back (n : nat) :
  Decimal.int (PyStr.str_of_nat n) = n
  /\ Forall (fun c => Decimal.is_ascii_digit c = true)
       (list_ascii_of_string (PyStr.str_of_nat n)).
Proof.
  unfold PyStr.str_of_nat.
  destruct (digits_fuel_reads_back (S n) n "" (Nat.lt_succ_diag_r n))
    as (d & Hd & Hv & Hall).
  assert (Hnil : d +:+ "" = d).
  { clear. induction d as [|c d IH]; [reflexivity|].
    change (String c d +:+ "") with (String c (d +:+ "")). now rewrite IH. }
  rewrite Hnil in Hd. rewrite Hd. split; assumption.
Qed.

Lemma lower_char_digit (c : ascii) :
  Decimal.is_ascii_digit c = true -> Config.lower_char c = c.
Proof.
  destruct c as [[] [] [] [] [] [] [] []]; intros H;
    try discriminate H; reflexivity.
Qed.

Lemma isdigit_char_digit (c : ascii) :
  Decimal.is_ascii_digit c = true -> Config.isdigit_char c = true.
Proof.
  unfold Config.isdigit_char, Decimal.is_ascii_digit. now intros ->.
Qed.

Lemma lower_digits (s : string) :
  Config.all_ascii_digits s = true -> Config.lower s = s.
Proof.
  unfold Config.all_ascii_digits.
  induction s as [|c s IH]; cbn [list_ascii_of_string forallb Config.lower];
    [reflexivity|].
  intros H. apply andb_true_iff in H as [Hc Hs].
  now rewrite lower_char_digit, IH.
Qed.

Lemma isdigit_digits (s : string) :
  s <> "" -> Config.all_ascii_digits s = true -> Config.isdigit s = true.
Proof.
  unfold Config.all_ascii_digits, Config.isdigit. intros Hne Hall.
  apply andb_true_iff. split.
  - destruct s; [contradiction|reflexivity].
  - revert Hall. clear Hne.
    induction s as [|c s IH]; cbn [list_ascii_of_string forallb];
      [reflexivity|].
    intros H. apply andb_true_iff in H as [Hc Hs].
    now rewrite isdigit_char_digit, IH.
Qed.

Lemma digits_not_word (s w : string) :
  Config.all_ascii_digits s = true ->
  Config.all_ascii_digits w = false ->
  String.eqb s w = false.
Proof.
  intros Hs Hw. destruct (String.eqb s w) eqn:E; [|reflexivity].
  apply String.eqb_eq in E. congruence.
Qed.

(** What the conversion makes of a string of ASCII digits that [int]
    accepts. *)
Lemma env_convert_digits (text : string) :
  text <> "" ->
  Config.all_ascii_digits text = true ->
  String.length text <= Config.int_max_str_digits ->
  Config.env_convert text =
    if String.eqb text "1" then Config.VBool true
    else if String.eqb text "0" then Config.VBool false
    else Config.VInt (Z.of_nat (Decimal.int text)).
Proof.
  intros Hne Hall Hlen. unfold Config.env_convert.
  rewrite (lower_digits _ Hall). unfold Config.one_of. cbn [existsb].
  rewrite (digits_not_word text "true" Hall eq_refl),
          (digits_not_word text "yes" Hall eq_refl),
          (digits_not_word text "false" Hall eq_refl),
          (digits_not_word text "no" Hall eq_refl).
  cbn [orb]. rewrite !orb_false_r.
  destruct (String.eqb text "1") eqn:E1; [reflexivity|].
  destruct (String.eqb text "0") eqn:E0; [reflexivity|].
  rewrite (isdigit_digits _ Hne Hall), Hall.
  apply Nat.leb_le in Hlen. rewrite Hlen. reflexivity.
Qed.

(** X18.  An environment variable holding a natural number in decimal is
    read back as that number, except that 0 and 1 are read as the booleans
    [False] and [True]: the boolean words are tried before the digits. *)
Theorem environment_reads_numbers_back (n : nat) :
  String.length (PyStr.str_of_nat n) <= Config.int_max_str_digits ->
  Config.env_convert (PyStr.str_of_nat n) =
    match n with
    | 0 => Config.VBool false
    | 1 => Config.VBool true
    | _ => Config.VInt (Z.of_nat n)
    end.
Proof.
  intros Hlen.
  destruct (str_of_nat_reads_back n) as [Hv Hall].
  assert (Hall' : Config.all_ascii_digits (PyStr.str_of_nat n) = true).
  { unfold Config.all_ascii_digits. apply forallb_forall.
    rewrite Forall_forall in Hall. intros c Hc. apply Hall.
    now apply list_elem_of_In. }
  assert (Hne : PyStr.str_of_nat n <> "").
  { destruct n as [|n]; [discriminate|].
    intros E. rewrite E in Hv. discriminate Hv. }
  rewrite (env_convert_digits _ Hne Hall' Hlen).
  destruct (String.eqb (PyStr.str_of_nat n) "1") eqn:E1.
  { apply String.eqb_eq in E1. rewrite E1 in Hv.
    change (Decimal.int "1") with 1 in Hv. now subst n. }
  destruct (String.eqb (PyStr.str_of_nat n) "0") eqn:E0.
  { apply String.eqb_eq in E0. rewrite E0 in Hv.
    change (Decimal.int "0") with 0 in Hv. now subst n. }
  rewrite Hv. destruct n as [|[|n]]; [discriminate E0|discriminate E1|reflexivity].
Qed.

End EnvironmentValues.

(** The speaker number 3 from [ESH_SPEAKER=3]. *)
Lemma environment_reads_numbers_back_speaker :
  Config.env_convert "3" = Config.VInt 3.
Proof.
  apply (environment_reads_numbers_back 3).
  change (1 <= Config.int_max_str_digits).
  unfold Config.int_max_str_digits. lia.
Defined.

Section ConfigFacts.
Import Config.
Local Open Scope list_scope.

(** Only the key ["experimental"] is bound to the shared dictionary. *)
Let only_experimental_shared (config : gmap string slot) : Prop :=
  forall k, config !! k = Some SharedExperimental -> k = "experimental".

Lemma default_only_experimental_shared : only_experimental_shared DEFAULT_CONFIG.
Proof.
  intros k H. unfold DEFAULT_CONFIG in H. cbn [list_to_map foldr fst snd] in H.
  repeat (rewrite lookup_insert in H;
          destruct (decide (_ = k)) as [<-|_]; [first [discriminate H|reflexivity]|]).
  rewrite lookup_empty in H. discriminate H.
Qed.

Lemma experimental_not_mapped : ~ In "experimental" (map snd env_mapping).
Proof.
  cbn [map env_mapping snd In]. intros H.
  repeat (destruct H as [H|H]; [discriminate H|]). exact H.
Qed.

Lemma env_mapping_NoDup : NoDup (map snd env_mapping).
Proof.
  cbn [map env_mapping snd].
  repeat (apply NoDup_cons; split;
          [rewrite list_elem_of_In; cbn [In]; intros H;
           repeat (destruct H as [H|H]; [discriminate H|]); exact H|]).
  apply NoDup_nil. exact I.
Qed.

(** *** The environment *)

Lemma load_env_other (environ : gmap string string)
    (mapping : list (string * string)) (config : gmap string slot)
    (key : string) :
  ~ In key (map snd mapping) ->
  foldl (load_one environ) config mapping !! key = config !! key.
Proof.
  revert config. induction mapping as [|m mapping IH]; intros config Hnot;
    [reflexivity|].
  cbn [foldl]. rewrite IH by (intros H; apply Hnot; right; exact H).
  unfold load_one. destruct (environ !! fst m); [|reflexivity].
  apply lookup_insert_ne. intros E. apply Hnot. left. exact E.
Qed.

Lemma load_env_mapped (environ : gmap string string)
    (mapping : list (string * string)) (config : gmap string slot)
    (env_var key : string) :
  NoDup (map snd mapping) -> In (env_var, key) mapping ->
  foldl (load_one environ) config mapping !! key =
    match environ !! env_var with
    | Some text => Some (Own (env_convert text))
    | None => config !! key
    end.
Proof.
  revert config. induction mapping as [|m mapping IH]; intros config Hnd Hin;
    [destruct Hin|].
  cbn [map] in Hnd. apply NoDup_cons in Hnd as [Hnotin Hnd].
  rewrite list_elem_of_In in Hnotin.
  cbn [foldl]. destruct Hin as [->|Hin].
  - rewrite load_env_other by exact Hnotin.
    unfold load_one. cbn [fst snd].
    destruct (environ !! env_var); [apply lookup_insert_eq|reflexivity].
  - rewrite (IH _ Hnd Hin). destruct (environ !! env_var); [reflexivity|].
    unfold load_one. destruct (environ !! fst m); [|reflexivity].
    apply lookup_insert_ne. intros E. apply Hnotin. rewrite E.
    apply in_map_iff. exists (env_var, key). split; [reflexivity|exact Hin].
Qed.

(** A key no variable of the environment is set for keeps its value. *)
Lemma load_env_unset (environ : gmap string string) (config : gmap string slot)
    (key : string) :
  (forall env_var, In (env_var, key) env_mapping -> environ !! env_var = None) ->
  _load_from_env environ config !! key = config !! key.
Proof.
  intros Hunset. unfold _load_from_env.
  destruct (in_dec string_dec key (map snd env_mapping)) as [Hin|Hnot].
  - apply in_map_iff in Hin as ([env_var key'] & Hk & Hin). cbn [snd] in Hk.
    subst key'. rewrite (load_env_mapped _ _ _ env_var key env_mapping_NoDup Hin).
    now rewrite (Hunset _ Hin).
  - now apply load_env_other.
Qed.

(** *** The file *)

Lemma update_one_other (shared : list (string * value))
    (config : gmap string slot) (k key : string) (x : value) :
  k <> key ->
  snd (update_one (shared, config) (k, x)) !! key = config !! key.
Proof.
  intros Hne. unfold update_one. cbn [fst snd].
  destruct x; try (cbn [snd]; now apply lookup_insert_ne).
  destruct (config !! k) as [[v|]|]; [destruct v| |];
    cbn [snd]; first [reflexivity|now apply lookup_insert_ne].
Qed.

Lemma update_one_keeps (shared : list (string * value))
    (config : gmap string slot) (kv : string * value) (key : string) :
  is_Some (config !! key) ->
  is_Some (snd (update_one (shared, config) kv) !! key).
Proof.
  intros H. destruct kv as [k x]. unfold update_one. cbn [fst snd].
  assert (Hins : forall s, is_Some (<[k:=s]> config !! key)).
  { intros s. rewrite lookup_insert. destruct (decide (k = key)); [eauto|exact H]. }
  destruct x; try (cbn [snd]; apply Hins).
  destruct (config !! k) as [[v|]|]; [destruct v| |];
    cbn [snd]; first [exact H|apply Hins].
Qed.

Lemma update_one_plain (shared : list (string * value))
    (config : gmap string slot) (key : string) (v : value) :
  (forall d, v <> VDict d) ->
  snd (update_one (shared, config) (key, v)) !! key = Some (Own v).
Proof.
  intros Hplain. unfold update_one. cbn [fst snd].
  destruct v; try (cbn [snd]; apply lookup_insert_eq).
  now destruct (Hplain items).
Qed.

Lemma update_one_shared_other (shared : list (string * value))
    (config : gmap string slot) (k : string) (x : value) :
  only_experimental_shared config -> k <> "experimental" ->
  fst (update_one (shared, config) (k, x)) = shared.
Proof.
  intros Honly Hne. unfold update_one. cbn [fst snd].
  destruct x; try reflexivity.
  destruct (config !! k) as [[v|]|] eqn:E; [destruct v| |]; try reflexivity.
  now apply Honly in E.
Qed.

Lemma update_one_only_experimental (shared : list (string * value))
    (config : gmap string slot) (kv : string * value) :
  only_experimental_shared config ->
  only_experimental_shared (snd (update_one (shared, config) kv)).
Proof.
  intros Honly. destruct kv as [k x]. unfold update_one. cbn [fst snd].
  assert (Hins : forall v, only_experimental_shared (<[k:=Own v]> config)).
  { intros v key H. rewrite lookup_insert in H.
    destruct (decide (k = key)); [discriminate H|now apply Honly]. }
  destruct x; try (cbn [snd]; apply Hins).
  destruct (config !! k) as [[v|]|]; [destruct v| |];
    cbn [snd]; first [exact Honly|apply Hins].
Qed.

Lemma update_config_other (items : list (string * value))
    (shared : list (string * value)) (config : gmap string slot) (key : string) :
  ~ In key (map fst items) ->
  snd (_update_config shared config items) !! key = config !! key.
Proof.
  unfold _update_config. revert shared config.
  induction items as [|[k x] items IH]; intros shared config Hnot; [reflexivity|].
  cbn [foldl].
  destruct (update_one (shared, config) (k, x)) as [shared' config'] eqn:E.
  rewrite IH by (intros H; apply Hnot; right; exact H).
  change config' with (snd (shared', config')). rewrite <- E.
  apply update_one_other. intros ->. apply Hnot. left. reflexivity.
Qed.

Lemma update_config_keeps (items : list (string * value))
    (shared : list (string * value)) (config : gmap string slot) (key : string) :
  is_Some (config !! key) ->
  is_Some (snd (_update_config shared config items) !! key).
Proof.
  unfold _update_config. revert shared config.
  induction items as [|kv items IH]; intros shared config H; [exact H|].
  cbn [foldl].
  destruct (update_one (shared, config) kv) as [shared' config'] eqn:E.
  apply IH. change config' with (snd (shared', config')). rewrite <- E.
  now apply update_one_keeps.
Qed.

Lemma update_config_shared_untouched (items : list (string * value))
    (shared : list (string * value)) (config : gmap string slot) :
  only_experimental_shared config ->
  ~ In "experimental" (map fst items) ->
  fst (_update_config shared config items) = shared.
Proof.
  unfold _update_config. revert shared config.
  induction items as [|[k x] items IH]; intros shared config Honly Hnot;
    [reflexivity|].
  cbn [foldl].
  assert (Hk : k <> "experimental") by (intros ->; apply Hnot; left; reflexivity).
  pose proof (update_one_shared_other shared config k x Honly Hk) as Hs.
  pose proof (update_one_only_experimental shared config (k, x) Honly) as Ho.
  destruct (update_one (shared, config) (k, x)) as [shared' config'].
  cbn [fst snd] in Hs, Ho. subst shared'.
  apply IH; [exact Ho|]. intros H. apply Hnot. right. exact H.
Qed.

(** A value of the file that is not an object replaces what was there. *)
Lemma update_config_plain (items : list (string * value))
    (shared : list (string * value)) (config : gmap string slot)
    (key : string) (v : value) :
  NoDup (map fst items) -> In (key, v) items -> (forall d, v <> VDict d) ->
  snd (_update_config shared config items) !! key = Some (Own v).
Proof.
  intros Hnd Hin Hplain. revert shared config Hnd Hin.
  induction items as [|[k x] items IH]; intros shared config Hnd Hin;
    [destruct Hin|].
  cbn [map fst] in Hnd. apply NoDup_cons in Hnd as [Hnotin Hnd].
  rewrite list_elem_of_In in Hnotin.
  unfold _update_config in *. cbn [foldl].
  destruct Hin as [Heq|Hin].
  - injection Heq as -> ->.
    pose proof (update_one_plain shared config key v Hplain) as Hone.
    destruct (update_one (shared, config) (key, v)) as [shared' config'].
    cbn [snd] in Hone. rewrite <- Hone.
    now apply (update_config_other items shared' config' key).
  - destruct (update_one (shared, config) (k, x)) as [shared' config'].
    now apply IH.
Qed.

(** An object under ["experimental"] goes into the shared dictionary. *)
Lemma update_config_experimental (items : list (string * value))
    (shared : list (string * value)) (config : gmap string slot)
    (d : list (string * value)) :
  NoDup (map fst items) -> In ("experimental", VDict d) items ->
  only_experimental_shared config ->
  config !! "experimental" = Some SharedExperimental ->
  fst (_update_config shared config items) = dict_update shared d
  /\ snd (_update_config shared config items) !! "experimental"
     = Some SharedExperimental.
Proof.
  intros Hnd Hin. revert shared config Hnd Hin.
  induction items as [|[k x] items IH]; intros shared config Hnd Hin Honly Hexp;
    [destruct Hin|].
  cbn [map fst] in Hnd. apply NoDup_cons in Hnd as [Hnotin Hnd].
  rewrite list_elem_of_In in Hnotin.
  destruct Hin as [Heq|Hin].
  - injection Heq as -> ->.
    assert (Hone : update_one (shared, config) ("experimental", VDict d)
                   = (dict_update shared d, config)).
    { unfold update_one. cbn [fst snd]. now rewrite Hexp. }
    unfold _update_config. cbn [foldl]. rewrite Hone.
    split.
    + now apply (update_config_shared_untouched items).
    + rewrite <- Hexp. now apply (update_config_other items).
  - assert (Hk : k <> "experimental").
    { intros ->. apply Hnotin. apply in_map_iff.
      exists ("experimental", VDict d). split; [reflexivity|exact Hin]. }
    pose proof (update_one_shared_other shared config k x Honly Hk) as Hs.
    pose proof (update_one_only_experimental shared config (k, x) Honly) as Ho.
    pose proof (update_one_other shared config k "experimental" x Hk) as Hl.
    unfold _update_config in *. cbn [foldl].
    destruct (update_one (shared, config) (k, x)) as [shared' config'].
    cbn [fst snd] in Hs, Ho, Hl. subst shared'.
    apply IH; [exact Hnd|exact Hin|exact Ho|]. now rewrite Hl.
Qed.

(** *** Dictionaries built from members *)

Lemma dict_set_keys (k : string) (x : value) (d : list (string * value))
    (k' : string) :
  In k' (map fst (dict_set k x d)) <-> k' = k \/ In k' (map fst d).
Proof.
  induction d as [|[k0 x0] d IH]; cbn [dict_set map fst In].
  - intuition congruence.
  - destruct (String.eqb k0 k) eqn:E; cbn [map fst In].
    + apply String.eqb_eq in E. subst k0. intuition congruence.
    + rewrite IH. intuition congruence.
Qed.

Lemma dict_set_NoDup (k : string) (x : value) (d : list (string * value)) :
  NoDup (map fst d) -> NoDup (map fst (dict_set k x d)).
Proof.
  induction d as [|[k0 x0] d IH]; cbn [dict_set map fst]; intros Hnd.
  - apply NoDup_cons. split; [apply not_elem_of_nil|exact Hnd].
  - apply NoDup_cons in Hnd as [Hnotin Hnd].
    destruct (String.eqb k0 k) eqn:E; cbn [map fst].
    + apply String.eqb_eq in E. subst k0. apply NoDup_cons. now split.
    + apply String.eqb_neq in E. apply NoDup_cons. split; [|now apply IH].
      rewrite list_elem_of_In, dict_set_keys. rewrite list_elem_of_In in Hnotin.
      intuition congruence.
Qed.

Lemma dict_update_NoDup (d new : list (string * value)) :
  NoDup (map fst d) -> NoDup (map fst (dict_update d new)).
Proof.
  unfold dict_update. revert d.
  induction new as [|kv new IH]; intros d Hnd; [exact Hnd|].
  cbn [foldl]. apply IH. now apply dict_set_NoDup.
Qed.

Lemma dict_of_members_NoDup (members : list (string * value)) :
  NoDup (map fst (dict_of_members members)).
Proof. apply dict_update_NoDup. apply NoDup_nil. exact I. Qed.

Lemma dict_get_In (k : string) (d : list (string * value)) (v : value) :
  dict_get k d = Some v -> In (k, v) d.
Proof.
  induction d as [|[k0 x0] d IH]; cbn [dict_get]; [discriminate|].
  destruct (String.eqb k0 k) eqn:E.
  - apply String.eqb_eq in E. subst k0. intros [= ->]. now left.
  - intros H. right. now apply IH.
Qed.

Lemma dict_get_None (k : string) (d : list (string * value)) :
  dict_get k d = None -> ~ In k (map fst d).
Proof.
  induction d as [|[k0 x0] d IH]; cbn [dict_get map fst In]; [tauto|].
  destruct (String.eqb k0 k) eqn:E; [discriminate|].
  apply String.eqb_neq in E. intros H [Hk|Hin]; [contradiction|].
  now apply IH.
Qed.

(** *** Reading a configuration *)

Lemma one_of_false (name : string) (l : list string) :
  one_of name l = false -> Forall (fun x => String.eqb name x = false) l.
Proof.
  unfold one_of. induction l as [|x l IH]; cbn [existsb]; [constructor|].
  intros H. apply orb_false_iff in H as [Hx Hl]. constructor; auto.
Qed.

(** A plain name is read from the instance dictionary, then from
    [__getattr__]. *)
Lemma getattr_plain (shared : list (string * value)) (self : t) (name : string) :
  plain name = true ->
  getattr shared self name =
    match attributes self !! name with
    | Some v => inr (Data v)
    | None =>
        match __getattr__ shared self name with
        | inr v => inr (Data v)
        | inl e => inl e
        end
    end.
Proof.
  unfold plain. intros H.
  apply andb_true_iff in H as [H Hc]. apply andb_true_iff in H as [Hn Hd].
  apply negb_true_iff in Hn, Hd, Hc.
  pose proof (one_of_false _ _ Hd) as Hdd.
  inversion Hdd as [|? ? H1 Hdd1]; subst.
  inversion Hdd1 as [|? ? H2 Hdd2]; subst.
  inversion Hdd2 as [|? ? H3 _]; subst.
  unfold getattr. rewrite H3, H1, H2, Hn, Hc. reflexivity.
Qed.

Lemma getattr_fresh (shared : list (string * value))
    (config : gmap string slot) (name : string) :
  plain name = true ->
  getattr shared {| _config := Settings config; attributes := ∅ |} name =
    match config !! name with
    | Some (Own v) => inr (Data v)
    | Some SharedExperimental => inr (Data (VDict shared))
    | None => inl (AttributeError name)
    end.
Proof.
  intros Hp. rewrite (getattr_plain _ _ _ Hp).
  cbn [attributes]. rewrite lookup_empty.
  unfold __getattr__. cbn [_config].
  destruct (config !! name) as [[v|]|]; reflexivity.
Qed.

(** No default key is a name of the class. *)
Lemma default_key_plain (name : string) :
  is_Some (DEFAULT_CONFIG !! name) -> plain name = true.
Proof.
  intros [x H]. unfold DEFAULT_CONFIG in H. cbn [list_to_map foldr fst snd] in H.
  repeat (rewrite lookup_insert in H;
          destruct (decide (_ = name)) as [<-|_]; [reflexivity|]).
  rewrite lookup_empty in H. discriminate H.
Qed.

Lemma load_env_keeps (environ : gmap string string) (config : gmap string slot)
    (key : string) :
  is_Some (config !! key) -> is_Some (_load_from_env environ config !! key).
Proof.
  unfold _load_from_env. generalize env_mapping. intros mapping. revert config.
  induction mapping as [|m mapping IH]; intros config H; [exact H|].
  cbn [foldl]. apply IH. unfold load_one.
  destruct (environ !! fst m); [|exact H].
  rewrite lookup_insert. destruct (decide (snd m = key)); [eauto|exact H].
Qed.

Lemma init_keeps_defaults (shared : list (string * value))
    (loaded : option (exn + value)) (environ : gmap string string)
    (name : string) :
  is_Some (DEFAULT_CONFIG !! name) ->
  is_Some (settings (snd (init shared loaded environ)) !! name).
Proof.
  intros H. unfold init, settings. cbn [snd _config]. apply load_env_keeps.
  destruct loaded as [[e|v]|]; cbn [_load_from_file snd]; try exact H.
  destruct v; cbn [snd]; try exact H. now apply update_config_keeps.
Qed.

(** X19.  Every key of the defaults can be read from a configuration,
    whatever the file and the environment held: files and variables
    replace values and add keys, and take no key away, and no default key
    is the name of a method or attribute of the class. *)
Theorem defaults_stay_readable (shared : list (string * value))
    (loaded : option (exn + value)) (environ : gmap string string)
    (name : string) :
  is_Some (DEFAULT_CONFIG !! name) ->
  exists v,
    getattr (fst (init shared loaded environ))
      (snd (init shared loaded environ)) name
    = inr (Data v).
Proof.
  intros H.
  pose proof (init_keeps_defaults shared loaded environ name H) as Hk.
  pose proof (default_key_plain name H) as Hp.
  unfold init, settings in *. cbn [fst snd _config] in *.
  rewrite (getattr_fresh _ _ _ Hp).
  destruct Hk as [s Hs]. rewrite Hs. destruct s; eauto.
Qed.

(** X20.  For a key of the mapping, a variable that is set decides the
    value, whatever the file said; when it is not set the value is the one
    the same file gives without the environment. *)
Theorem environment_overrides_file (shared : list (string * value))
    (loaded : option (exn + value)) (environ : gmap string string)
    (env_var key : string) :
  In (env_var, key) env_mapping ->
  _config (snd (init shared loaded environ))
  = Settings (settings (snd (init shared loaded environ)))
  /\ settings (snd (init shared loaded environ)) !! key =
     match environ !! env_var with
     | Some text => Some (Own (env_convert text))
     | None => settings (snd (init shared loaded ∅)) !! key
     end.
Proof.
  intros Hin. split; [reflexivity|].
  unfold init, settings. cbn [snd _config]. unfold _load_from_env.
  rewrite !(load_env_mapped _ _ _ env_var key env_mapping_NoDup Hin).
  now rewrite lookup_empty.
Qed.

(** X21.  Without a variable set for it, a key the file binds to a value
    that is not an object holds that value, and reads as that value
    unless the key is [_config] or the name of a method or attribute of
    the class, which are found before [__getattr__] is asked; a key the
    file does not mention keeps its default. *)
Theorem file_overrides_defaults (shared : list (string * value))
    (members : list (string * value)) (environ : gmap string string)
    (key : string) :
  (forall env_var, In (env_var, key) env_mapping -> environ !! env_var = None) ->
  let made := init shared (Some (inr (VDict members))) environ in
  (forall v, dict_get key (dict_of_members members) = Some v ->
             (forall d, v <> VDict d) ->
             settings (snd made) !! key = Some (Own v)
             /\ (plain key = true ->
                 getattr (fst made) (snd made) key = inr (Data v))
             /\ (class_member key = true ->
                 getattr (fst made) (snd made) key = inr (class_attribute key)))
  /\ (dict_get key (dict_of_members members) = None ->
      settings (snd made) !! key = DEFAULT_CONFIG !! key).
Proof.
  intros Hunset made. subst made. unfold init, settings.
  cbn [fst snd _config _load_from_file]. split.
  - intros v Hget Hplain.
    assert (Hset : _load_from_env environ
                     (snd (_update_config shared DEFAULT_CONFIG
                             (dict_of_members members))) !! key
                   = Some (Own v)).
    { rewrite (load_env_unset _ _ _ Hunset).
      exact (update_config_plain _ _ _ key v (dict_of_members_NoDup members)
               (dict_get_In _ _ _ Hget) Hplain). }
    split; [exact Hset|]. split.
    + intros Hp. now rewrite (getattr_fresh _ _ _ Hp), Hset.
    + intros Hc. unfold getattr. cbn [attributes]. rewrite lookup_empty, Hc.
      unfold class_member in Hc.
      destruct (String.eqb key "__weakref__") eqn:E1;
        [apply String.eqb_eq in E1; subst key; discriminate Hc|].
      destruct (String.eqb key "__class__") eqn:E2;
        [apply String.eqb_eq in E2; subst key; discriminate Hc|].
      destruct (String.eqb key "__dict__") eqn:E3;
        [apply String.eqb_eq in E3; subst key; discriminate Hc|].
      destruct (String.eqb key "_config") eqn:E4;
        [apply String.eqb_eq in E4; subst key; discriminate Hc|].
      reflexivity.
  - intros Hget. rewrite (load_env_unset _ _ _ Hunset).
    apply update_config_other. now apply dict_get_None.
Qed.

(** X22.  The dictionary under ["experimental"] is one object shared by
    the class and every configuration: what a file puts under
    ["experimental"] is read by a configuration made afterwards without any
    file. *)
Theorem experimental_settings_are_shared (shared : list (string * value))
    (members d : list (string * value)) (environ1 environ2 : gmap string string) :
  dict_get "experimental" (dict_of_members members) = Some (VDict d) ->
  let first := init shared (Some (inr (VDict members))) environ1 in
  let second := init (fst first) None environ2 in
  getattr (fst first) (snd first) "experimental"
    = inr (Data (VDict (dict_update shared d)))
  /\ getattr (fst second) (snd second) "experimental"
     = inr (Data (VDict (dict_update shared d))).
Proof.
  intros Hget first second. subst first second. unfold init.
  cbn [fst snd _config _load_from_file].
  destruct (update_config_experimental (dict_of_members members) shared
              DEFAULT_CONFIG d (dict_of_members_NoDup members)
              (dict_get_In _ _ _ Hget) default_only_experimental_shared eq_refl)
    as [Hs Hc].
  rewrite !(getattr_fresh _ _ "experimental" eq_refl). unfold _load_from_env.
  rewrite !(load_env_other _ _ _ _ experimental_not_mapped), Hc, Hs.
  split; reflexivity.
Qed.

(** *** Setting attributes *)

Lemma plain_not_config (name : string) :
  plain name = true -> String.eqb name "_config" = false.
Proof.
  unfold plain. intros H.
  apply andb_true_iff in H as [H _]. apply andb_true_iff in H as [H _].
  now apply negb_true_iff in H.
Qed.

Lemma plain_object_setattr (self : t) (name : string) (v : value) :
  plain name = true ->
  object_setattr self name v
  = inr {| _config := _config self;
           attributes := <[name := v]> (attributes self) |}.
Proof.
  unfold plain. intros H.
  apply andb_true_iff in H as [H _]. apply andb_true_iff in H as [_ Hd].
  apply negb_true_iff in Hd.
  pose proof (one_of_false _ _ Hd) as Hdd.
  inversion Hdd as [|? ? H1 Hdd1]; subst.
  inversion Hdd1 as [|? ? H2 Hdd2]; subst.
  inversion Hdd2 as [|? ? H3 _]; subst.
  unfold object_setattr. now rewrite H1, H3, H2.
Qed.

(** What an assignment to a plain name does to a consistent object. *)
Lemma setattr_plain (self : t) (name : string) (v : value) :
  plain name = true -> consistent self ->
  setattr self name v
  = inr (match settings self !! name with
         | Some _ =>
             {| _config := Settings (<[name := Own v]> (settings self));
                attributes := attributes self |}
         | None =>
             {| _config := _config self;
                attributes := <[name := v]> (attributes self) |}
         end).
Proof.
  intros Hp [[config Hc] _]. unfold setattr, settings.
  rewrite (plain_not_config _ Hp), Hc.
  destruct (config !! name); [reflexivity|].
  rewrite (plain_object_setattr _ _ _ Hp), Hc. reflexivity.
Qed.

Lemma setattr_consistent (self self' : t) (name : string) (v : value) :
  plain name = true -> consistent self ->
  setattr self name v = inr self' -> consistent self'.
Proof.
  intros Hp Hcons. rewrite (setattr_plain _ _ _ Hp Hcons).
  destruct Hcons as [[config Hc] Hattr]. unfold settings in *.
  rewrite Hc in *. intros [= <-].
  destruct (config !! name) as [s|] eqn:E;
    unfold consistent, settings; cbn [_config attributes].
  - split; [eauto|]. intros key. rewrite lookup_insert.
    destruct (decide (name = key)) as [<-|Hne].
    + intros _. apply Hattr. rewrite E. eauto.
    + apply Hattr.
  - split; [eauto|]. intros key Hkey.
    rewrite lookup_insert_ne; [now apply Hattr|].
    intros <-. rewrite E in Hkey. now destruct Hkey.
Qed.

Lemma setattr_same (shared : list (string * value)) (self self' : t)
    (name : string) (v : value) :
  plain name = true -> consistent self ->
  setattr self name v = inr self' ->
  getattr shared self' name = inr (Data v).
Proof.
  intros Hp Hcons. rewrite (setattr_plain _ _ _ Hp Hcons).
  destruct Hcons as [[config Hc] Hattr]. unfold settings in *.
  rewrite Hc in *. intros [= <-]. rewrite (getattr_plain _ _ _ Hp).
  destruct (config !! name) as [s|] eqn:E; cbn [_config attributes].
  - rewrite (Hattr name) by (rewrite E; eauto).
    unfold __getattr__. cbn [_config]. now rewrite lookup_insert_eq.
  - now rewrite lookup_insert_eq.
Qed.

Lemma setattr_other (shared : list (string * value)) (self self' : t)
    (name other : string) (v : value) :
  plain name = true -> consistent self ->
  setattr self name v = inr self' ->
  name <> other ->
  getattr shared self' other = getattr shared self other.
Proof.
  intros Hp Hcons. rewrite (setattr_plain _ _ _ Hp Hcons).
  destruct Hcons as [[config Hc] Hattr]. unfold settings in *.
  rewrite Hc in *. intros [= <-] Hne.
  unfold getattr.
  destruct (String.eqb other "__weakref__"); [reflexivity|].
  destruct (String.eqb other "__class__"); [reflexivity|].
  destruct (config !! name) as [s|] eqn:E; cbn [_config attributes];
    rewrite ?Hc.
  - destruct (String.eqb other "__dict__"); [reflexivity|].
    destruct (String.eqb other "_config").
    + rewrite map_size_insert, E. reflexivity.
    + unfold __getattr__. cbn [_config]. rewrite ?Hc.
      rewrite lookup_insert_ne by exact Hne. reflexivity.
  - destruct (String.eqb other "__dict__"); [reflexivity|].
    destruct (String.eqb other "_config"); [reflexivity|].
    rewrite lookup_insert_ne by exact Hne.
    unfold __getattr__. cbn [_config]. rewrite ?Hc. reflexivity.
Qed.

Lemma setattr_keys (self self' : t) (name key : string) (v : value) :
  plain name = true -> consistent self ->
  setattr self name v = inr self' ->
  (is_Some (settings self' !! key) <-> is_Some (settings self !! key)).
Proof.
  intros Hp Hcons. rewrite (setattr_plain _ _ _ Hp Hcons).
  destruct Hcons as [[config Hc] Hattr]. unfold settings in *.
  rewrite Hc in *. intros [= <-].
  destruct (config !! name) as [s|] eqn:E; cbn [_config]; [|tauto].
  rewrite lookup_insert. destruct (decide (name = key)) as [<-|Hne]; [|tauto].
  rewrite E. split; eauto.
Qed.

Lemma init_consistent (shared : list (string * value))
    (loaded : option (exn + value)) (environ : gmap string string) :
  consistent (snd (init shared loaded environ)).
Proof.
  split; [unfold init; cbn [snd _config]; eauto|].
  intros name _. unfold init. cbn [snd attributes]. apply lookup_empty.
Qed.

(** X23.  On a configuration as the constructor leaves it, and for a name
    that is neither [_config] nor the name of a method or attribute of
    the class: the assignment returns, reading the name back gives the
    value assigned, other names read as before, and the keys of the
    configuration stay the same (a name that is no key becomes an
    attribute of the object and not a setting).  Assigning a dictionary
    to [_config], in contrast, replaces the settings: afterwards such a
    name reads as that dictionary has it. *)
Theorem setattr_then_getattr (shared : list (string * value)) (self : t)
    (name : string) (v : value) :
  plain name = true ->
  consistent self ->
  (exists self',
     setattr self name v = inr self'
     /\ consistent self'
     /\ getattr shared self' name = inr (Data v)
     /\ (forall other, name <> other ->
           getattr shared self' other = getattr shared self other)
     /\ (forall key, is_Some (settings self' !! key)
                     <-> is_Some (settings self !! key)))
  /\ (forall items,
        exists self',
          setattr self "_config" (VDict items) = inr self'
          /\ getattr shared self' "_config" = inr (Data (VDict items))
          /\ (attributes self !! name = None ->
              getattr shared self' name =
                match dict_get name items with
                | Some x => inr (Data x)
                | None => inl (AttributeError name)
                end)).
Proof.
  intros Hp Hcons. split.
  - destruct (setattr self name v) as [e|self'] eqn:E.
    { rewrite (setattr_plain _ _ _ Hp Hcons) in E. discriminate E. }
    exists self'. split; [reflexivity|].
    split; [exact (setattr_consistent _ _ _ _ Hp Hcons E)|].
    split; [exact (setattr_same _ _ _ _ _ Hp Hcons E)|].
    split; [intros other Hne; exact (setattr_other _ _ _ _ _ _ Hp Hcons E Hne)|].
    intros key. exact (setattr_keys _ _ _ _ _ Hp Hcons E).
  - intros items. eexists. split; [reflexivity|]. split; [reflexivity|].
    intros Hnone. rewrite (getattr_plain _ _ _ Hp).
    cbn [attributes]. rewrite Hnone. unfold __getattr__. cbn [_config contains].
    destruct (dict_get name items) as [x|] eqn:Eg; cbn [item]; now rewrite ?Eg.
Qed.

End ConfigFacts.

(** A configuration made while the file could not be opened. *)
Lemma defaults_stay_readable_broken_file :
  exists v,
    Config.getattr Config.experimental_at_load
      (snd (Config.init Config.experimental_at_load
              (Some (inl (FileNotFoundError "config.json"))) ∅))
      "voice"
    = inr (Config.Data v).
Proof.
  apply (defaults_stay_readable Config.experimental_at_load
           (Some (inl (FileNotFoundError "config.json"))) ∅ "voice").
  exists (Config.Own (Config.VStr "en_US-lessac-medium")). reflexivity.
Defined.

(** [ESH_VOICE] against a file that names another voice. *)
Lemma environment_overrides_file_voice :
  Config.settings
    (snd (Config.init Config.experimental_at_load
            (Some (inr (Config.VDict [("voice", Config.VStr "en_US-ryan-high")])))
            {["ESH_VOICE" := "en_GB-alan-low"]}))
    !! "voice"
  = Some (Config.Own (Config.VStr "en_GB-alan-low")).
Proof.
  etrans.
  - apply (environment_overrides_file Config.experimental_at_load
             (Some (inr (Config.VDict [("voice", Config.VStr "en_US-ryan-high")])))
             {["ESH_VOICE" := "en_GB-alan-low"]} "ESH_VOICE" "voice").
    cbn. repeat (first [left; reflexivity | right]).
  - vm_compute. reflexivity.
Defined.

(** A file with the speaker given twice, and with a key [save]. *)
Lemma file_overrides_defaults_speaker :
  Config.getattr Config.experimental_at_load
    (snd (Config.init Config.experimental_at_load
            (Some (inr (Config.VDict [("speaker", Config.VInt 2);
                                      ("save", Config.VInt 1);
                                      ("speaker", Config.VInt 5)]))) ∅))
    "speaker"
  = inr (Config.Data (Config.VInt 5)).
Proof.
  apply (proj1 (proj2 (proj1 (file_overrides_defaults Config.experimental_at_load
                  [("speaker", Config.VInt 2); ("save", Config.VInt 1);
                   ("speaker", Config.VInt 5)]
                  ∅ "speaker" (fun env_var _ => lookup_empty env_var))
           (Config.VInt 5) eq_refl (fun d H => ltac:(discriminate H))))).
  reflexivity.
Defined.

(** The key [save] of the same file is in the settings, and the attribute
    [save] is still the method. *)
Example file_key_save_reads_as_method :
  Config.settings
    (snd (Config.init Config.experimental_at_load
            (Some (inr (Config.VDict [("save", Config.VInt 1)]))) ∅))
    !! "save"
  = Some (Config.Own (Config.VInt 1))
  /\ Config.getattr Config.experimental_at_load
       (snd (Config.init Config.experimental_at_load
               (Some (inr (Config.VDict [("save", Config.VInt 1)]))) ∅))
       "save"
     = inr (Config.Object "save" true).
Proof. split; vm_compute; reflexivity. Qed.

(** A file that turns speaker diarization on, and a configuration made
    after it. *)
Lemma experimental_settings_are_shared_diarization :
  Config.getattr
    (fst (Config.init Config.experimental_at_load
            (Some (inr (Config.VDict
               [("experimental",
                 Config.VDict [("enable_speaker_diarization", Config.VBool true)])])))
            ∅))
    (snd (Config.init
            (fst (Config.init Config.experimental_at_load
                    (Some (inr (Config.VDict
                       [("experimental",
                         Config.VDict
                           [("enable_speaker_diarization", Config.VBool true)])])))
                    ∅))
            None ∅))
    "experimental"
  = inr (Config.Data
           (Config.VDict [("enable_speaker_diarization", Config.VBool true);
                          ("enable_language_model_rescoring", Config.VBool false)])).
Proof.
  exact (proj2 (experimental_settings_are_shared Config.experimental_at_load
                  [("experimental",
                    Config.VDict [("enable_speaker_diarization", Config.VBool true)])]
                  [("enable_speaker_diarization", Config.VBool true)]
                  ∅ ∅ eq_refl)).
Defined.

(** The voice set on a configuration made from the defaults. *)
Lemma setattr_then_getattr_voice :
  exists self',
    Config.setattr (snd (Config.init Config.experimental_at_load None ∅))
      "voice" (Config.VStr "en_GB-alan-low")
    = inr self'
    /\ Config.getattr Config.experimental_at_load self' "voice"
       = inr (Config.Data (Config.VStr "en_GB-alan-low")).
Proof.
  destruct (proj1
    (setattr_then_getattr Config.experimental_at_load
       (snd (Config.init Config.experimental_at_load None ∅))
       "voice" (Config.VStr "en_GB-alan-low") eq_refl
       (init_consistent Config.experimental_at_load None ∅)))
    as (self' & Hset & _ & Hget & _).
  exists self'. split; assumption.
Defined.

(** What the attribute machinery does with the names of the class and with
    [_config], as CPython 3.11 behaves. *)
Example special_names_examples :
  let c := snd (Config.init Config.experimental_at_load None ∅) in
  Config.getattr [] c "save" = inr (Config.Object "save" true)
  /\ (exists c', Config.setattr c "save" (Config.VInt 2) = inr c'
                 /\ Config.getattr [] c' "save" = inr (Config.Data (Config.VInt 2)))
  /\ Config.setattr c "__class__" (Config.VInt 1) = inl Config.TypeError
  /\ Config.setattr c "__weakref__" Config.VNone
     = inl (Config.AttributeError "__weakref__")
  /\ Config.setattr c "__dict__" (Config.VInt 1) = inl Config.TypeError
  /\ (exists c', Config.setattr c "__dict__" (Config.VDict []) = inr c'
                 /\ Config.getattr [] c' "voice" = inl Config.RecursionError
                 /\ Config.setattr c' "x" (Config.VInt 1) = inl Config.RecursionError)
  /\ (exists c', Config.setattr c "_config" (Config.VInt 3) = inr c'
                 /\ Config.getattr [] c' "voice" = inl Config.TypeError
                 /\ Config.getattr [] c' "_config" = inr (Config.Data (Config.VInt 3)))
  /\ (exists c', Config.setattr c "_config" (Config.VStr "voice speaker") = inr c'
                 /\ Config.getattr [] c' "voice" = inl Config.TypeError
                 /\ Config.getattr [] c' "zzz" = inl (Config.AttributeError "zzz")).
Proof.
  cbv zeta. repeat split;
    try (eexists; repeat split); vm_compute; reflexivity.
Qed.

(* ===================================================================== *)
(** ** The command line  (src/enhanced_speech_tool.py, [main]) *)
(* ===================================================================== *)

Section CommandLineFacts.
Import CommandLine.
Local Open Scope list_scope.

Variable check_piper : Config.found -> Config.found -> exn + unit.

(** What a tool that was constructed holds. *)
Lemma init_tool_made (shared : list (string * Config.value))
    (loaded : option (exn + Config.value)) (environ : gmap string string)
    (shared' : list (string * Config.value)) (tool : Tool) :
  init_tool check_piper shared loaded environ = (shared', inr tool) ->
  shared' = fst (Config.init shared loaded environ)
  /\ config tool = snd (Config.init shared loaded environ)
  /\ exists remove simplify,
       Config.getattr shared' (config tool) "remove_disfluencies" = inr remove
       /\ Config.getattr shared' (config tool) "simplify_language" = inr simplify
       /\ text_processor tool
          = {| TextProcessor.remove_disfluencies := Config.truthy_found remove;
               TextProcessor.simplify_language := Config.truthy_found simplify |}
       /\ Config.getattr shared' (config tool) "voice" = inr (voice tool)
       /\ Config.getattr shared' (config tool) "output_dir"
          = inr (Config.Data (Config.VStr (output_dir tool))).
Proof.
  unfold init_tool. cbv zeta. intros H. injection H as Hs Ht. subst shared'.
  split; [reflexivity|].
  repeat match type of Ht with
         | match ?x with _ => _ end = inr _ =>
             let E := fresh "E" in destruct x eqn:E; [discriminate Ht|]
         end.
  injection Ht as <-. cbn [config text_processor voice output_dir].
  split; [reflexivity|].
  match goal with
  | Hr : Config.getattr _ _ "remove_disfluencies" = inr ?r,
    Hl : Config.getattr _ _ "simplify_language" = inr ?l |- _ =>
      exists r, l
  end.
  match goal with
  | Hp : as_path ?dir = inr ?s |- _ =>
      destruct dir as [[| | | | s0 | |]|]; try discriminate Hp;
      injection Hp as ->
  end.
  repeat split; assumption.
Qed.

Lemma set_config_keeps (tool tool' : Tool) (name : string) (v : Config.value) :
  set_config tool name v = inr tool' ->
  Config.setattr (config tool) name v = inr (config tool')
  /\ output_dir tool' = output_dir tool
  /\ text_processor tool' = text_processor tool
  /\ voice tool' = voice tool
  /\ speaker tool' = speaker tool
  /\ whisper_model tool' = whisper_model tool
  /\ device tool' = device tool
  /\ tts_models_dir tool' = tts_models_dir tool.
Proof.
  unfold set_config. destruct (Config.setattr (config tool) name v);
    [discriminate|].
  intros [= <-]. repeat split; reflexivity.
Qed.

(** An override of a plain name on a consistent configuration. *)
Lemma set_config_plain (shared : list (string * Config.value)) (tool : Tool)
    (name : string) (v : Config.value) :
  Config.plain name = true -> Config.consistent (config tool) ->
  exists tool',
    set_config tool name v = inr tool'
    /\ Config.consistent (config tool')
    /\ Config.getattr shared (config tool') name = inr (Config.Data v)
    /\ (forall other, name <> other ->
          Config.getattr shared (config tool') other
          = Config.getattr shared (config tool) other)
    /\ output_dir tool' = output_dir tool
    /\ text_processor tool' = text_processor tool
    /\ voice tool' = voice tool.
Proof.
  intros Hp Hcons.
  destruct (Config.setattr (config tool) name v) as [e|config'] eqn:E.
  { rewrite (setattr_plain _ _ _ Hp Hcons) in E. discriminate E. }
  unfold set_config. rewrite E. eexists. split; [reflexivity|].
  cbn [config output_dir text_processor voice].
  split; [exact (setattr_consistent _ _ _ _ Hp Hcons E)|].
  split; [exact (setattr_same _ _ _ _ _ Hp Hcons E)|].
  split; [intros other Hne; exact (setattr_other _ _ _ _ _ _ Hp Hcons E Hne)|].
  repeat split; reflexivity.
Qed.

Ltac conjuncts := repeat match goal with |- _ /\ _ => split end.

(** X24.  The overrides of [main] come after the components are made:
    they all go through, [--voice], [--no-disfluencies] and [--simplify]
    change what the configuration says, and the text processor and the
    synthesizer keep the settings the configuration had when the tool was
    constructed; [--output-dir] alone reaches the tool. *)
Theorem overrides_reach_the_configuration_only
    (shared : list (string * Config.value))
    (loaded : option (exn + Config.value)) (environ : gmap string string)
    (shared' : list (string * Config.value)) (tool : Tool) (args : Args) :
  init_tool check_piper shared loaded environ = (shared', inr tool) ->
  exists tool',
    apply_overrides tool args = inr tool'
    /\ (exists remove simplify,
          Config.getattr shared' (config tool) "remove_disfluencies" = inr remove
          /\ Config.getattr shared' (config tool) "simplify_language"
             = inr simplify
          /\ text_processor tool'
             = {| TextProcessor.remove_disfluencies :=
                    Config.truthy_found remove;
                  TextProcessor.simplify_language :=
                    Config.truthy_found simplify |})
    /\ Config.getattr shared' (config tool) "voice" = inr (voice tool')
    /\ (forall v, given (arg_voice args) = Some v ->
          Config.getattr shared' (config tool') "voice"
          = inr (Config.Data (Config.VStr v)))
    /\ (arg_no_disfluencies args = true ->
          Config.getattr shared' (config tool') "remove_disfluencies"
          = inr (Config.Data (Config.VBool true)))
    /\ (arg_simplify args = true ->
          Config.getattr shared' (config tool') "simplify_language"
          = inr (Config.Data (Config.VBool true)))
    /\ (forall d, given (arg_output_dir args) = Some d ->
          output_dir tool' = d
          /\ Config.getattr shared' (config tool') "output_dir"
             = inr (Config.Data (Config.VStr d))).
Proof.
  intros Hinit.
  destruct (init_tool_made _ _ _ _ _ Hinit)
    as (_ & Hcfg & remove & simplify & Hr & Hl & Htp & Hv & _).
  assert (Hcons : Config.consistent (config tool))
    by (rewrite Hcfg; apply init_consistent).
  unfold apply_overrides.
  (* --voice *)
  assert (H1 : exists t1,
             match given (arg_voice args) with
             | Some v => set_config tool "voice" (Config.VStr v)
             | None => inr tool
             end = inr t1
             /\ Config.consistent (config t1)
             /\ output_dir t1 = output_dir tool
             /\ text_processor t1 = text_processor tool
             /\ voice t1 = voice tool
             /\ (forall v, given (arg_voice args) = Some v ->
                   Config.getattr shared' (config t1) "voice"
                   = inr (Config.Data (Config.VStr v)))).
  { destruct (given (arg_voice args)) as [v|].
    - destruct (set_config_plain shared' tool "voice" (Config.VStr v)
                  eq_refl Hcons)
        as (t1 & E & Hc1 & Hg & _ & Ho & Ht & Hvo).
      exists t1. conjuncts; try assumption. now intros v' [= <-].
    - exists tool. conjuncts; first [assumption|reflexivity|discriminate]. }
  destruct H1 as (t1 & -> & Hc1 & Ho1 & Ht1 & Hv1 & Hg1).
  (* --no-disfluencies *)
  assert (H2 : exists t2,
             (if arg_no_disfluencies args
              then set_config t1 "remove_disfluencies" (Config.VBool true)
              else inr t1) = inr t2
             /\ Config.consistent (config t2)
             /\ output_dir t2 = output_dir tool
             /\ text_processor t2 = text_processor tool
             /\ voice t2 = voice tool
             /\ (forall v, given (arg_voice args) = Some v ->
                   Config.getattr shared' (config t2) "voice"
                   = inr (Config.Data (Config.VStr v)))
             /\ (arg_no_disfluencies args = true ->
                   Config.getattr shared' (config t2) "remove_disfluencies"
                   = inr (Config.Data (Config.VBool true)))).
  { destruct (arg_no_disfluencies args).
    - destruct (set_config_plain shared' t1 "remove_disfluencies"
                  (Config.VBool true) eq_refl Hc1)
        as (t2 & E & Hc2 & Hg & Hoth & Ho & Ht & Hvo).
      exists t2. conjuncts; try assumption; try congruence.
      intros v Hv'. rewrite Hoth by discriminate. now apply Hg1.
    - exists t1. conjuncts; first [assumption|reflexivity|discriminate]. }
  destruct H2 as (t2 & -> & Hc2 & Ho2 & Ht2 & Hv2 & Hg2 & Hd2).
  (* --simplify *)
  assert (H3 : exists t3,
             (if arg_simplify args
              then set_config t2 "simplify_language" (Config.VBool true)
              else inr t2) = inr t3
             /\ Config.consistent (config t3)
             /\ output_dir t3 = output_dir tool
             /\ text_processor t3 = text_processor tool
             /\ voice t3 = voice tool
             /\ (forall v, given (arg_voice args) = Some v ->
                   Config.getattr shared' (config t3) "voice"
                   = inr (Config.Data (Config.VStr v)))
             /\ (arg_no_disfluencies args = true ->
                   Config.getattr shared' (config t3) "remove_disfluencies"
                   = inr (Config.Data (Config.VBool true)))
             /\ (arg_simplify args = true ->
                   Config.getattr shared' (config t3) "simplify_language"
                   = inr (Config.Data (Config.VBool true)))).
  { destruct (arg_simplify args).
    - destruct (set_config_plain shared' t2 "simplify_language"
                  (Config.VBool true) eq_refl Hc2)
        as (t3 & E & Hc3 & Hg & Hoth & Ho & Ht & Hvo).
      exists t3. conjuncts; try assumption; try congruence.
      + intros v Hv'. rewrite Hoth by discriminate. now apply Hg2.
      + intros Hn. rewrite Hoth by discriminate. now apply Hd2.
    - exists t2. conjuncts; first [assumption|reflexivity|discriminate]. }
  destruct H3 as (t3 & -> & Hc3 & Ho3 & Ht3 & Hv3 & Hg3 & Hd3 & Hs3).
  (* --output-dir *)
  destruct (given (arg_output_dir args)) as [d|].
  - destruct (set_config_plain shared' t3 "output_dir" (Config.VStr d)
                eq_refl Hc3)
      as (t4 & E & Hc4 & Hg & Hoth & Ho & Ht & Hvo).
    rewrite E. exists (set_output_dir t4 d). split; [reflexivity|].
    cbn [set_output_dir config output_dir text_processor voice].
    split; [exists remove, simplify; conjuncts; congruence|].
    split; [congruence|].
    split; [intros v Hv'; rewrite Hoth by discriminate; now apply Hg3|].
    split; [intros Hn; rewrite Hoth by discriminate; now apply Hd3|].
    split; [intros Hn; rewrite Hoth by discriminate; now apply Hs3|].
    intros d' [= <-]. split; [reflexivity|exact Hg].
  - exists t3. split; [reflexivity|].
    split; [exists remove, simplify; conjuncts; congruence|].
    split; [congruence|].
    split; [exact Hg3|]. split; [exact Hd3|]. split; [exact Hs3|].
    discriminate.
Qed.

End CommandLineFacts.

(** The defaults, and [--simplify] on the command line: the configuration
    says the language is simplified, and the text processor does not do
    it. *)
Lemma overrides_reach_the_configuration_only_simplify :
  exists tool',
    CommandLine.apply_overrides CommandLine.tool_from_defaults
      CommandLine.args_simplify
    = inr tool'
    /\ Config.getattr Config.experimental_at_load (CommandLine.config tool')
         "simplify_language"
       = inr (Config.Data (Config.VBool true))
    /\ TextProcessor.simplify_language (CommandLine.text_processor tool')
       = false.
Proof.
  destruct (overrides_reach_the_configuration_only (fun _ _ => inr tt)
              Config.experimental_at_load None ∅ Config.experimental_at_load
              CommandLine.tool_from_defaults CommandLine.args_simplify)
    as (tool' & Hrun & (remove & simplify & Hr & Hl & Htp) & _ & _ & _ & Hs & _).
  { vm_compute. reflexivity. }
  exists tool'. split; [exact Hrun|]. split; [exact (Hs eq_refl)|].
  rewrite Htp. cbn [TextProcessor.simplify_language].
  assert (Hdef : Config.getattr Config.experimental_at_load
                   (CommandLine.config CommandLine.tool_from_defaults)
                   "simplify_language"
                 = inr (Config.Data (Config.VBool false)))
    by (vm_compute; reflexivity).
  rewrite Hdef in Hl. injection Hl as <-. reflexivity.
Defined.
